(** * bnk-router: the dispatch pipeline, shallowly embedded

    The development follows the TypeScript sources of the router:
    - [router-utils.ts]: [matchRoute], [callValidator], [validateRequest]
      (the version whose schema holds [RouterValidator]s; the earlier,
      zod-only [validateRequest] is embedded next to it);
    - [auth/auth-handler.ts]: [AuthHandler.handleAuth],
      [AuthHandler.authenticateRequest];
    - [router.ts]: the [Router] class, in its two variants: the one with the
      built-in authentication gate ([runAuth]), and the one whose [addRoute]
      merges what the before-route-register hooks return.  The methods the
      two variants share have the same text in both.
    - [auth/auth-utils.ts]: [handleAuth], [createAuthMiddleware];
    - the zod example: [zodValidator].

    The first part holds the definitions: the embedding of the sources, the
    notions the statements are written with, and concrete routers and
    requests.  The second part holds the statements and their proofs.

    Strings are Rocq strings (sequences of bytes): every character the
    router inspects (the slash, the question mark, the colon) is ASCII, so
    cutting a UTF-8 string at these bytes and cutting the UTF-16 string at
    the same characters give the same pieces. *)

From Stdlib Require Import ZArith Ascii String Sorted.
From stdpp Require Import base option list strings gmap sorting.

Open Scope string_scope.
Open Scope list_scope.
Set Warnings "-register-all".

(** ** The JavaScript values the router manipulates *)

Module Js.

(** [s.startsWith(c)] for a one-character [c]. *)
Definition startsWith (c : ascii) (s : string) : bool :=
  match s with
  | EmptyString => false
  | String a _ => Ascii.eqb a c
  end.

(** [s.slice(1)]. *)
Definition slice1 (s : string) : string :=
  match s with
  | EmptyString => EmptyString
  | String _ rest => rest
  end.

(** [s.split(c)] for a one-character separator: the pieces between the
    occurrences of [c], in order; never the empty list. *)
Fixpoint split (c : ascii) (s : string) : list string :=
  match s with
  | EmptyString => [EmptyString]
  | String a rest =>
      if Ascii.eqb a c then EmptyString :: split c rest
      else match split c rest with
           | [] => [String a EmptyString]
           | piece :: pieces => String a piece :: pieces
           end
  end.

(** [s.split(c)[0]]: everything before the first [c]. *)
Definition beforeFirst (c : ascii) (s : string) : string :=
  match split c s with
  | [] => EmptyString
  | piece :: _ => piece
  end.

(** [s.replace(/\/+$/, '')]: the trailing run of slashes is removed. *)
Fixpoint stripTrailingSlashes (s : string) : string :=
  match s with
  | EmptyString => EmptyString
  | String a rest =>
      match stripTrailingSlashes rest with
      | EmptyString => if Ascii.eqb a "/" then EmptyString else String a EmptyString
      | kept => String a kept
      end
  end.

(** Truthiness of a string, as [filter(Boolean)] and [if (path)] see it. *)
Definition truthy (s : string) : bool :=
  match s with
  | EmptyString => false
  | String _ _ => true
  end.

(** [hay.includes(needle)]. *)
Fixpoint includes (needle hay : string) : bool :=
  String.prefix needle hay
  || match hay with
     | EmptyString => false
     | String _ rest => includes needle rest
     end.

(** [path.startsWith(p)] for a string [p]. *)
Definition startsWithStr (p path : string) : bool := String.prefix p path.

(** [obj[key] = value] on an object created by the literal [{}] and typed
    [Record<string, string>].  Every key creates or overwrites an own
    property, except [__proto__]: that key resolves to the accessor
    inherited from [Object.prototype], whose setter ignores a value that is
    neither an object nor null, so assigning a string there leaves the
    object without any new property. *)
Definition objSet (key value : string) (obj : gmap string string) : gmap string string :=
  if String.eqb key "__proto__" then obj else <[key := value]> obj.

(** [Object.fromEntries(entries)]: properties are defined one by one, a
    later entry replacing an earlier one with the same key. *)
Definition fromEntries (entries : list (string * string)) : gmap string string :=
  foldl (fun obj kv => <[kv.1 := kv.2]> obj) ∅ entries.

End Js.

(** ** PathMatcher: [matchRoute] of [router-utils.ts] *)

Module PathMatcher.

(** [clean.split('/').filter(Boolean)]. *)
Definition parts (clean : string) : list string :=
  List.filter Js.truthy (Js.split "/" clean).

(** The [for] loop of [matchRoute]: it walks [routeParts] and [pathParts]
    at the same index [i]; the loop is only entered with both arrays of the
    same length.  The accumulator is the [params] object. *)
Fixpoint matchLoop (routeParts pathParts : list string)
    (params : gmap string string) : option (gmap string string) :=
  match routeParts, pathParts with
  | routePart :: routeRest, pathPart :: pathRest =>
      if Js.startsWith ":" routePart
      then matchLoop routeRest pathRest (Js.objSet (Js.slice1 routePart) pathPart params)
      else if negb (String.eqb routePart pathPart) then None
      else matchLoop routeRest pathRest params
  | _, _ => Some params
  end.

Definition matchRoute (path routePath : string) : option (gmap string string) :=
  let pathWithoutQuery := Js.beforeFirst "?" path in
  let cleanPath := Js.stripTrailingSlashes pathWithoutQuery in
  let cleanRoutePath := Js.stripTrailingSlashes routePath in
  if String.eqb cleanPath "" && String.eqb cleanRoutePath "" then Some ∅
  else
    let pathParts := parts cleanPath in
    let routeParts := parts cleanRoutePath in
    if negb (Nat.eqb (length pathParts) (length routeParts)) then None
    else matchLoop routeParts pathParts ∅.

End PathMatcher.

(** ** Effects

    The router calls into code it does not own: middleware, plugin hooks,
    the verify step, validators, route handlers.  Such a callback may read
    and write the variables it closes over, may read the body of the
    request it is given, and either returns or throws.  A callback is
    therefore a function on a [Store]; the router's own [async] functions
    are computations [M] that thread the store through the callbacks in the
    order the source awaits them and collect, as ghost output, the [Event]s
    telling which callback was entered and how it came back. *)

Module Effects.

Inductive Json :=
| JNull
| JBool (b : bool)
| JNum (n : Z)
| JStr (s : string)
| JArr (items : list Json)
| JObj (fields : list (string * Json)).

(** ['params' | 'query' | 'headers' | 'body']. *)
Inductive Facet := Fparams | Fquery | Fheaders | Fbody.

(** [ValidationErrorItem] of [router-types.ts]. *)
Record ValidationErrorItem := {
  ve_type : Facet;
  ve_messages : list string;
}.

(** What a [throw] can carry, as far as the router looks at it:
    [instanceof ValidationFailedError], [instanceof Error] and
    [String(value)]. *)
Inductive Thrown :=
| ErrorObject (message : string)
| ValidationFailedError (errors : list ValidationErrorItem)
| NonError (asString : string).

(** [err instanceof Error]. *)
Definition instanceofError (err : Thrown) : bool :=
  match err with
  | ErrorObject _ | ValidationFailedError _ => true
  | NonError _ => false
  end.

(** [err.message] of an [Error]; the constructor of
    [ValidationFailedError] calls [super('Validation failed')]. *)
Definition errorMessage (err : Thrown) : string :=
  match err with
  | ErrorObject message => message
  | ValidationFailedError _ => "Validation failed"
  | NonError asString => asString
  end.

(** [err instanceof Error ? err.message : String(err)]. *)
Definition messageOrString (err : Thrown) : string :=
  match err with
  | NonError asString => asString
  | _ => errorMessage err
  end.

Inductive Outcome (A : Type) :=
| Returned (value : A)
| Threw (err : Thrown).
Arguments Returned {A} value.
Arguments Threw {A} err.

(** The body of a [Response]: either [JSON.stringify] of a value the
    router built, or text supplied by a callback. *)
Inductive ResponseBody :=
| BodyStringify (value : Json)
| BodyText (text : string).

(** A [Response]; header names are lower-cased, as [Headers] stores them. *)
Record Response := {
  status : Z;
  res_headers : gmap string string;
  res_body : ResponseBody;
}.

(** A [Request], with the two attachments of [RequestWithData].
    [req_bodyJson] is what [JSON.parse] yields on [req_bodyText], [None]
    when the text is not JSON. *)
Record Request := {
  req_method : string;
  req_pathname : string;
  req_searchParams : list (string * string);
  req_headers : list (string * string);
  req_bodyText : string;
  req_bodyJson : option Json;
  req_auth : option Json;
}.

(** The mutable state callbacks can reach: the variables they close over
    and the [bodyUsed] flag of the request object being dispatched. *)
Record Store := {
  heap : gmap string Json;
  bodyUsed : bool;
}.

Inductive HookName :=
| OnInit | OnBeforeRouteRegister | OnAfterRouteRegister | OnRequest | OnError
| OnResponse.

Inductive Tier := GlobalTier | PathTier | RouteTier.

Inductive Callee :=
| PluginHook (hook : HookName) (plugin : string)
| MiddlewareFn (tier : Tier) (label : string)
| VerifyFn (config : string)
| AuthOnError (config : string)
| ValidatorFn (facet : Facet)
| HandlerFn
| RouterOnError.

(** Ghost events: a callback was called and came back with that result (a
    response, nothing, or a thrown value); the route table was searched. *)
Inductive Event :=
| Called (callee : Callee) (result : Outcome (option Response))
| RouteLookup.

Definition M (A : Type) : Type := Store -> Outcome A * Store * list Event.

Definition ret {A} (a : A) : M A := fun s => (Returned a, s, []).

Definition throw {A} (err : Thrown) : M A := fun s => (Threw err, s, []).

Definition bind {A B} (m : M A) (k : A -> M B) : M B := fun s =>
  match m s with
  | (Returned a, s1, t1) =>
      match k a s1 with
      | (o, s2, t2) => (o, s2, t1 ++ t2)
      end
  | (Threw err, s1, t1) => (Threw err, s1, t1)
  end.

(** [try { m } catch (err) { h err }]. *)
Definition tryCatch {A} (m : M A) (h : Thrown -> M A) : M A := fun s =>
  match m s with
  | (Returned a, s1, t1) => (Returned a, s1, t1)
  | (Threw err, s1, t1) =>
      match h err s1 with
      | (o, s2, t2) => (o, s2, t1 ++ t2)
      end
  end.

Definition emit (e : Event) : M unit := fun s => (Returned tt, s, [e]).

(** How a callback's result shows in the trace. *)
Definition shown {A} (response : A -> option Response) (o : Outcome A)
    : Outcome (option Response) :=
  match o with
  | Returned a => Returned (response a)
  | Threw err => Threw err
  end.

(** Calling (and awaiting) a callback that can reach the whole store. *)
Definition call {A} (callee : Callee) (response : A -> option Response)
    (f : Store -> Outcome A * Store) : M A := fun s =>
  match f s with
  | (o, s1) => (o, s1, [Called callee (shown response o)])
  end.

(** Calling a callback that is handed plain data: it reaches the variables
    it closes over, not the request object. *)
Definition callOnHeap {A} (callee : Callee) (response : A -> option Response)
    (f : gmap string Json -> Outcome A * gmap string Json) : M A :=
  call callee response (fun s =>
    match f (heap s) with
    | (o, h1) => (o, {| heap := h1; bodyUsed := bodyUsed s |})
    end).

End Effects.

Export Effects.

Declare Scope router_scope.
Notation "x <- m ;; k" := (bind m (fun x => k))
  (at level 100, m at next level, right associativity) : router_scope.
Notation "m ;;; k" := (bind m (fun _ => k))
  (at level 100, right associativity) : router_scope.
Open Scope router_scope.

(** ** ValidationEngine: [callValidator] and [validateRequest] of
    [router-utils.ts] (the validator-agnostic version, whose schema holds
    [RouterValidator]s) *)

Module RouterUtils.

(** The values handed to validators and to the handler: a flat
    string-to-string record (path parameters, query, headers), the decoded
    body, or whatever a validator returned. *)
Inductive Data :=
| DUndefined
| DRecord (fields : gmap string string)
| DText (text : string)
| DJson (value : Json).

(** A validator is synchronous and receives its input only. *)
Definition ValidatorCode : Type :=
  Data -> gmap string Json -> Outcome Data * gmap string Json.

(** [RouterValidator<T>]: a function, an object with a [parse] method, or
    (at run time) some other truthy value. *)
Inductive RouterValidator :=
| VFunction (f : ValidatorCode)
| VParse (parse : ValidatorCode)
| VOther.

Record ValidationSchema := {
  v_params : option RouterValidator;
  v_query : option RouterValidator;
  v_headers : option RouterValidator;
  v_body : option RouterValidator;
}.

Record ValidatedData := {
  vd_params : Data;
  vd_query : Data;
  vd_headers : Data;
  vd_body : Data;
}.

Definition callValidator (facet : Facet) (validator : RouterValidator)
    (input : Data) : M Data :=
  match validator with
  | VFunction f => callOnHeap (ValidatorFn facet) (fun _ => None) (f input)
  | VParse parse => callOnHeap (ValidatorFn facet) (fun _ => None) (parse input)
  | VOther =>
      throw (ErrorObject
        "Invalid validator - must be function or object with parse method")
  end.

(** [req.headers.get(name)], [name] in lower case. *)
Definition headersGet (name : string) (headers : list (string * string))
    : option string :=
  snd <$> List.find (fun kv => String.eqb kv.1 name) headers.

(** [req.headers.forEach((value, key) => { hdrs[key] = value })]. *)
Definition headersRecord (headers : list (string * string)) : gmap string string :=
  foldl (fun hdrs kv => Js.objSet kv.1 kv.2 hdrs) ∅ headers.

(** The message of the [TypeError] the platform raises on a body that was
    already read; the text is the platform's. *)
Definition bodyUsedMessage : string := "Body already used".

(** [req.clone()]: refused once the body of [req] has been read; the copy
    has a body stream of its own. *)
Definition clone (req : Request) : M Request := fun s =>
  if bodyUsed s then (Threw (ErrorObject bodyUsedMessage), s, [])
  else (Returned req, s, []).

(** [req.json()] on the request object itself (not a copy), as a later
    stage would call it: refused once the body was read, and reading it
    marks the body as used. *)
Definition json (req : Request) : M Json := fun s =>
  if bodyUsed s then (Threw (ErrorObject bodyUsedMessage), s, [])
  else
    match req_bodyJson req with
    | Some value => (Returned value, {| heap := heap s; bodyUsed := true |}, [])
    | None =>
        (Threw (ErrorObject "Unexpected token in JSON"),
         {| heap := heap s; bodyUsed := true |}, [])
    end.

(** [copy.json()] and [copy.text()] on a fresh copy: they use up the body
    of the copy, which nothing else holds. *)
Definition jsonOfCopy (copy : Request) : M Json :=
  match req_bodyJson copy with
  | Some value => ret value
  | None => throw (ErrorObject "Unexpected token in JSON")
  end.

Definition textOfCopy (copy : Request) : M string := ret (req_bodyText copy).

(** The entry [validateRequest] pushes when a facet's validator threw. *)
Definition errorItem (facet : Facet) (err : Thrown) : ValidationErrorItem :=
  {| ve_type := facet; ve_messages := [messageOrString err] |}.

Definition invalidJsonItem : ValidationErrorItem :=
  {| ve_type := Fbody; ve_messages := ["Invalid JSON in request body"] |}.

(** [e.type === "body"]. *)
Definition isBody (e : ValidationErrorItem) : bool :=
  match ve_type e with
  | Fbody => true
  | _ => false
  end.

(** The two local variables of [validateRequest]. *)
Definition Locals : Type := ValidatedData * list ValidationErrorItem.

(** [parsedData.params = x] and the like. *)
Definition setParams (x : Data) (d : ValidatedData) : ValidatedData :=
  {| vd_params := x; vd_query := vd_query d; vd_headers := vd_headers d;
     vd_body := vd_body d |}.
Definition setQuery (x : Data) (d : ValidatedData) : ValidatedData :=
  {| vd_params := vd_params d; vd_query := x; vd_headers := vd_headers d;
     vd_body := vd_body d |}.
Definition setHeaders (x : Data) (d : ValidatedData) : ValidatedData :=
  {| vd_params := vd_params d; vd_query := vd_query d; vd_headers := x;
     vd_body := vd_body d |}.
Definition setBody (x : Data) (d : ValidatedData) : ValidatedData :=
  {| vd_params := vd_params d; vd_query := vd_query d; vd_headers := vd_headers d;
     vd_body := x |}.

(** [try { parsedData.f = callValidator(v, input) } catch (err) {
    errors.push({ type, messages: [...] }) }]. *)
Definition validateFacet (facet : Facet) (set : Data -> ValidatedData -> ValidatedData)
    (validator : RouterValidator) (input : Data) (l : Locals) : M Locals :=
  tryCatch
    (x <- callValidator facet validator input;; ret (set x l.1, l.2))
    (fun err => ret (l.1, l.2 ++ [errorItem facet err])).

(** [// Validate params]. *)
Definition validateParams (params : gmap string string)
    (validation : option ValidationSchema) (l : Locals) : M Locals :=
  match validation ≫= v_params with
  | Some validator => validateFacet Fparams setParams validator (DRecord params) l
  | None => ret l
  end.

(** [// Validate query]. *)
Definition validateQuery (req : Request)
    (validation : option ValidationSchema) (l : Locals) : M Locals :=
  let queryEntries := Js.fromEntries (req_searchParams req) in
  match validation ≫= v_query with
  | Some validator => validateFacet Fquery setQuery validator (DRecord queryEntries) l
  | None => ret (setQuery (DRecord queryEntries) l.1, l.2)
  end.

(** [// Validate headers]. *)
Definition validateHeaders (req : Request)
    (validation : option ValidationSchema) (l : Locals) : M Locals :=
  let hdrs := headersRecord (req_headers req) in
  match validation ≫= v_headers with
  | Some validator => validateFacet Fheaders setHeaders validator (DRecord hdrs) l
  | None => ret (setHeaders (DRecord hdrs) l.1, l.2)
  end.

(** [// Validate body], up to the call of the validator: the body as the
    content type says to decode it, or the value of [errors] when it cannot
    be decoded.  The outer [try] of the source catches two things here: the
    [ValidationFailedError] its own inner [catch] throws after pushing the
    invalid-JSON entry (the outer [catch] then finds a body entry in
    [errors] and pushes nothing), and whatever [req.clone().text()] throws
    (the outer [catch] then pushes an entry unless one is there).  Both are
    written where they arise, with the value of [errors] they leave. *)
Definition decodeBody (req : Request) (errors : list ValidationErrorItem)
    : M (Data + list ValidationErrorItem) :=
  let contentType := default "" (headersGet "content-type" (req_headers req)) in
  if Js.includes "application/json" contentType then
    tryCatch
      (copy <- clone req;; bodyData <- jsonOfCopy copy;; ret (inl (DJson bodyData)))
      (fun _ => ret (inr (errors ++ [invalidJsonItem])))
  else
    tryCatch
      (copy <- clone req;; bodyData <- textOfCopy copy;; ret (inl (DText bodyData)))
      (fun err =>
         ret (inr (if existsb isBody errors then errors
                   else errors ++ [errorItem Fbody err]))).

(** [// Validate body]. *)
Definition validateBody (req : Request)
    (validation : option ValidationSchema) (l : Locals) : M Locals :=
  match validation ≫= v_body with
  | Some validator =>
      decoded <- decodeBody req l.2;;
      match decoded with
      | inl bodyData => validateFacet Fbody setBody validator bodyData l
      | inr errors => ret (l.1, errors)
      end
  | None => ret l
  end.

(** [{ params, query: {}, headers: {}, body: undefined }]. *)
Definition initialData (params : gmap string string) : ValidatedData :=
  {| vd_params := DRecord params; vd_query := DRecord ∅;
     vd_headers := DRecord ∅; vd_body := DUndefined |}.

Definition validateRequest (req : Request) (params : gmap string string)
    (validation : option ValidationSchema) : M ValidatedData :=
  let parsedData := initialData params in
  l <- validateParams params validation (parsedData, []);;
  l <- validateQuery req validation l;;
  l <- validateHeaders req validation l;;
  l <- validateBody req validation l;;
  if Nat.ltb 0 (length l.2) then throw (ValidationFailedError l.2)
  else ret l.1.

End RouterUtils.

(** ** The earlier [validateRequest] of [router-utils.ts], whose schema
    holds zod types.  It differs from the one above in how it reads the
    body and in what it does with a thrown value that is not a
    [z.ZodError]; it is embedded to state these differences. *)

Module RouterUtilsZod.

Import RouterUtils.

Record ZodIssue := {
  zi_path : list string;
  zi_message : string;
}.

(** What [schema.parse] can throw: a [z.ZodError] with its issues, or
    anything else (a refinement or transform that throws on its own). *)
Inductive ZodThrown :=
| ZodError (message : string) (issues : list ZodIssue)
| NotZod (err : Thrown).

(** [z.ZodType]: its [parse]. *)
Definition ZodType : Type :=
  Data -> gmap string Json -> (Data + ZodThrown) * gmap string Json.

Record ValidationSchema := {
  v_params : option ZodType;
  v_query : option ZodType;
  v_headers : option ZodType;
  v_body : option ZodType;
}.

(** [ValidationError]: [{ type, errors: z.ZodError }]. *)
Record ValidationError := {
  ve_type : Facet;
  ve_errors : list ZodIssue;
}.

(** [parsedData], built up from [{}]. *)
Record ParsedData := {
  pd_params : option Data;
  pd_query : option Data;
  pd_headers : option Data;
  pd_body : option Data;
}.

Definition Locals : Type := ParsedData * list ValidationError.

Definition setParams (x : Data) (d : ParsedData) : ParsedData :=
  {| pd_params := Some x; pd_query := pd_query d; pd_headers := pd_headers d;
     pd_body := pd_body d |}.
Definition setQuery (x : Data) (d : ParsedData) : ParsedData :=
  {| pd_params := pd_params d; pd_query := Some x; pd_headers := pd_headers d;
     pd_body := pd_body d |}.
Definition setHeaders (x : Data) (d : ParsedData) : ParsedData :=
  {| pd_params := pd_params d; pd_query := pd_query d; pd_headers := Some x;
     pd_body := pd_body d |}.
Definition setBody (x : Data) (d : ParsedData) : ParsedData :=
  {| pd_params := pd_params d; pd_query := pd_query d; pd_headers := pd_headers d;
     pd_body := Some x |}.

(** How a call of [parse] shows in the trace. *)
Definition parseEvent (facet : Facet) (o : Data + ZodThrown) : Event :=
  Called (ValidatorFn facet)
    match o with
    | inl _ => Returned None
    | inr (ZodError message _) => Threw (ErrorObject message)
    | inr (NotZod err) => Threw err
    end.

(** A computation of this module cannot throw: the store and trace it
    leaves, and its value. *)
Definition Z (A : Type) : Type := Store -> A * Store * list Event.

(** [try { parsedData.f = schema.parse(input) } catch (error) {
    if (error instanceof z.ZodError) errors.push({ type, errors: error }) }]. *)
Definition parseFacet (facet : Facet) (set : Data -> ParsedData -> ParsedData)
    (schema : ZodType) (input : Data) (l : Locals) : Z Locals := fun s =>
  match schema input (heap s) with
  | (o, h1) =>
      (match o with
       | inl x => (set x l.1, l.2)
       | inr (ZodError _ issues) =>
           (l.1, l.2 ++ [{| ve_type := facet; ve_errors := issues |}])
       | inr (NotZod _) => l
       end,
       {| heap := h1; bodyUsed := bodyUsed s |},
       [parseEvent facet o])
  end.

Definition invalidJson : ValidationError :=
  {| ve_type := Fbody;
     ve_errors := [{| zi_path := []; zi_message := "Invalid JSON" |}] |}.

(** [try { const body = await req.json();
          parsedData.body = validation.body.parse(body) }
    catch (error) { ... }]. *)
Definition parseBody (req : Request) (schema : ZodType) (l : Locals) : Z Locals :=
  fun s =>
    match json req s with
    | (Returned body, s1, t1) =>
        match schema (DJson body) (heap s1) with
        | (o, h1) =>
            (match o with
             | inl x => (setBody x l.1, l.2)
             | inr (ZodError _ issues) =>
                 (l.1, l.2 ++ [{| ve_type := Fbody; ve_errors := issues |}])
             | inr (NotZod _) => (l.1, l.2 ++ [invalidJson])
             end,
             {| heap := h1; bodyUsed := bodyUsed s1 |},
             t1 ++ [parseEvent Fbody o])
        end
    | (Threw _, s1, t1) => ((l.1, l.2 ++ [invalidJson]), s1, t1)
    end.

(** The result is the failure thrown, or the data returned. *)
Definition validateRequest (req : Request) (params : gmap string string)
    (validation : option ValidationSchema)
    : Z (list ValidationError + ParsedData) := fun s =>
  let l0 : Locals :=
    ({| pd_params := None; pd_query := None; pd_headers := None; pd_body := None |},
     []) in
  let '(l1, s1, t1) :=
    match validation ≫= v_params with
    | Some schema => parseFacet Fparams setParams schema (DRecord params) l0 s
    | None => ((setParams (DRecord params) l0.1, l0.2), s, [])
    end in
  let queryParams := Js.fromEntries (req_searchParams req) in
  let '(l2, s2, t2) :=
    match validation ≫= v_query with
    | Some schema => parseFacet Fquery setQuery schema (DRecord queryParams) l1 s1
    | None => ((setQuery (DRecord queryParams) l1.1, l1.2), s1, [])
    end in
  let headers := Js.fromEntries (req_headers req) in
  let '(l3, s3, t3) :=
    match validation ≫= v_headers with
    | Some schema => parseFacet Fheaders setHeaders schema (DRecord headers) l2 s2
    | None => ((setHeaders (DRecord headers) l2.1, l2.2), s2, [])
    end in
  let '(l4, s4, t4) :=
    match validation ≫= v_body with
    | Some schema => parseBody req schema l3 s3
    | None => (l3, s3, [])
    end in
  (if Nat.ltb 0 (length l4.2) then inl l4.2 else inr l4.1,
   s4, t1 ++ t2 ++ t3 ++ t4).

End RouterUtilsZod.

(** ** The types of [router-types.ts] *)

Module RouterTypes.

Import RouterUtils.

(** A callback that is given the request object. *)
Definition Code (A : Type) : Type := Store -> Outcome A * Store.

(** [Middleware]; the label is ghost, it names the function in the trace. *)
Record Middleware := {
  mw_label : string;
  mw_run : Request -> Code (option Response);
}.

(** [RouteHandler].  [h_async] tells whether the function reports a failure
    by returning a rejected promise (an [async] function) or by throwing
    before it returns. *)
Record RouteHandler := {
  h_async : bool;
  h_run : Request -> ValidatedData -> Code Response;
}.

(** [AuthConfig] and [AuthMiddlewareConfig]; the label is ghost. *)
Record AuthConfig := {
  ac_label : string;
  ac_verify : Request -> Code Json;
  ac_onError : option (Thrown -> Code Response);
}.

(** The [auth] option of a route: absent, a boolean, or a config object. *)
Inductive AuthOption :=
| AuthAbsent
| AuthFlag (required : bool)
| AuthObject (cfg : AuthConfig).

Record RouteConfig := {
  rc_auth : AuthOption;
  rc_validation : option ValidationSchema;
  rc_middleware : option (list Middleware);
}.

(** What a before-route-register hook can come back with: nothing, a
    [Response], or an object with optional [opts] and [handler]. *)
Inductive BeforeResult :=
| BeforeNothing
| BeforeResponse (response : Response)
| BeforeRewrite (opts : option RouteConfig) (handler : option RouteHandler).

(** [RouterPlugin].  The hooks that receive the router are modelled for
    plugins that do not register routes or plugins from inside a hook;
    [onInit] comes back with the [use] calls it made. *)
Record RouterPlugin := {
  name : string;
  onInit : option (Code (list (Middleware * option string)));
  onBeforeRouteRegister :
    option (string -> string -> RouteConfig -> option RouteHandler -> Code BeforeResult);
  onAfterRouteRegister :
    option (string -> string -> RouteConfig -> Code (option Response));
  onRequest : option (Request -> Code (option Response));
  onError : option (Thrown -> Request -> Code (option Response));
  onResponse : option (Request -> Response -> Code (option Response));
}.

(** [AuthHandler]: its one field. *)
Record AuthHandler := {
  config : option AuthConfig;
}.

(** [Route].  The field [handler] of the source holds the closure
    [wrapped]; the only member of the router that closure reads when it
    runs is [this.authHandler], so the closure is a function of it. *)
Record Route := {
  route_path : string;
  route_method : string;
  route_handler : option AuthHandler -> Request -> gmap string string -> M Response;
  route_middleware : option (list Middleware);
}.

(** The fields of the [Router] class.  [pathMws] is a [Map]: it is walked
    in the order its keys were first set. *)
Record Router := {
  routes : list Route;
  globalMws : list Middleware;
  pathMws : list (string * list Middleware);
  authHandler : option AuthHandler;
  router_onError : option (Thrown -> Request -> Code Response);
  plugins : list RouterPlugin;
}.

Record RouterOptions := {
  opt_onError : option (Thrown -> Request -> Code Response);
  opt_auth : option AuthConfig;
}.

End RouterTypes.

(** ** AuthGate: the [AuthHandler] class of [auth/auth-handler.ts] *)

Module AuthHandlerClass.

Import RouterUtils RouterTypes.

Definition jsonHeaders : gmap string string :=
  {[ "content-type" := "application/json" ]}.

Definition misconfiguredRes : Response :=
  {| status := 500;
     res_headers := jsonHeaders;
     res_body := BodyStringify (JObj
       [("error", JStr "Authentication configuration error");
        ("message", JStr "Authentication is required but no auth config was provided")]) |}.

Definition verifyFailedRes (message : string) : Response :=
  {| status := 401;
     res_headers := jsonHeaders;
     res_body := BodyStringify (JObj
       [("error", JStr "Authentication failed"); ("message", JStr message)]) |}.

Definition facetName (facet : Facet) : string :=
  match facet with
  | Fparams => "params"
  | Fquery => "query"
  | Fheaders => "headers"
  | Fbody => "body"
  end.

(** [errors.map(e => ({ type: e.type, messages: e.messages }))]. *)
Definition details (errors : list ValidationErrorItem) : Json :=
  JArr (List.map (fun e =>
    JObj [("type", JStr (facetName (ve_type e)));
          ("messages", JArr (List.map JStr (ve_messages e)))]) errors).

Definition validationFailedRes (errors : list ValidationErrorItem) : Response :=
  {| status := 400;
     res_headers := jsonHeaders;
     res_body := BodyStringify (JObj
       [("error", JStr "Validation failed"); ("details", details errors)]) |}.

(** Truthiness of the [auth] option. *)
Definition authRequired (authConfig : AuthOption) : bool :=
  match authConfig with
  | AuthAbsent => false
  | AuthFlag required => required
  | AuthObject _ => true
  end.

(** [error instanceof Error ? error : new Error(String(error))]. *)
Definition asError (error : Thrown) : Thrown :=
  match error with
  | NonError asString => ErrorObject asString
  | _ => error
  end.

Definition handleAuth (this : AuthHandler) (req : Request) (authConfig : AuthOption)
    : M (option Response * option Json) :=
  if negb (authRequired authConfig) then ret (None, None)
  else
    match config this with
    | None => ret (Some misconfiguredRes, None)
    | Some thisConfig =>
        tryCatch
          (let verifyOwner :=
             match authConfig with
             | AuthObject cfg => cfg
             | _ => thisConfig
             end in
           authData <- call (VerifyFn (ac_label verifyOwner)) (fun _ => None)
                         (ac_verify verifyOwner req);;
           ret (None, Some authData))
          (fun error =>
             let errorHandler :=
               match authConfig with
               | AuthObject cfg =>
                   match ac_onError cfg with
                   | Some h => Some (ac_label cfg, h)
                   | None => pair (ac_label thisConfig) <$> ac_onError thisConfig
                   end
               | _ => pair (ac_label thisConfig) <$> ac_onError thisConfig
               end in
             let err := asError error in
             match errorHandler with
             | Some (owner, h) =>
                 response <- call (AuthOnError owner) Some (h err);;
                 ret (Some response, None)
             | None => ret (Some (verifyFailedRes (errorMessage err)), None)
             end)
    end.

(** [Object.assign(req.clone(), { auth: authData })].  The handler that
    receives the copy is still modelled as a callback on the whole store:
    this only widens what a handler may do. *)
Definition withAuth (copy : Request) (authData : option Json) : Request :=
  {| req_method := req_method copy;
     req_pathname := req_pathname copy;
     req_searchParams := req_searchParams copy;
     req_headers := req_headers copy;
     req_bodyText := req_bodyText copy;
     req_bodyJson := req_bodyJson copy;
     req_auth := authData |}.

Definition authenticateRequest (this : AuthHandler) (req : Request)
    (authConfig : AuthConfig) (params : gmap string string)
    (validation : option ValidationSchema) (handler : RouteHandler) : M Response :=
  let tempHandler :=
    {| config := Some {| ac_label := ac_label authConfig;
                         ac_verify := fun request => ac_verify authConfig request;
                         ac_onError := ac_onError authConfig |} |} in
  auth <- handleAuth tempHandler req (AuthFlag true);;
  match auth.1 with
  | Some authResponse => ret authResponse
  | None =>
      copy <- clone req;;
      let authedReq := withAuth copy auth.2 in
      tryCatch
        (parsedData <- validateRequest req params validation;;
         call HandlerFn Some (h_run handler authedReq parsedData))
        (fun error =>
           match error with
           | ValidationFailedError errors => ret (validationFailedRes errors)
           | _ => throw error
           end)
  end.

End AuthHandlerClass.

(** ** Dispatcher: the [Router] class of [router.ts] (the variant with the
    authentication gate) *)

Module RouterTs.

Import RouterUtils RouterTypes AuthHandlerClass.

(** [new Router(opts)]. *)
Definition newRouter (opts : option RouterOptions) : Router :=
  {| routes := [];
     globalMws := [];
     pathMws := [];
     authHandler :=
       match opts ≫= opt_auth with
       | Some cfg => Some {| config := Some cfg |}
       | None => None
       end;
     router_onError := opts ≫= opt_onError;
     plugins := [] |}.

(** [arr = this.pathMws.get(path) || []; arr.push(mw);
    this.pathMws.set(path, arr)]: a key keeps the place of its first
    [set]. *)
Fixpoint pathMwsPush (path : string) (mw : Middleware)
    (entries : list (string * list Middleware)) : list (string * list Middleware) :=
  match entries with
  | [] => [(path, [mw])]
  | (p, arr) :: rest =>
      if String.eqb p path then (p, arr ++ [mw]) :: rest
      else (p, arr) :: pathMwsPush path mw rest
  end.

Definition use (this : Router) (mw : Middleware) (path : option string) : Router :=
  match path with
  | Some p =>
      if Js.truthy p then
        {| routes := routes this; globalMws := globalMws this;
           pathMws := pathMwsPush p mw (pathMws this);
           authHandler := authHandler this; router_onError := router_onError this;
           plugins := plugins this |}
      else
        {| routes := routes this; globalMws := globalMws this ++ [mw];
           pathMws := pathMws this;
           authHandler := authHandler this; router_onError := router_onError this;
           plugins := plugins this |}
  | None =>
      {| routes := routes this; globalMws := globalMws this ++ [mw];
         pathMws := pathMws this;
         authHandler := authHandler this; router_onError := router_onError this;
         plugins := plugins this |}
  end.

(** [this.configure(cfg)] on the handler, or a new handler. *)
Definition configureAuth (this : Router) (cfg : AuthConfig) : Router :=
  {| routes := routes this; globalMws := globalMws this; pathMws := pathMws this;
     authHandler := Some {| config := Some cfg |};
     router_onError := router_onError this; plugins := plugins this |}.

Definition pushPlugin (this : Router) (plugin : RouterPlugin) : Router :=
  {| routes := routes this; globalMws := globalMws this; pathMws := pathMws this;
     authHandler := authHandler this; router_onError := router_onError this;
     plugins := plugins this ++ [plugin] |}.

Definition pushRoute (this : Router) (route : Route) : Router :=
  {| routes := routes this ++ [route]; globalMws := globalMws this;
     pathMws := pathMws this; authHandler := authHandler this;
     router_onError := router_onError this; plugins := plugins this |}.

(** A registration call mutates the router and then settles: the result is
    the router it leaves and how the call came back. *)
Definition attempt {A} (m : M A) : M (Outcome A) := fun s =>
  match m s with
  | (o, s1, t1) => (Returned o, s1, t1)
  end.

(** [registerPlugin]: the plugin is pushed before its [onInit] runs.  An
    [onInit] that throws is taken to have made no [use] call before it
    threw. *)
Definition registerPlugin (this : Router) (plugin : RouterPlugin)
    : M (Router * Outcome unit) :=
  let this1 := pushPlugin this plugin in
  match onInit plugin with
  | Some init =>
      o <- attempt (call (PluginHook OnInit (name plugin)) (fun _ => None) init);;
      match o with
      | Returned uses =>
          ret (foldl (fun r u => use r u.1 u.2) this1 uses, Returned tt)
      | Threw err => ret (this1, Threw err)
      end
  | None => ret (this1, Returned tt)
  end.

(** [runPluginHook(hookName, ...args)]: [select] is [plugin[hookName]]
    applied to the arguments. *)
Fixpoint runPluginHookLoop (hook : HookName)
    (select : RouterPlugin -> option (Code (option Response)))
    (remaining : list RouterPlugin) : M (option Response) :=
  match remaining with
  | [] => ret None
  | plugin :: rest =>
      match select plugin with
      | Some h =>
          result <- call (PluginHook hook (name plugin)) id h;;
          match result with
          | Some response => ret (Some response)
          | None => runPluginHookLoop hook select rest
          end
      | None => runPluginHookLoop hook select rest
      end
  end.

Definition runPluginHook (this : Router) (hook : HookName)
    (select : RouterPlugin -> option (Code (option Response))) : M (option Response) :=
  runPluginHookLoop hook select (plugins this).

(** [result instanceof Response] on what a before-route-register hook
    returned. *)
Definition beforeAsResponse (c : Code BeforeResult) : Code (option Response) :=
  fun s =>
    match c s with
    | (Returned (BeforeResponse response), s1) => (Returned (Some response), s1)
    | (Returned _, s1) => (Returned None, s1)
    | (Threw err, s1) => (Threw err, s1)
    end.

(** [handler(req, data)] evaluated inside a [try] and returned without
    [await]: a synchronous throw is caught by that [try]; a rejected
    promise leaves the [try] as the value returned, and rejects the caller
    later. *)
Definition callUnawaited (handler : RouteHandler) (req : Request)
    (data : ValidatedData) : M (Outcome Response) :=
  o <- attempt (call HandlerFn Some (h_run handler req data));;
  match o with
  | Returned response => ret (Returned response)
  | Threw err => if h_async handler then ret (Threw err) else throw err
  end.

Definition settle {A} (o : Outcome A) : M A :=
  match o with
  | Returned a => ret a
  | Threw err => throw err
  end.

(** [buildValidationErrorRes].  The source maps over the issues of a zod
    error; the entries are rendered here in the shape
    [ValidationErrorItem] has ([type], [messages]). *)
Definition buildValidationErrorRes (errors : list ValidationErrorItem) : Response :=
  validationFailedRes errors.

(** The [try]/[catch] around validation and the handler, which [runAuth]
    contains twice: [validated] is the request that is validated, [passed]
    the one the handler receives. *)
Definition validateThenHandle (validated passed : Request)
    (params : gmap string string) (opts : RouteConfig) (handler : RouteHandler)
    : M Response :=
  settled <-
    tryCatch
      (data <- validateRequest validated params (rc_validation opts);;
       callUnawaited handler passed data)
      (fun e =>
         match e with
         | ValidationFailedError errors => ret (Returned (buildValidationErrorRes errors))
         | _ => throw e
         end);;
  settle settled.

Definition runAuth (thisAuthHandler : option AuthHandler) (req : Request)
    (params : gmap string string) (opts : RouteConfig) (handler : RouteHandler)
    : M Response :=
  match thisAuthHandler with
  | None => validateThenHandle req req params opts handler
  | Some theHandler =>
      if negb (authRequired (rc_auth opts))
      then validateThenHandle req req params opts handler
      else
        match rc_auth opts with
        | AuthObject cfg =>
            (* [if (!authResponse) throw ...] cannot fire: a [Response] is
               truthy *)
            authenticateRequest theHandler req cfg params (rc_validation opts) handler
        | _ =>
            auth <- handleAuth theHandler req (rc_auth opts);;
            match auth.1 with
            | Some authRes => ret authRes
            | None =>
                copy <- clone req;;
                let authReq := withAuth copy auth.2 in
                validateThenHandle req authReq params opts handler
            end
        end
  end.

(** The closure [wrapped] that [addRoute] stores. *)
Definition wrapped (opts : RouteConfig) (handler : RouteHandler)
    : option AuthHandler -> Request -> gmap string string -> M Response :=
  fun thisAuthHandler req params => runAuth thisAuthHandler req params opts handler.

Definition addRoute (this : Router) (method path : string) (opts : RouteConfig)
    (handler : RouteHandler) : M (Router * Outcome unit) :=
  before <- attempt (runPluginHook this OnBeforeRouteRegister
              (fun plugin =>
                 (fun h => beforeAsResponse (h method path opts None))
                   <$> onBeforeRouteRegister plugin));;
  match before with
  | Threw err => ret (this, Threw err)
  | Returned _ =>
      let this1 :=
        pushRoute this
          {| route_path := path; route_method := method;
             route_handler := wrapped opts handler;
             route_middleware := rc_middleware opts |} in
      after <- attempt (runPluginHook this1 OnAfterRouteRegister
                 (fun plugin =>
                    (fun h => h method path opts) <$> onAfterRouteRegister plugin));;
      match after with
      | Threw err => ret (this1, Threw err)
      | Returned _ => ret (this1, Returned tt)
      end
  end.

(** [runPluginResponseHook]. *)
Fixpoint runPluginResponseHookLoop (req : Request) (res : Response)
    (remaining : list RouterPlugin) : M Response :=
  match remaining with
  | [] => ret res
  | plugin :: rest =>
      match onResponse plugin with
      | Some h =>
          result <- call (PluginHook OnResponse (name plugin)) id (h req res);;
          match result with
          | Some replacement => runPluginResponseHookLoop req replacement rest
          | None => runPluginResponseHookLoop req res rest
          end
      | None => runPluginResponseHookLoop req res rest
      end
  end.

Definition runPluginResponseHook (this : Router) (req : Request) (res : Response)
    : M Response :=
  runPluginResponseHookLoop req res (plugins this).

Fixpoint runMiddlewaresIn (tier : Tier) (req : Request) (mws : list Middleware)
    : M (option Response) :=
  match mws with
  | [] => ret None
  | mw :: rest =>
      res <- call (MiddlewareFn tier (mw_label mw)) id (mw_run mw req);;
      match res with
      | Some response => ret (Some response)
      | None => runMiddlewaresIn tier req rest
      end
  end.

Fixpoint runPathMiddlewaresLoop (req : Request) (path : string)
    (entries : list (string * list Middleware)) : M (option Response) :=
  match entries with
  | [] => ret None
  | (p, mws) :: rest =>
      if Js.startsWithStr p path then
        res <- runMiddlewaresIn PathTier req mws;;
        match res with
        | Some response => ret (Some response)
        | None => runPathMiddlewaresLoop req path rest
        end
      else runPathMiddlewaresLoop req path rest
  end.

Definition runPathMiddlewares (this : Router) (req : Request) (path : string)
    : M (option Response) :=
  runPathMiddlewaresLoop req path (pathMws this).

Fixpoint matchRouteHandlerLoop (method path : string) (remaining : list Route)
    : option (Route * gmap string string) :=
  match remaining with
  | [] => None
  | r :: rest =>
      if negb (String.eqb (route_method r) method)
      then matchRouteHandlerLoop method path rest
      else match PathMatcher.matchRoute path (route_path r) with
           | Some params => Some (r, params)
           | None => matchRouteHandlerLoop method path rest
           end
  end.

Definition matchRouteHandler (this : Router) (method path : string)
    : option (Route * gmap string string) :=
  matchRouteHandlerLoop method path (routes this).

Definition notFoundRes : Response :=
  {| status := 404;
     res_headers := jsonHeaders;
     res_body := BodyStringify (JObj [("error", JStr "Not Found")]) |}.

Definition defaultErrorRes (error : Thrown) : Response :=
  {| status := 500;
     res_headers := jsonHeaders;
     res_body := BodyStringify (JObj
       [("error", JStr "Internal Server Error");
        ("message", JStr (if instanceofError error then errorMessage error
                          else "An unexpected error occurred."))]) |}.

Definition handleError (this : Router) (error : Thrown) (req : Request) : M Response :=
  pluginResponse <- runPluginHook this OnError
    (fun plugin => (fun h => h error req) <$> onError plugin);;
  match pluginResponse with
  | Some response => ret response
  | None =>
      match router_onError this with
      | Some h => call RouterOnError Some (h error req)
      | None => ret (defaultErrorRes error)
      end
  end.

(** [if (!res.headers.get('content-type'))
      res.headers.set('content-type', 'application/json')], on a response
    whose headers can be changed; [GuardedHeaders] below has the same lines
    for headers that are immutable as well. *)
Definition setContentType (res : Response) : Response :=
  match res_headers res !! "content-type" with
  | Some (String _ _) => res
  | _ =>
      {| status := status res;
         res_headers := <["content-type" := "application/json"]> (res_headers res);
         res_body := res_body res |}
  end.

(** [return await m] in a function declared to return
    [Promise<Response | null>]. *)
Definition returnAwait (m : M Response) : M (option Response) :=
  res <- m;; ret (Some res).

(** [handle]: every [return] hands back a [Response]; the signature also
    allows [null]. *)
Definition handle (this : Router) (req : Request) : M (option Response) :=
  tryCatch
    (pluginResponse <- runPluginHook this OnRequest
       (fun plugin => (fun h => h req) <$> onRequest plugin);;
     match pluginResponse with
     | Some response => returnAwait (runPluginResponseHook this req response)
     | None =>
         let pathname := req_pathname req in
         let method := req_method req in
         globalResp <- runMiddlewaresIn GlobalTier req (globalMws this);;
         match globalResp with
         | Some response => returnAwait (runPluginResponseHook this req response)
         | None =>
             pathResp <- runPathMiddlewares this req pathname;;
             match pathResp with
             | Some response => returnAwait (runPluginResponseHook this req response)
             | None =>
                 emit RouteLookup;;;
                 match matchRouteHandler this method pathname with
                 | None => returnAwait (runPluginResponseHook this req notFoundRes)
                 | Some (route, params) =>
                     routeMwResp <- runMiddlewaresIn RouteTier req
                                      (default [] (route_middleware route));;
                     match routeMwResp with
                     | Some response => returnAwait (runPluginResponseHook this req response)
                     | None =>
                         res <- route_handler route (authHandler this) req params;;
                         returnAwait (runPluginResponseHook this req (setContentType res))
                     end
                 end
             end
         end
     end)
    (fun err =>
       errorRes <- handleError this err req;;
       returnAwait (runPluginResponseHook this req errorRes)).

End RouterTs.

(** ** Dispatcher: the variant of [router.ts] whose [addRoute] merges what
    the before-route-register hooks return.  Its other methods ([use],
    [registerPlugin], [runPluginHook], [handle], [matchRouteHandler],
    [runMiddlewares], [runPathMiddlewares], [handleError],
    [runPluginResponseHook], [notFoundRes], [setContentType]) have the text
    of the variant above; the class has no authentication gate. *)

Module RouterTsRewrite.

Import RouterUtils RouterTypes AuthHandlerClass.

(** [new Router(opts)]: only [opts.onError] is read. *)
Definition newRouter (opts : option RouterOptions) : Router :=
  {| routes := [];
     globalMws := [];
     pathMws := [];
     authHandler := None;
     router_onError := opts ≫= opt_onError;
     plugins := [] |}.

Definition buildValidationErrorRes (errors : list ValidationErrorItem) : Response :=
  validationFailedRes errors.

Definition runValidationAndHandle (req : Request) (params : gmap string string)
    (opts : RouteConfig) (handler : RouteHandler) : M Response :=
  settled <-
    tryCatch
      (data <- validateRequest req params (rc_validation opts);;
       RouterTs.callUnawaited handler req data)
      (fun e =>
         match e with
         | ValidationFailedError errors => ret (Returned (buildValidationErrorRes errors))
         | _ => throw e
         end);;
  RouterTs.settle settled.

(** How the result of a before-route-register hook shows in the trace. *)
Definition beforeResponse (result : BeforeResult) : option Response :=
  match result with
  | BeforeResponse response => Some response
  | _ => None
  end.

(** The [for] loop of [addRoute] over [this.plugins], with its two
    variables [finalOpts] and [finalHandler]. *)
Fixpoint beforeRouteRegisterLoop (method path : string)
    (finalOpts : RouteConfig) (finalHandler : RouteHandler)
    (remaining : list RouterPlugin) : M (RouteConfig * RouteHandler) :=
  match remaining with
  | [] => ret (finalOpts, finalHandler)
  | plugin :: rest =>
      match onBeforeRouteRegister plugin with
      | Some h =>
          result <- call (PluginHook OnBeforeRouteRegister (name plugin)) beforeResponse
                      (h method path finalOpts (Some finalHandler));;
          match result with
          | BeforeRewrite opts handler =>
              beforeRouteRegisterLoop method path
                (default finalOpts opts) (default finalHandler handler) rest
          | _ => beforeRouteRegisterLoop method path finalOpts finalHandler rest
          end
      | None => beforeRouteRegisterLoop method path finalOpts finalHandler rest
      end
  end.

(** The closure [wrapped] that [addRoute] stores. *)
Definition wrapped (finalOpts : RouteConfig) (finalHandler : RouteHandler)
    : option AuthHandler -> Request -> gmap string string -> M Response :=
  fun _ req params => runValidationAndHandle req params finalOpts finalHandler.

Definition addRoute (this : Router) (method path : string) (opts : RouteConfig)
    (handler : RouteHandler) : M (Router * Outcome unit) :=
  before <- RouterTs.attempt
              (beforeRouteRegisterLoop method path opts handler (plugins this));;
  match before with
  | Threw err => ret (this, Threw err)
  | Returned (finalOpts, finalHandler) =>
      let this1 :=
        RouterTs.pushRoute this
          {| route_path := path; route_method := method;
             route_handler := wrapped finalOpts finalHandler;
             route_middleware := rc_middleware finalOpts |} in
      after <- RouterTs.attempt (RouterTs.runPluginHook this1 OnAfterRouteRegister
                 (fun plugin =>
                    (fun h => h method path finalOpts) <$> onAfterRouteRegister plugin));;
      match after with
      | Threw err => ret (this1, Threw err)
      | Returned _ => ret (this1, Returned tt)
      end
  end.

End RouterTsRewrite.

(** ** The matching algorithm in the words of the specification

    Strip any query suffix from the request path; strip trailing slashes
    from both sides; split on the slash, discarding empty segments;
    no-match when the segment counts differ or a segment that is not a
    parameter differs from the request segment; otherwise the map that binds
    each parameter name to the request segment at its place. *)

Module PathMatcherSpec.

Definition segments (s : string) : list string :=
  List.filter Js.truthy (Js.split "/" (Js.stripTrailingSlashes s)).

Definition isParam (segment : string) : bool := Js.startsWith ":" segment.

Definition paramName (segment : string) : string := Js.slice1 segment.

(** The dynamic segments of a pattern, by name, in order. *)
Definition paramNames (pattern : string) : list string :=
  paramName <$> List.filter isParam (segments pattern).

(** A pattern segment accepts a request segment. *)
Definition accepts (pair : string * string) : bool :=
  isParam pair.1 || String.eqb pair.1 pair.2.

(** Binding under the marker's name. *)
Definition bindSegment (m : gmap string string) (pair : string * string)
    : gmap string string :=
  if isParam pair.1 then <[paramName pair.1 := pair.2]> m else m.

Definition referenceMatch (requestPath pattern : string) : option (gmap string string) :=
  let requestSegments := segments (Js.beforeFirst "?" requestPath) in
  let patternSegments := segments pattern in
  if decide (length requestSegments = length patternSegments) then
    if forallb accepts (zip patternSegments requestSegments)
    then Some (foldl bindSegment ∅ (zip patternSegments requestSegments))
    else None
  else None.

(** The request path has the structure of the pattern. *)
Definition structuralMatch (requestPath pattern : string) : Prop :=
  length (segments (Js.beforeFirst "?" requestPath)) = length (segments pattern)
  ∧ forallb accepts
      (zip (segments pattern) (segments (Js.beforeFirst "?" requestPath))) = true.

(** "For every pattern with k dynamic segments and a structurally matching
    path, match returns exactly k bindings", at one path and pattern. *)
Definition exactlyKBindings (requestPath pattern : string) : Prop :=
  structuralMatch requestPath pattern ->
  exists m, PathMatcher.matchRoute requestPath pattern = Some m
            ∧ size m = length (paramNames pattern).

End PathMatcherSpec.

(** ** Reading traces and schemas: the notions the statements use *)

Module ValidationSpec.

Import RouterUtils.

(** The validator a schema supplies for a facet. *)
Definition supplied (validation : option ValidationSchema) (facet : Facet)
    : option RouterValidator :=
  validation ≫= match facet with
                | Fparams => v_params
                | Fquery => v_query
                | Fheaders => v_headers
                | Fbody => v_body
                end.

(** The validator can be called at all. *)
Definition callable (validator : RouterValidator) : bool :=
  match validator with
  | VOther => false
  | _ => true
  end.

(** The body of the request can be decoded in store [s]: it was not read
    before and, under a JSON content type, its text is JSON. *)
Definition bodyDecodes (req : Request) (s : Store) : bool :=
  negb (bodyUsed s)
  && (if Js.includes "application/json"
           (default "" (headersGet "content-type" (req_headers req)))
      then bool_decide (is_Some (req_bodyJson req))
      else true).

(** The order in which [validateRequest] goes through the facets. *)
Definition facetRank (facet : Facet) : nat :=
  match facet with
  | Fparams => 0
  | Fquery => 1
  | Fheaders => 2
  | Fbody => 3
  end.

(** The event of a validator call is about this facet. *)
Definition validatorEvent (facet : Facet) (e : Event) : Prop :=
  exists result, e = Called (ValidatorFn facet) result.

(** The store and trace a computation leaves, and how it came back. *)
Definition outcomeOf {A} (r : Outcome A * Store * list Event) : Outcome A := r.1.1.
Definition storeOf {A} (r : Outcome A * Store * list Event) : Store := r.1.2.
Definition traceOf {A} (r : Outcome A * Store * list Event) : list Event := r.2.

(** What one facet block of [validateRequest] does: it returns, leaves
    the [bodyUsed] flag alone, and either pushes nothing (its validator
    returned, or there was nothing to do), or pushes the entry of the value
    its validator threw, or pushes an entry for its facet without having
    called the validator. *)
Definition facetStep (facet : Facet) (l : Locals) (s : Store)
    (r : Outcome Locals * Store * list Event) : Prop :=
  exists l',
    outcomeOf r = Returned l'
    ∧ bodyUsed (storeOf r) = bodyUsed s
    ∧ ((l'.2 = l.2
        ∧ (traceOf r = []
           ∨ traceOf r = [Called (ValidatorFn facet) (Returned None)]))
       ∨ (exists err,
            l'.2 = l.2 ++ [errorItem facet err]
            ∧ traceOf r = [Called (ValidatorFn facet) (Threw err)])
       ∨ (exists item,
            ve_type item = facet ∧ l'.2 = l.2 ++ [item] ∧ traceOf r = [])).

(** The tags of the entries pushed so far: in facet order, each facet at
    most once, all before rank [k]. *)
Definition tagsBelow (k : nat) (errors : list ValidationErrorItem) : Prop :=
  StronglySorted lt (facetRank ∘ ve_type <$> errors)
  ∧ Forall (fun item => facetRank (ve_type item) < k) errors.

End ValidationSpec.

(** ** Reading the trace of a dispatch *)

Module DispatchSpec.

Import RouterUtils RouterTypes AuthHandlerClass ValidationSpec.

(** A result with a trace put in front of its own. *)
Definition prepend {A} (t : list Event) (r : Outcome A * Store * list Event)
    : Outcome A * Store * list Event :=
  (outcomeOf r, storeOf r, t ++ traceOf r).

(** The event of a middleware that returned a terminal response. *)
Definition terminalMiddleware (e : Event) : bool :=
  match e with
  | Called (MiddlewareFn _ _) (Returned (Some _)) => true
  | _ => false
  end.

(** The events that may follow a terminal response: on-response and
    on-error hooks of plugins and the router's own error handler. *)
Definition aftermath (e : Event) : bool :=
  match e with
  | Called (PluginHook OnResponse _) _ => true
  | Called (PluginHook OnError _) _ => true
  | Called RouterOnError _ => true
  | _ => false
  end.

(** The events of a route's stored handler: the verify step, the error
    mapper, validators, the route handler. *)
Definition routeEvent (e : Event) : bool :=
  match e with
  | Called (VerifyFn _) _ => true
  | Called (AuthOnError _) _ => true
  | Called (ValidatorFn _) _ => true
  | Called HandlerFn _ => true
  | _ => false
  end.

(** The [catch] block of [handle]. *)
Definition catchBlock (this : Router) (req : Request) (err : Thrown)
    : M (option Response) :=
  errorRes <- RouterTs.handleError this err req;;
  RouterTs.returnAwait (RouterTs.runPluginResponseHook this req errorRes).

(** What [handle] does once a stage has produced the response [res]: it
    returns [res] as the on-response hooks leave it; a hook that throws
    there sends the request to the [catch] block. *)
Definition respond (this : Router) (req : Request) (res : Response)
    : M (option Response) :=
  tryCatch
    (RouterTs.returnAwait (RouterTs.runPluginResponseHook this req res))
    (catchBlock this req).

(** No middleware of this trace returned a terminal response. *)
Definition noTerminal (t : list Event) : Prop :=
  Forall (fun e => terminalMiddleware e = false) t.

(** The event is a call of this hook of some plugin. *)
Definition hookEvent (hook : HookName) (e : Event) : Prop :=
  exists plugin result, e = Called (PluginHook hook plugin) result.

(** The on-response hook point in the words of the specification: every
    plugin that has the hook is called, in registration order, with the
    response as the plugins before it left it; a plugin that returns a
    response replaces it for the plugins after it. *)
Inductive responseChain (req : Request)
    : list RouterPlugin -> Response -> Store -> Response -> Store -> list Event -> Prop :=
| chain_done res s :
    responseChain req [] res s res s []
| chain_skip plugin rest res s res' s' t :
    onResponse plugin = None ->
    responseChain req rest res s res' s' t ->
    responseChain req (plugin :: rest) res s res' s' t
| chain_call plugin rest h res s result s1 res' s' t :
    onResponse plugin = Some h ->
    h req res s = (Returned result, s1) ->
    responseChain req rest (default res result) s1 res' s' t ->
    responseChain req (plugin :: rest) res s res' s'
      (Called (PluginHook OnResponse (name plugin)) (Returned result) :: t).

(** The plugins that implement on-response, by name, in registration
    order. *)
Definition responders (ps : list RouterPlugin) : list string :=
  name <$> List.filter (fun p => bool_decide (is_Some (onResponse p))) ps.

(** The callees of a trace. *)
Definition callees (t : list Event) : list Callee :=
  omap (fun e => match e with
                 | Called callee _ => Some callee
                 | RouteLookup => None
                 end) t.

(** A route of the table was stored by [addRoute] (of either variant). *)
Definition registered (r : Route) : Prop :=
  exists opts handler,
    route_handler r = RouterTs.wrapped opts handler
    ∨ route_handler r = RouterTsRewrite.wrapped opts handler.

(** Where the response that reaches the on-response hooks comes from: an
    on-request hook, a middleware, the route lookup that found nothing, the
    stored handler of the matched route, or the translation of an error.
    [before] is the trace up to the on-response hooks. *)
Definition produced (this : Router) (req : Request) (origin : Response)
    (before : list Event) : Prop :=
  (exists pre plugin,
     before = pre ++ [Called (PluginHook OnRequest plugin) (Returned (Some origin))])
  ∨ (exists pre tier label,
       before = pre ++ [Called (MiddlewareFn tier label) (Returned (Some origin))])
  ∨ (origin = RouterTs.notFoundRes ∧ exists pre, before = pre ++ [RouteLookup])
  ∨ (exists pre route params s1 s2 th res,
       route_handler route (authHandler this) req params s1 = (Returned res, s2, th)
       ∧ origin = RouterTs.setContentType res
       ∧ before = pre ++ th)
  ∨ (exists pre err s1 s2 te,
       RouterTs.handleError this err req s1 = (Returned origin, s2, te)
       ∧ before = pre ++ te).

(** The events that can come before a global middleware: on-request
    hooks and global middleware. *)
Definition early (e : Event) : Prop :=
  hookEvent OnRequest e
  ∨ exists label result, e = Called (MiddlewareFn GlobalTier label) result.

(** The stage of [handle] that produced the response handed to the
    on-response hooks, with what the trace before them looks like. *)
Definition stage (this : Router) (req : Request) (origin : Response)
    (before : list Event) : Prop :=
  (exists pre plugin,
     before = pre ++ [Called (PluginHook OnRequest plugin) (Returned (Some origin))]
     ∧ noTerminal before)
  ∨ (exists pre tier label,
       before = pre ++ [Called (MiddlewareFn tier label) (Returned (Some origin))]
       ∧ noTerminal pre
       ∧ (tier = GlobalTier -> Forall early pre))
  ∨ (origin = RouterTs.notFoundRes
     ∧ exists pre, before = pre ++ [RouteLookup] ∧ noTerminal before)
  ∨ (exists pre route params s1 s2 th res,
       route ∈ routes this
       ∧ route_handler route (authHandler this) req params s1 = (Returned res, s2, th)
       ∧ origin = RouterTs.setContentType res
       ∧ before = pre ++ th
       ∧ noTerminal pre).

(** The trace of a dispatch up to the point where a stage threw. *)
Definition failedStage (this : Router) (req : Request) (before : list Event) : Prop :=
  noTerminal before
  ∨ (exists pre route params s1,
       route ∈ routes this
       ∧ before = pre ++ traceOf (route_handler route (authHandler this) req params s1)
       ∧ noTerminal pre).

(** A dispatch that returns, returns what the on-response hooks made of a
    response produced by one of the stages. *)
Definition endsWithHooks (this : Router) (req : Request)
    (r : Outcome (option Response) * Store * list Event) : Prop :=
  forall v, outcomeOf r = Returned v ->
  exists origin s0 before after res,
    v = Some res
    ∧ traceOf r = before ++ after
    ∧ produced this req origin before
    ∧ RouterTs.runPluginResponseHook this req origin s0 = (Returned res, storeOf r, after).

(** Every event a computation can leave satisfies [P]. *)
Definition emits {A} (P : Event -> Prop) (m : M A) : Prop :=
  forall s, Forall P (traceOf (m s)).

(** The before-route-register hook point in the words of the
    specification: every plugin that has the hook is called, in
    registration order, with the config and handler as the plugins before
    it left them; what it returns replaces the config, the handler, both or
    neither. *)
Definition rewrittenOpts (result : BeforeResult) (opts : RouteConfig) : RouteConfig :=
  match result with
  | BeforeRewrite (Some replacement) _ => replacement
  | _ => opts
  end.

Definition rewrittenHandler (result : BeforeResult) (handler : RouteHandler)
    : RouteHandler :=
  match result with
  | BeforeRewrite _ (Some replacement) => replacement
  | _ => handler
  end.

Inductive rewriteChain (method path : string)
    : list RouterPlugin -> RouteConfig -> RouteHandler -> Store ->
      RouteConfig -> RouteHandler -> Store -> list Event -> Prop :=
| rewrite_done opts handler s :
    rewriteChain method path [] opts handler s opts handler s []
| rewrite_skip plugin rest opts handler s opts' handler' s' t :
    onBeforeRouteRegister plugin = None ->
    rewriteChain method path rest opts handler s opts' handler' s' t ->
    rewriteChain method path (plugin :: rest) opts handler s opts' handler' s' t
| rewrite_call plugin rest h opts handler s result s1 opts' handler' s' t :
    onBeforeRouteRegister plugin = Some h ->
    h method path opts (Some handler) s = (Returned result, s1) ->
    rewriteChain method path rest
      (rewrittenOpts result opts) (rewrittenHandler result handler) s1 opts' handler' s' t ->
    rewriteChain method path (plugin :: rest) opts handler s opts' handler' s'
      (Called (PluginHook OnBeforeRouteRegister (name plugin))
         (Returned (RouterTsRewrite.beforeResponse result)) :: t).

(** The routers the public methods can build. *)
Inductive reachable : Router -> Prop :=
| reach_new opts :
    reachable (RouterTs.newRouter opts)
| reach_new_rewrite opts :
    reachable (RouterTsRewrite.newRouter opts)
| reach_use this mw path :
    reachable this -> reachable (RouterTs.use this mw path)
| reach_configureAuth this cfg :
    reachable this -> reachable (RouterTs.configureAuth this cfg)
| reach_registerPlugin this plugin s router o s' t :
    reachable this ->
    RouterTs.registerPlugin this plugin s = (Returned (router, o), s', t) ->
    reachable router
| reach_addRoute this method path opts handler s router o s' t :
    reachable this ->
    RouterTs.addRoute this method path opts handler s = (Returned (router, o), s', t) ->
    reachable router
| reach_addRoute_rewrite this method path opts handler s router o s' t :
    reachable this ->
    RouterTsRewrite.addRoute this method path opts handler s
    = (Returned (router, o), s', t) ->
    reachable router.

(** The hook of [plugin] wraps the handler it is given with [wrapper] and
    leaves the config alone. *)
Definition wrapsWith (plugin : RouterPlugin) (wrapper : RouteHandler -> RouteHandler)
    : Prop :=
  exists h,
    onBeforeRouteRegister plugin = Some h
    ∧ forall method path opts handler s,
        h method path opts (Some handler) s
        = (Returned (BeforeRewrite None (Some (wrapper handler))), s).

(** Wrappers nested so that the first of the list is the outermost. *)
Definition nestOuterFirst (wrappers : list (RouteHandler -> RouteHandler))
    (handler : RouteHandler) : RouteHandler :=
  foldr (fun wrapper inner => wrapper inner) handler wrappers.

(** Two handlers cannot be told apart by running them. *)
Definition sameHandler (h1 h2 : RouteHandler) : Prop :=
  h_async h1 = h_async h2
  ∧ forall req data s, h_run h1 req data s = h_run h2 req data s.

End DispatchSpec.

(** ** Concrete requests, validators, plugins and routers *)

Module Scenarios.

Import RouterUtils RouterTypes AuthHandlerClass ValidationSpec.

Definition emptyStore : Store := {| heap := ∅; bodyUsed := false |}.

(** A validator for records that demands a field of at least [n]
    characters, in the style of a schema's [parse]. *)
Definition minLength (field : string) (n : nat) (message : string) : ValidatorCode :=
  fun input h =>
    match input with
    | DRecord fields =>
        match fields !! field with
        | Some v => if Nat.leb n (String.length v) then (Returned input, h)
                    else (Threw (ErrorObject message), h)
        | None => (Threw (ErrorObject message), h)
        end
    | _ => (Threw (ErrorObject message), h)
    end.

(** A validator for a JSON body that demands a field. *)
Definition requiresField (field : string) : ValidatorCode :=
  fun input h =>
    match input with
    | DJson (JObj fields) =>
        if existsb (fun kv => String.eqb kv.1 field) fields then (Returned input, h)
        else (Threw (ErrorObject "Required"), h)
    | _ => (Threw (ErrorObject "Expected object"), h)
    end.

Definition strictSchema : ValidationSchema :=
  {| v_params := Some (VParse (minLength "id" 3 "id must have 3 characters"));
     v_query := Some (VFunction (minLength "page" 1 "page is required"));
     v_headers := None;
     v_body := Some (VParse (requiresField "name")) |}.

(** [POST /users/12?page=] with the JSON body [{}]. *)
Definition badRequest : Request :=
  {| req_method := "POST";
     req_pathname := "/users/12";
     req_searchParams := [("page", "")];
     req_headers := [("content-type", "application/json")];
     req_bodyText := "{}";
     req_bodyJson := Some (JObj []);
     req_auth := None |}.

(** A schema whose params validator throws a value that is not an
    [Error]. *)
Definition throwingSchema : ValidationSchema :=
  {| v_params := Some (VFunction (fun _ h => (Threw (NonError "nope"), h)));
     v_query := None; v_headers := None; v_body := None |}.

(** [new Response(text, { status: code })]: a body given as a string
    comes with the content type of plain text. *)
Definition textResponse (code : Z) (text : string) : Response :=
  {| status := code;
     res_headers := {[ "content-type" := "text/plain;charset=UTF-8" ]};
     res_body := BodyText text |}.

Definition getRequest (path : string) : Request :=
  {| req_method := "GET"; req_pathname := path; req_searchParams := [];
     req_headers := []; req_bodyText := ""; req_bodyJson := None;
     req_auth := None |}.

Definition noOpts : RouteConfig :=
  {| rc_auth := AuthAbsent; rc_validation := None; rc_middleware := None |}.

(** [() => new Response(text)]. *)
Definition okHandler (text : string) : RouteHandler :=
  {| h_async := false;
     h_run := fun _ _ s => (Returned (textResponse 200 text), s) |}.

Definition passMiddleware (label : string) : Middleware :=
  {| mw_label := label; mw_run := fun _ s => (Returned None, s) |}.

Definition blockMiddleware (label : string) (code : Z) (text : string) : Middleware :=
  {| mw_label := label;
     mw_run := fun _ s => (Returned (Some (textResponse code text)), s) |}.

Definition withHeader (key value : string) (res : Response) : Response :=
  {| status := status res;
     res_headers := <[key := value]> (res_headers res);
     res_body := res_body res |}.

(** A plugin whose on-response hook returns the response with one more
    header. *)
Definition stampPlugin (who : string) : RouterPlugin :=
  {| name := who; onInit := None; onBeforeRouteRegister := None;
     onAfterRouteRegister := None; onRequest := None; onError := None;
     onResponse := Some (fun _ res s => (Returned (Some (withHeader who "1" res)), s)) |}.

(** The router a registration call leaves, started from the empty store. *)
Definition built (m : M (Router * Outcome unit)) (otherwise : Router) : Router :=
  match m emptyStore with
  | (Returned (router, _), _, _) => router
  | (Threw _, _, _) => otherwise
  end.

(** Two stamping plugins, three global middlewares of which the second
    blocks, and the route [GET /test]. *)
Definition blockedRouter : Router :=
  let r0 := RouterTs.newRouter None in
  let r1 := built (RouterTs.registerPlugin r0 (stampPlugin "x-first")) r0 in
  let r2 := built (RouterTs.registerPlugin r1 (stampPlugin "x-second")) r1 in
  let r3 := RouterTs.use r2 (passMiddleware "logger") None in
  let r4 := RouterTs.use r3 (blockMiddleware "blocker" 401 "Unauthorized") None in
  let r5 := RouterTs.use r4 (blockMiddleware "never" 200 "late") None in
  built (RouterTs.addRoute r5 "GET" "/test" noOpts (okHandler "test")) r5.

(** A router without any authentication config, and a route that asks for
    authentication with [auth: true]. *)
Definition authTrue : RouteConfig :=
  {| rc_auth := AuthFlag true; rc_validation := None; rc_middleware := None |}.

Definition openRouter : Router :=
  let r0 := RouterTs.newRouter None in
  built (RouterTs.addRoute r0 "GET" "/protected" authTrue (okHandler "protected data")) r0.

(** A global config whose error mapper answers 403, and a route whose own
    config has a verify step that throws and no error mapper. *)
Definition globalAuth : AuthConfig :=
  {| ac_label := "global";
     ac_verify := fun _ s => (Returned (JObj [("userId", JStr "global")]), s);
     ac_onError := Some (fun _ s => (Returned (textResponse 403 "global mapper"), s)) |}.

Definition routeAuth : AuthConfig :=
  {| ac_label := "route";
     ac_verify := fun _ s => (Threw (ErrorObject "bad token"), s);
     ac_onError := None |}.

Definition routeAuthOpts : RouteConfig :=
  {| rc_auth := AuthObject routeAuth; rc_validation := None; rc_middleware := None |}.

Definition twoScopeRouter : Router :=
  let r0 := RouterTs.configureAuth (RouterTs.newRouter None) globalAuth in
  built (RouterTs.addRoute r0 "GET" "/protected" routeAuthOpts
           (okHandler "protected data")) r0.

(** The same route on a router that has no global config. *)
Definition routeOnlyRouter : Router :=
  let r0 := RouterTs.newRouter None in
  built (RouterTs.addRoute r0 "GET" "/protected" routeAuthOpts
           (okHandler "protected data")) r0.

(** A handler wrapper that notes, in the variable [entered], that it was
    entered, and then calls the handler it wraps. *)
Definition note (who : string) (h : gmap string Json) : gmap string Json :=
  <["entered" := JArr (match h !! "entered" with
                       | Some (JArr names) => names ++ [JStr who]
                       | _ => [JStr who]
                       end)]> h.

Definition wrapWith (who : string) (inner : RouteHandler) : RouteHandler :=
  {| h_async := true;
     h_run := fun req data s =>
       h_run inner req data {| heap := note who (heap s); bodyUsed := bodyUsed s |} |}.

Definition notingHandler : RouteHandler :=
  {| h_async := true;
     h_run := fun _ _ s =>
       (Returned (textResponse 200 "done"),
        {| heap := note "handler" (heap s); bodyUsed := bodyUsed s |}) |}.

Definition wrappingPlugin (who : string) : RouterPlugin :=
  {| name := who; onInit := None;
     onBeforeRouteRegister :=
       Some (fun _ _ _ handler s =>
               (Returned (BeforeRewrite None (wrapWith who <$> handler)), s));
     onAfterRouteRegister := None; onRequest := None; onError := None;
     onResponse := None |}.

Definition wrappedRouter : Router :=
  let r0 := RouterTsRewrite.newRouter None in
  let r1 := built (RouterTs.registerPlugin r0 (wrappingPlugin "first")) r0 in
  let r2 := built (RouterTs.registerPlugin r1 (wrappingPlugin "second")) r1 in
  built (RouterTsRewrite.addRoute r2 "GET" "/wrapped" noOpts notingHandler) r2.

(** The handler that [addRoute] ends up with for that route. *)
Definition wrappedFinalHandler : RouteHandler :=
  match RouterTsRewrite.beforeRouteRegisterLoop "GET" "/wrapped" noOpts notingHandler
          [wrappingPlugin "first"; wrappingPlugin "second"] emptyStore with
  | (Returned (_, finalHandler), _, _) => finalHandler
  | (Threw _, _, _) => notingHandler
  end.

(** "Both wrappers applied outer-to-inner in registration order", for
    these two plugins: the wrapper of the plugin registered first is the
    outermost. *)
Definition outerToInnerInRegistrationOrder : Prop :=
  DispatchSpec.sameHandler wrappedFinalHandler
    (DispatchSpec.nestOuterFirst [wrapWith "first"; wrapWith "second"] notingHandler).

(** The routers of the repository's own tests ([router.test.ts]).  Where
    a test pushes names onto an array to record the order of execution, the
    callbacks here note them in the variable [entered]. *)
Definition noting (who : string) (s : Store) : Store :=
  {| heap := note who (heap s); bodyUsed := bodyUsed s |}.

Definition notingMiddleware (who : string) (result : option Response) : Middleware :=
  {| mw_label := who; mw_run := fun _ s => (Returned result, noting who s) |}.

Definition notingOk (text : string) : RouteHandler :=
  {| h_async := false;
     h_run := fun _ _ s => (Returned (textResponse 200 text), noting "handler" s) |}.

Definition throwingHandler (err : Thrown) : RouteHandler :=
  {| h_async := false; h_run := fun _ _ s => (Threw err, s) |}.

(** "global middleware stops execution when returning response". *)
Definition stoppedRouter : Router :=
  let r0 := RouterTs.newRouter None in
  let r1 := RouterTs.use r0
              (notingMiddleware "global1" (Some (textResponse 403 "stopped"))) None in
  let r2 := RouterTs.use r1 (notingMiddleware "global2" None) None in
  built (RouterTs.addRoute r2 "GET" "/test" noOpts (notingOk "ok")) r2.

(** "global and route-level middleware execute in correct order". *)
Definition orderedRouter : Router :=
  let r0 := RouterTs.newRouter None in
  let r1 := RouterTs.use r0 (notingMiddleware "global" None) None in
  built (RouterTs.addRoute r1 "GET" "/test"
           {| rc_auth := AuthAbsent; rc_validation := None;
              rc_middleware := Some [notingMiddleware "route" None] |}
           (notingOk "ok")) r1.

(** "executes middleware for matching paths" and "skips middleware for
    non-matching paths". *)
Definition apiRouter : Router :=
  let r0 := RouterTs.newRouter None in
  let r1 := RouterTs.use r0 (notingMiddleware "api middleware" None) (Some "/api") in
  let r2 := built (RouterTs.addRoute r1 "GET" "/api/test" noOpts (notingOk "ok")) r1 in
  built (RouterTs.addRoute r2 "GET" "/other/test" noOpts (notingOk "ok")) r2.

(** "handles different error types appropriately". *)
Definition errorRouter : Router :=
  let r0 := RouterTs.newRouter None in
  let r1 := built (RouterTs.addRoute r0 "GET" "/error-string" noOpts
                     (throwingHandler (NonError "String error"))) r0 in
  built (RouterTs.addRoute r1 "GET" "/error-object" noOpts
           (throwingHandler (ErrorObject "Object error"))) r1.

(** "handles successful authentication" and "handles failed
    authentication". *)
Definition mockUser : Json := JObj [("userId", JStr "123")].

Definition echoAuth : RouteHandler :=
  {| h_async := false;
     h_run := fun req _ s =>
       (Returned {| status := 200; res_headers := ∅;
                    res_body := BodyStringify (default JNull (req_auth req)) |}, s) |}.

Definition authenticatedRouter : Router :=
  let r0 := RouterTs.configureAuth (RouterTs.newRouter None)
              {| ac_label := "global";
                 ac_verify := fun _ s => (Returned mockUser, s);
                 ac_onError := None |} in
  built (RouterTs.addRoute r0 "GET" "/protected" authTrue echoAuth) r0.

Definition rejectingRouter : Router :=
  let r0 := RouterTs.configureAuth (RouterTs.newRouter None)
              {| ac_label := "global";
                 ac_verify := fun _ s => (Threw (ErrorObject "Invalid access token"), s);
                 ac_onError :=
                   Some (fun _ s =>
                           (Returned (textResponse 401 "Custom error response"), s)) |} in
  let r1 := built (RouterTs.addRoute r0 "GET" "/protected" authTrue
                     (okHandler "protected data")) r0 in
  built (RouterTs.addRoute r1 "GET" "/public" noOpts (okHandler "public data")) r1.

(** "plugin can intercept requests" and "plugin can handle errors". *)
Definition interceptPlugin : RouterPlugin :=
  {| name := "intercept-plugin"; onInit := None; onBeforeRouteRegister := None;
     onAfterRouteRegister := None;
     onRequest := Some (fun _ s => (Returned (Some (textResponse 403 "intercepted")), s));
     onError := None; onResponse := None |}.

Definition errorPlugin : RouterPlugin :=
  {| name := "error-plugin"; onInit := None; onBeforeRouteRegister := None;
     onAfterRouteRegister := None; onRequest := None;
     onError := Some (fun _ _ s => (Returned (Some (textResponse 500 "custom error")), s));
     onResponse := None |}.

Definition interceptedRouter : Router :=
  let r0 := RouterTs.newRouter None in
  let r1 := built (RouterTs.registerPlugin r0 interceptPlugin) r0 in
  built (RouterTs.addRoute r1 "GET" "/test" noOpts (okHandler "test")) r1.

Definition errorPluginRouter : Router :=
  let r0 := RouterTs.newRouter None in
  let r1 := built (RouterTs.registerPlugin r0 errorPlugin) r0 in
  built (RouterTs.addRoute r1 "GET" "/test" noOpts
           (throwingHandler (ErrorObject "test error"))) r1.

(** The variable [entered] after a dispatch from the empty store. *)
Definition enteredAfter (router : Router) (req : Request) : option Json :=
  heap (RouterTs.handle router req emptyStore).1.2 !! "entered".

(** The response of a dispatch from the empty store. *)
Definition responseOf (router : Router) (req : Request) : option Response :=
  match (RouterTs.handle router req emptyStore).1.1 with
  | Returned (Some res) => Some res
  | _ => None
  end.

(** A zod schema for the body that accepts every value, and one for the
    path parameters whose refinement throws a plain [Error]. *)
Definition anyBody : RouterUtilsZod.ValidationSchema :=
  {| RouterUtilsZod.v_params := None; RouterUtilsZod.v_query := None;
     RouterUtilsZod.v_headers := None;
     RouterUtilsZod.v_body := Some (fun input h => (inl input, h)) |}.

Definition throwingRefinement : RouterUtilsZod.ValidationSchema :=
  {| RouterUtilsZod.v_params :=
       Some (fun _ h => (inr (RouterUtilsZod.NotZod (ErrorObject "lookup failed")), h));
     RouterUtilsZod.v_query := None; RouterUtilsZod.v_headers := None;
     RouterUtilsZod.v_body := None |}.

(** A router with one stamping plugin, a global middleware that lets
    every request through, and the route [GET /users/:id]. *)
Definition plainRouter : Router :=
  let r0 := RouterTs.newRouter None in
  let r1 := built (RouterTs.registerPlugin r0 (stampPlugin "x-first")) r0 in
  let r2 := RouterTs.use r1 (passMiddleware "logger") None in
  built (RouterTs.addRoute r2 "GET" "/users/:id" noOpts (okHandler "user")) r2.

End Scenarios.

(** ** The notions the further statements are written with *)

Module PathMatcherNotions.

(** The characters of a string. *)
Definition chars (s : string) : list ascii := list_ascii_of_string s.

Definition slash : ascii := "/"%char.

Definition questionMark : ascii := "?"%char.

(** A run of [n] slashes. *)
Fixpoint slashes (n : nat) : string :=
  match n with
  | O => ""
  | S n => String "/" (slashes n)
  end.

End PathMatcherNotions.


Module ValidationNotions.

Import RouterUtils ValidationSpec.

(** The code behind a validator, when it has any. *)
Definition codeOf (validator : RouterValidator) : option ValidatorCode :=
  match validator with
  | VFunction f => Some f
  | VParse parse => Some parse
  | VOther => None
  end.

(** [contentType.includes("application/json")] on the request. *)
Definition declaresJson (req : Request) : bool :=
  Js.includes "application/json"
    (default "" (headersGet "content-type" (req_headers req))).

(** What [validateRequest] hands to the validator of a facet: the path
    parameters, the query and header records, the body decoded as the
    content type says.  (A body that is announced as JSON and is not JSON
    reaches no validator; the value given for it here is never used.) *)
Definition facetInput (req : Request) (params : gmap string string) (facet : Facet)
    : Data :=
  match facet with
  | Fparams => DRecord params
  | Fquery => DRecord (Js.fromEntries (req_searchParams req))
  | Fheaders => DRecord (headersRecord (req_headers req))
  | Fbody =>
      if declaresJson req then
        match req_bodyJson req with
        | Some value => DJson value
        | None => DUndefined
        end
      else DText (req_bodyText req)
  end.

(** What a facet of the result holds when the schema has no validator
    for it. *)
Definition facetDefault (req : Request) (params : gmap string string) (facet : Facet)
    : Data :=
  match facet with
  | Fbody => DUndefined
  | _ => facetInput req params facet
  end.

Definition field (facet : Facet) (data : ValidatedData) : Data :=
  match facet with
  | Fparams => vd_params data
  | Fquery => vd_query data
  | Fheaders => vd_headers data
  | Fbody => vd_body data
  end.

(** The value [x] is what a facet of the result may hold: the raw value
    when the schema has no validator for the facet, and otherwise what the
    validator's code returned on the facet's input. *)
Definition validated (req : Request) (params : gmap string string)
    (validation : option ValidationSchema) (facet : Facet) (x : Data) : Prop :=
  match supplied validation facet with
  | None => x = facetDefault req params facet
  | Some validator =>
      exists code h h',
        codeOf validator = Some code
        ∧ code (facetInput req params facet) h = (Returned x, h')
  end.

Definition invalidValidatorMessage : string :=
  "Invalid validator - must be function or object with parse method".

End ValidationNotions.

(** ** The aggregated failure, facet by facet *)

Module AggregationSpec.

Import RouterUtils ValidationSpec ValidationNotions.

(** The message recorded for a thrown value: the message of an [Error],
    and the string form of any other value. *)
Definition recordedMessage (err : Thrown) : string :=
  match err with
  | ErrorObject message => message
  | ValidationFailedError _ => "Validation failed"
  | NonError asString => asString
  end.

(** The state a validator leaves when it is called on [input] in state
    [h], whether it returns or throws; a validator that cannot be called
    leaves the state as it is. *)
Definition heapAfter (validator : option RouterValidator) (input : Data)
    (h : gmap string Json) : gmap string Json :=
  match validator ≫= codeOf with
  | Some code => (code input h).2
  | None => h
  end.

(** The state in which the validator of a facet is called: the validators
    are called in the order params, query, headers, body, each in the state
    the earlier ones left. *)
Definition heapAt (req : Request) (params : gmap string string)
    (validation : option ValidationSchema) (s : Store) (facet : Facet)
    : gmap string Json :=
  let h1 := heapAfter (supplied validation Fparams) (facetInput req params Fparams)
              (heap s) in
  let h2 := heapAfter (supplied validation Fquery) (facetInput req params Fquery) h1 in
  let h3 := heapAfter (supplied validation Fheaders) (facetInput req params Fheaders)
              h2 in
  match facet with
  | Fparams => heap s
  | Fquery => h1
  | Fheaders => h2
  | Fbody => h3
  end.

(** There is something to hand to the validator of the facet: always for
    params, query and headers, and for the body when it can be decoded. *)
Definition reaches (req : Request) (s : Store) (facet : Facet) : bool :=
  match facet with
  | Fbody => bodyDecodes req s
  | _ => true
  end.

(** The message for a body that cannot be decoded. *)
Definition undecodableMessage (req : Request) : string :=
  if declaresJson req then "Invalid JSON in request body" else bodyUsedMessage.

(** The entry a validator leaves when it is called on [input] in state
    [h]: none when it returns; the message of what it threw when it throws;
    the message that says so when it cannot be called. *)
Definition entryOf (facet : Facet) (validator : RouterValidator) (input : Data)
    (h : gmap string Json) : option ValidationErrorItem :=
  match codeOf validator with
  | Some code =>
      match (code input h).1 with
      | Returned _ => None
      | Threw err => Some {| ve_type := facet; ve_messages := [recordedMessage err] |}
      end
  | None => Some {| ve_type := facet; ve_messages := [invalidValidatorMessage] |}
  end.

(** The call of a validator on [input] in state [h], when it can be
    called. *)
Definition callOf (facet : Facet) (validator : RouterValidator) (input : Data)
    (h : gmap string Json) : option Event :=
  match codeOf validator with
  | Some code =>
      Some (Called (ValidatorFn facet) (shown (fun _ => None) (code input h).1))
  | None => None
  end.

(** The entry of a facet in the failure, when the facet fails: a facet
    without a validator never fails; a body that cannot be decoded fails
    without its validator being called; any other facet fails when its
    validator, called on the facet's input, leaves an entry. *)
Definition facetEntry (req : Request) (params : gmap string string)
    (validation : option ValidationSchema) (s : Store) (facet : Facet)
    : option ValidationErrorItem :=
  match supplied validation facet with
  | None => None
  | Some validator =>
      if reaches req s facet then
        entryOf facet validator (facetInput req params facet)
          (heapAt req params validation s facet)
      else Some {| ve_type := facet; ve_messages := [undecodableMessage req] |}
  end.

(** The entries of the failing facets, in facet order. *)
Definition failingEntries (req : Request) (params : gmap string string)
    (validation : option ValidationSchema) (s : Store) : list ValidationErrorItem :=
  omap (facetEntry req params validation s) [Fparams; Fquery; Fheaders; Fbody].

(** The call of the validator of a facet, when it is called. *)
Definition facetCall (req : Request) (params : gmap string string)
    (validation : option ValidationSchema) (s : Store) (facet : Facet)
    : option Event :=
  match supplied validation facet with
  | None => None
  | Some validator =>
      if reaches req s facet then
        callOf facet validator (facetInput req params facet)
          (heapAt req params validation s facet)
      else None
  end.

(** The calls of the validators, in facet order. *)
Definition validatorCalls (req : Request) (params : gmap string string)
    (validation : option ValidationSchema) (s : Store) : list Event :=
  omap (facetCall req params validation s) [Fparams; Fquery; Fheaders; Fbody].

End AggregationSpec.

Module ValidationScenarios.

Import RouterUtils RouterTypes ValidationSpec Scenarios.

(** The strict schema with a validator for the headers as well: the
    content type must be given. *)
Definition fullSchema : ValidationSchema :=
  {| v_params := Some (VParse (minLength "id" 3 "id must have 3 characters"));
     v_query := Some (VFunction (minLength "page" 1 "page is required"));
     v_headers :=
       Some (VFunction (minLength "content-type" 1 "content type is required"));
     v_body := Some (VParse (requiresField "name")) |}.

(** A validator that notes in the state that it ran, and then does what
    [code] does. *)
Definition marking (label : string) (code : ValidatorCode) : ValidatorCode :=
  fun input h => code input (<[label := JBool true]> h).

(** A validator that throws the string [text], a value that is no
    [Error]. *)
Definition throwsString (text : string) : ValidatorCode :=
  fun _ h => (Threw (NonError text), h).

(** A validator that throws the failure of a validation of its own. *)
Definition throwsFailure : ValidatorCode :=
  fun _ h =>
    (Threw (ValidationFailedError
              [{| ve_type := Fbody; ve_messages := ["inner"] |}]), h).

(** A validator that tells in its message which validators ran before
    it. *)
Definition tellsWhoRan (labels : list string) : ValidatorCode :=
  fun _ h =>
    (Threw (ErrorObject
              (String.concat ","
                 (List.filter (fun label => bool_decide (is_Some (h !! label)))
                    labels))),
     h).

(** A schema all of whose validators throw, each after leaving its mark
    in the state: an [Error], a string, a validation failure, and an
    [Error] again. *)
Definition failingSchema : ValidationSchema :=
  {| v_params :=
       Some (VParse (marking "params" (minLength "id" 3 "id must have 3 characters")));
     v_query := Some (VFunction (marking "query" (throwsString "nope")));
     v_headers := Some (VParse (marking "headers" throwsFailure));
     v_body := Some (VFunction (tellsWhoRan ["params"; "query"; "headers"])) |}.

End ValidationScenarios.

(** ** Response headers and their guard *)

Module GuardedHeaders.

(** The guard of the [Headers] object of a response.  A response made by
    [new Response] or [Response.json] has headers that can be changed; the
    headers of [Response.redirect], of [Response.error] and of a response
    that came from [fetch] are immutable. *)
Inductive Guard :=
| GuardResponse
| GuardImmutable.

(** The message of the [TypeError] the platform raises when immutable
    headers are changed; the text is the platform's. *)
Definition immutableMessage : string := "Headers are immutable".

(** [res.headers.set(key, value)], [key] in lower case. *)
Definition headersSet (guard : Guard) (key value : string) (res : Response)
    : Outcome Response :=
  match guard with
  | GuardImmutable => Threw (ErrorObject immutableMessage)
  | GuardResponse =>
      Returned {| status := status res;
                  res_headers := <[key := value]> (res_headers res);
                  res_body := res_body res |}
  end.

(** [setContentType] of [router.ts] on a response whose headers have the
    given guard:
    [if (!res.headers.get('content-type'))
       res.headers.set('content-type', 'application/json')]. *)
Definition setContentType (guard : Guard) (res : Response) : Outcome Response :=
  match res_headers res !! "content-type" with
  | Some (String _ _) => Returned res
  | _ => headersSet guard "content-type" "application/json" res
  end.

(** [res.headers.get('content-type')] is truthy. *)
Definition hasContentType (res : Response) : bool :=
  match res_headers res !! "content-type" with
  | Some (String _ _) => true
  | _ => false
  end.

End GuardedHeaders.

Module DispatchNotions.

Import RouterUtils RouterTypes AuthHandlerClass RouterTs ValidationSpec DispatchSpec.

(** A route does not answer this method and path. *)
Definition noMatch (method path : string) (r : Route) : Prop :=
  route_method r ≠ method ∨ PathMatcher.matchRoute path (route_path r) = None.

(** [this.pathMws.get(path)]. *)
Definition pathMwsGet (path : string) (entries : list (string * list Middleware))
    : option (list Middleware) :=
  snd <$> List.find (fun entry => String.eqb entry.1 path) entries.

(** The path-scoped middleware that applies to a path: the lists of all
    prefixes of the path, in the order the prefixes were first used. *)
Definition pathScoped (this : Router) (path : string) : list Middleware :=
  List.concat
    (List.map snd (List.filter (fun entry => Js.startsWithStr entry.1 path) (pathMws this))).

(** A middleware lets this request through, whatever the store. *)
Definition passes (req : Request) (mw : Middleware) : Prop :=
  forall s, exists s', mw_run mw req s = (Returned None, s').

(** The events of middleware that let the request through. *)
Definition passed (tier : Tier) (mws : list Middleware) : list Event :=
  (fun mw => Called (MiddlewareFn tier (mw_label mw)) (Returned None)) <$> mws.

(** The callbacks of the error stage of a dispatch: the router's own
    error handler and the on-error and on-response hooks of plugins. *)
Definition errorStage (callee : Callee) : Prop :=
  callee = RouterOnError
  ∨ exists plugin,
      callee = PluginHook OnError plugin ∨ callee = PluginHook OnResponse plugin.

(** A plugin that takes no part in the error stage. *)
Definition quiet (plugin : RouterPlugin) : Prop :=
  onError plugin = None ∧ onResponse plugin = None.

(** The trace of a computation that called nothing but validators. *)
Definition validatorsOnly (t : list Event) : Prop :=
  Forall (fun e => exists facet result, e = Called (ValidatorFn facet) result) t.

(** The trace of a computation that called nothing but the verify step and
    the error mapper of an auth config. *)
Definition authOnly (t : list Event) : Prop :=
  Forall (fun e => exists label result,
            e = Called (VerifyFn label) result ∨ e = Called (AuthOnError label) result) t.

(** The config whose verify step and error mapper [runAuth] uses for a
    route, on a router whose [AuthHandler] holds [thisConfig]. *)
Definition verifier (thisConfig : AuthConfig) (auth : AuthOption) : AuthConfig :=
  match auth with
  | AuthObject cfg => cfg
  | _ => thisConfig
  end.

End DispatchNotions.

(** ** The shorthand methods of the [Router] class ([router.ts]) *)

Module RouterTsVerbs.

Import RouterUtils RouterTypes.

(** The shorthand methods of the [Router] class. *)
Definition get (this : Router) (path : string) (opts : RouteConfig) (h : RouteHandler)
    : M (Router * Outcome unit) :=
  RouterTs.addRoute this "GET" path opts h.

Definition post (this : Router) (path : string) (opts : RouteConfig) (h : RouteHandler)
    : M (Router * Outcome unit) :=
  RouterTs.addRoute this "POST" path opts h.

Definition put (this : Router) (path : string) (opts : RouteConfig) (h : RouteHandler)
    : M (Router * Outcome unit) :=
  RouterTs.addRoute this "PUT" path opts h.

Definition patch (this : Router) (path : string) (opts : RouteConfig) (h : RouteHandler)
    : M (Router * Outcome unit) :=
  RouterTs.addRoute this "PATCH" path opts h.

Definition delete (this : Router) (path : string) (opts : RouteConfig) (h : RouteHandler)
    : M (Router * Outcome unit) :=
  RouterTs.addRoute this "DELETE" path opts h.

(** The five shorthands, each with the method it registers under. *)
Definition verbs
    : list (string * (Router -> string -> RouteConfig -> RouteHandler ->
                      M (Router * Outcome unit))) :=
  [("GET", get); ("POST", post); ("PUT", put); ("PATCH", patch); ("DELETE", delete)].

End RouterTsVerbs.

(** ** [auth/auth-utils.ts]: [handleAuth] and [createAuthMiddleware] *)

Module AuthUtils.

Import RouterUtils RouterTypes AuthHandlerClass.

(** [new Response('Unauthorized', { status: 401 })]. *)
Definition unauthorizedRes : Response :=
  {| status := 401;
     res_headers := {[ "content-type" := "text/plain;charset=UTF-8" ]};
     res_body := BodyText "Unauthorized" |}.

Definition missingConfigMessage : string :=
  "Authentication is required but no auth config was provided".

(** [handleAuth(req, authConfig, globalConfig)] of [auth/auth-utils.ts];
    the result is the pair [{ response, authData }]. *)
Definition handleAuth (req : Request) (authConfig : AuthOption)
    (globalConfig : option AuthConfig) : M (option Response * option Json) :=
  if negb (authRequired authConfig) then ret (None, None)
  else
    let config :=
      match authConfig with
      | AuthObject cfg => Some cfg
      | _ => globalConfig
      end in
    match config with
    | None => throw (ErrorObject missingConfigMessage)
    | Some config =>
        tryCatch
          (authData <- call (VerifyFn (ac_label config)) (fun _ => None)
                         (ac_verify config req);;
           ret (None, Some authData))
          (fun error =>
             match ac_onError config with
             | Some h =>
                 response <- call (AuthOnError (ac_label config)) Some (h error);;
                 ret (Some response, None)
             | None => ret (Some unauthorizedRes, None)
             end)
    end.

(** [createAuthMiddleware(config)]: the function it returns. *)
Definition createAuthMiddleware (config : AuthConfig) (req : Request)
    : M (option Response) :=
  result <- handleAuth req (AuthObject config) None;;
  ret result.1.

(** The function installed with [router.use]: a middleware is a callback
    of the router, which sees how it came back and the store it left. *)
Definition asMiddleware (label : string) (f : Request -> M (option Response))
    : Middleware :=
  {| mw_label := label; mw_run := fun req s => (f req s).1 |}.

End AuthUtils.

(** ** The zod example: [zodValidator] *)

Module ZodAdapter.

Import RouterUtils RouterUtilsZod.

(** [schema.safeParse(input)]: the issues of a [z.ZodError] come back as a
    value; anything else a refinement throws goes through. *)
Definition safeParse (schema : ZodType) (input : Data) (h : gmap string Json)
    : Outcome (Data + list ZodIssue) * gmap string Json :=
  match schema input h with
  | (inl data, h1) => (Returned (inl data), h1)
  | (inr (ZodError _ issues), h1) => (Returned (inr issues), h1)
  | (inr (NotZod err), h1) => (Threw err, h1)
  end.

(** [zodValidator(schema)] of the zod example. *)
Definition zodValidator (schema : ZodType) : RouterValidator :=
  VFunction (fun input h =>
    match safeParse schema input h with
    | (Returned (inl data), h1) => (Returned data, h1)
    | (Returned (inr issues), h1) =>
        let messages := List.map zi_message issues in
        (Threw (ErrorObject (String.concat "; " messages)), h1)
    | (Threw err, h1) => (Threw err, h1)
    end).

End ZodAdapter.

(** ** Further requests, schemas, plugins and routers *)

Module MoreScenarios.

Import RouterUtils RouterTypes AuthHandlerClass ValidationSpec Scenarios.

(** A schema that validates the path parameters only. *)
Definition paramsSchema : ValidationSchema :=
  {| v_params := Some (VParse (minLength "id" 3 "id must have 3 characters"));
     v_query := None; v_headers := None; v_body := None |}.

(** What [validateRequest] returns on [GET /users/123] under that
    schema. *)
Definition userData : ValidatedData :=
  {| vd_params := DRecord {[ "id" := "123" ]}; vd_query := DRecord ∅;
     vd_headers := DRecord ∅; vd_body := DUndefined |}.

(** A schema whose query validator is neither a function nor an object
    with a [parse] method. *)
Definition brokenSchema : ValidationSchema :=
  {| v_params := None; v_query := Some VOther; v_headers := None; v_body := None |}.

(** [POST /users] announcing JSON, with a body that is not JSON. *)
Definition malformedRequest : Request :=
  {| req_method := "POST";
     req_pathname := "/users";
     req_searchParams := [];
     req_headers := [("content-type", "application/json")];
     req_bodyText := "{";
     req_bodyJson := None;
     req_auth := None |}.

(** A plugin whose on-response hook throws. *)
Definition failingPlugin : RouterPlugin :=
  {| name := "failing-plugin"; onInit := None; onBeforeRouteRegister := None;
     onAfterRouteRegister := None; onRequest := None; onError := None;
     onResponse := Some (fun _ _ s => (Threw (ErrorObject "hook failed"), s)) |}.

Definition failingRouter : Router :=
  built (RouterTs.registerPlugin (RouterTs.newRouter None) failingPlugin)
    (RouterTs.newRouter None).

(** The route that [orderedRouter] holds. *)
Definition orderedRoute : Route :=
  {| route_path := "/test"; route_method := "GET";
     route_handler :=
       RouterTs.wrapped
         {| rc_auth := AuthAbsent; rc_validation := None;
            rc_middleware := Some [notingMiddleware "route" None] |}
         (notingOk "ok");
     route_middleware := Some [notingMiddleware "route" None] |}.

(** A config whose verify step rejects every request and whose error
    mapper answers with a text of its own, and one whose verify step lets
    every request in. *)
Definition rejectingAuth : AuthConfig :=
  {| ac_label := "global";
     ac_verify := fun _ s => (Threw (ErrorObject "Invalid access token"), s);
     ac_onError :=
       Some (fun _ s => (Returned (textResponse 401 "Custom error response"), s)) |}.

Definition acceptingAuth : AuthConfig :=
  {| ac_label := "global";
     ac_verify := fun _ s => (Returned mockUser, s);
     ac_onError := None |}.

(** A router whose only global middleware is the one
    [createAuthMiddleware] makes of [routeAuth]. *)
Definition guardedRouter : Router :=
  let r0 := RouterTs.newRouter None in
  let r1 := RouterTs.use r0
              (AuthUtils.asMiddleware "auth" (AuthUtils.createAuthMiddleware routeAuth))
              None in
  built (RouterTs.addRoute r1 "GET" "/protected" noOpts (okHandler "protected data")) r1.

(** A zod schema in the manner of [z.object({ userId: z.string().uuid() })]:
    it reports two issues on a record without a well-formed [userId]. *)
Definition uuidSchema : RouterUtilsZod.ZodType :=
  fun input h =>
    match input with
    | DRecord fields =>
        match fields !! "userId" with
        | Some v =>
            if Nat.eqb (String.length v) 36 then (inl input, h)
            else (inr (RouterUtilsZod.ZodError "Invalid uuid"
                         [{| RouterUtilsZod.zi_path := ["userId"];
                             RouterUtilsZod.zi_message := "Invalid uuid" |};
                          {| RouterUtilsZod.zi_path := ["userId"];
                             RouterUtilsZod.zi_message := "Too short" |}]), h)
        | None =>
            (inr (RouterUtilsZod.ZodError "Required"
                    [{| RouterUtilsZod.zi_path := ["userId"];
                        RouterUtilsZod.zi_message := "Required" |}]), h)
        end
    | _ =>
        (inr (RouterUtilsZod.ZodError "Expected object"
                [{| RouterUtilsZod.zi_path := [];
                    RouterUtilsZod.zi_message := "Expected object" |}]), h)
    end.

Definition uuidValidation : ValidationSchema :=
  {| v_params := Some (ZodAdapter.zodValidator uuidSchema);
     v_query := None; v_headers := None; v_body := None |}.

End MoreScenarios.

(** * Properties *)


(** ** PathMatcher *)

Module PathMatcherFacts.

Import PathMatcher PathMatcherSpec.

Lemma parts_empty : parts "" = [].
Proof. reflexivity. Qed.

Lemma segments_parts s : segments s = parts (Js.stripTrailingSlashes s).
Proof. reflexivity. Qed.

(** The loop of [matchRoute] against the fold of the specification, on
    arrays of the same length, when no parameter is named [__proto__]. *)
Lemma matchLoop_reference (routeParts pathParts : list string) (params : gmap string string) :
  length pathParts = length routeParts ->
  "__proto__" ∉ paramName <$> List.filter isParam routeParts ->
  matchLoop routeParts pathParts params
  = if forallb accepts (zip routeParts pathParts)
    then Some (foldl bindSegment params (zip routeParts pathParts))
    else None.
Proof.
  revert pathParts params.
  induction routeParts as [|r rs IH]; intros [|p ps] params Hlen Hproto;
    simpl in Hlen; try discriminate; [reflexivity|].
  simpl. unfold accepts, bindSegment at 2. simpl.
  unfold isParam in *. simpl in Hproto.
  destruct (Js.startsWith ":" r) eqn:Hr; simpl.
  - simpl in Hproto. apply not_elem_of_cons in Hproto as [Hne Hrest].
    unfold Js.objSet, paramName in *.
    destruct (String.eqb (Js.slice1 r) "__proto__") eqn:Heq.
    + apply String.eqb_eq in Heq. congruence.
    + apply IH; [lia | exact Hrest].
  - destruct (String.eqb r p) eqn:Hrp; simpl.
    + apply IH; [lia | exact Hproto].
    + reflexivity.
Qed.

Lemma filter_isParam_cons (r p : string) (pairs : list (string * string)) :
  List.filter isParam ((r, p) :: pairs).*1
  = if isParam r then r :: List.filter isParam pairs.*1
    else List.filter isParam pairs.*1.
Proof. reflexivity. Qed.

Lemma foldl_bindSegment_cons (r p : string) (pairs : list (string * string))
    (m : gmap string string) :
  foldl bindSegment m ((r, p) :: pairs)
  = foldl bindSegment (if isParam r then <[paramName r := p]> m else m) pairs.
Proof. reflexivity. Qed.

Lemma foldl_bindSegment_static (pairs : list (string * string)) (m : gmap string string) :
  List.filter isParam pairs.*1 = [] -> foldl bindSegment m pairs = m.
Proof.
  revert m. induction pairs as [|[r p] pairs IH]; intros m H; [reflexivity|].
  rewrite filter_isParam_cons in H. rewrite foldl_bindSegment_cons.
  destruct (isParam r); [discriminate|]. by apply IH.
Qed.

Lemma foldl_bindSegment_size (pairs : list (string * string)) (m : gmap string string) :
  NoDup (paramName <$> List.filter isParam pairs.*1) ->
  (forall k, k ∈ paramName <$> List.filter isParam pairs.*1 -> m !! k = None) ->
  size (foldl bindSegment m pairs)
  = (size m + length (List.filter isParam pairs.*1))%nat.
Proof.
  revert m. induction pairs as [|[r p] pairs IH]; intros m Hnd Hfresh.
  - simpl. lia.
  - rewrite filter_isParam_cons in *. rewrite foldl_bindSegment_cons.
    destruct (isParam r).
    + rewrite fmap_cons in *.
      apply NoDup_cons in Hnd as [Hnotin Hnd].
      rewrite IH.
      * rewrite map_size_insert_None; [simpl; lia|]. apply Hfresh. by left.
      * exact Hnd.
      * intros k Hk. rewrite lookup_insert_ne.
        -- apply Hfresh. by right.
        -- intros Heq. subst k. contradiction.
    + by apply IH.
Qed.

Lemma zip_fst_same_length {A B} (l : list A) (k : list B) :
  length k = length l -> (zip l k).*1 = l.
Proof. intros H. apply fst_zip. lia. Qed.

(** [matchRoute] is the algorithm of the specification on every pattern
    that has no parameter named [__proto__]. *)
Lemma matchRoute_referenceMatch (requestPath pattern : string) :
  "__proto__" ∉ paramNames pattern ->
  matchRoute requestPath pattern = referenceMatch requestPath pattern.
Proof.
  intros Hproto. unfold matchRoute, referenceMatch, paramNames in *.
  rewrite !segments_parts in *.
  set (cp := Js.stripTrailingSlashes (Js.beforeFirst "?" requestPath)) in *.
  set (cr := Js.stripTrailingSlashes pattern) in *.
  destruct (String.eqb cp "" && String.eqb cr "") eqn:Hempty.
  - apply andb_true_iff in Hempty as [->%String.eqb_eq ->%String.eqb_eq].
    reflexivity.
  - destruct (decide (length (parts cp) = length (parts cr))) as [Hlen|Hlen].
    + rewrite (proj2 (Nat.eqb_eq _ _) Hlen). simpl.
      by apply matchLoop_reference.
    + rewrite (proj2 (Nat.eqb_neq _ _) Hlen). reflexivity.
Qed.

(** C9, as amended.  On every pattern with no parameter named [__proto__],
    [matchRoute] is the reference algorithm (strip the query suffix, strip
    trailing slashes, split on the slash discarding empty segments,
    no-match on a different count or a differing static segment, otherwise
    the map binding each parameter name to the request segment at its
    place, a later segment replacing an earlier one of the same name); when
    moreover the k parameter names are pairwise distinct, a structurally
    matching path yields exactly k bindings; and an all-static structural
    match yields the empty map, not no-match. *)
Theorem matchRoute_refines_reference (requestPath pattern : string) :
  "__proto__" ∉ paramNames pattern ->
  matchRoute requestPath pattern = referenceMatch requestPath pattern
  ∧ (NoDup (paramNames pattern) -> exactlyKBindings requestPath pattern)
  ∧ (paramNames pattern = [] -> structuralMatch requestPath pattern ->
     matchRoute requestPath pattern = Some ∅).
Proof.
  intros Hproto. split; [by apply matchRoute_referenceMatch|]. split.
  - intros Hnd [Hlen Hacc]. rewrite matchRoute_referenceMatch by exact Hproto.
    unfold referenceMatch. rewrite decide_True by exact Hlen. rewrite Hacc.
    eexists; split; [reflexivity|].
    unfold paramNames in *.
    rewrite foldl_bindSegment_size.
    + rewrite zip_fst_same_length by exact Hlen.
      rewrite map_size_empty, length_fmap. reflexivity.
    + by rewrite zip_fst_same_length.
    + intros k _. apply lookup_empty.
  - intros Hnone [Hlen Hacc]. rewrite matchRoute_referenceMatch by exact Hproto.
    unfold referenceMatch. rewrite decide_True by exact Hlen. rewrite Hacc.
    f_equal. apply foldl_bindSegment_static.
    rewrite zip_fst_same_length by exact Hlen.
    unfold paramNames in Hnone. by apply fmap_nil_inv in Hnone.
Qed.

(** The statement at a pattern with one parameter and a path with a
    trailing slash and a query string, and at an all-static pattern. *)
Lemma matchRoute_refines_reference_witness :
  matchRoute "/a/1/?x=1" "/a/:id" = referenceMatch "/a/1/?x=1" "/a/:id"
  ∧ (exists m, matchRoute "/a/1/?x=1" "/a/:id" = Some m ∧ size m = 1)
  ∧ matchRoute "/a/b/" "/a/b" = Some ∅.
Proof.
  assert ("__proto__" ∉ paramNames "/a/:id") as Hid.
  { vm_compute. intros H. inversion H as [|? ? ? H1]; subst. inversion H1. }
  assert ("__proto__" ∉ paramNames "/a/b") as Hstatic.
  { vm_compute. intros H. inversion H. }
  destruct (matchRoute_refines_reference "/a/1/?x=1" "/a/:id" Hid) as (Heq & Hk & _).
  destruct (matchRoute_refines_reference "/a/b/" "/a/b" Hstatic) as (_ & _ & Hempty).
  split; [exact Heq|]. split.
  - apply Hk; [apply (NoDup_singleton "id") | split; reflexivity].
  - apply Hempty; [reflexivity | split; reflexivity].
Defined.

(** C9, as stated, fails on a pattern that names two segments alike: the
    path has the structure of the pattern, which has two dynamic segments,
    and [matchRoute] returns one binding. *)
Lemma matchRoute_duplicate_names :
  ¬ exactlyKBindings "/1/2" "/:id/:id".
Proof.
  intros H. destruct H as (m & Hm & Hsize).
  - split; reflexivity.
  - vm_compute in Hm. injection Hm as <-. vm_compute in Hsize. discriminate.
Qed.

(** The parameter name [__proto__] binds nothing. *)
Lemma matchRoute_proto :
  matchRoute "/x" "/:__proto__" = Some ∅
  ∧ referenceMatch "/x" "/:__proto__" = Some {[ "__proto__" := "x" ]}.
Proof. split; vm_compute; reflexivity. Qed.

Lemma matchRoute_examples :
  matchRoute "/a/1/" "/a/:id" = Some {[ "id" := "1" ]}
  ∧ matchRoute "/a/1?x=1" "/a/:id" = Some {[ "id" := "1" ]}
  ∧ matchRoute "/a/1" "/a/:id/b" = None
  ∧ matchRoute "/" "/" = Some ∅
  ∧ matchRoute "/a/%20" "/a/:id" = Some {[ "id" := "%20" ]}.
Proof. repeat split; vm_compute; reflexivity. Qed.

End PathMatcherFacts.

(** ** ValidationEngine *)

Module ValidationFacts.

Import RouterUtils ValidationSpec Scenarios.
Import ValidationNotions AggregationSpec ValidationScenarios.

Lemma validateFacet_step facet set validator input l s :
  facetStep facet l s (validateFacet facet set validator input l s).
Proof.
  unfold facetStep, validateFacet, tryCatch, bind, callValidator, callOnHeap, call,
    outcomeOf, storeOf, traceOf, ret, throw.
  destruct validator as [f|f|]; simpl.
  1,2: destruct (f input (heap s)) as [[x|err] h1] eqn:Hf; simpl.
  1,3: eexists; split; [reflexivity|]; split; [reflexivity|];
    left; split; [reflexivity | by right].
  1,2: eexists; split; [reflexivity|]; split; [reflexivity|];
    right; left; eexists; split; reflexivity.
  eexists; split; [reflexivity|]; split; [reflexivity|].
  right; right. eexists. split; [|split; reflexivity]. reflexivity.
Qed.

(** A validator that can be called is called. *)
Lemma validateFacet_called facet set validator input l s :
  callable validator = true ->
  exists result,
    traceOf (validateFacet facet set validator input l s)
    = [Called (ValidatorFn facet) result].
Proof.
  unfold validateFacet, tryCatch, bind, callValidator, callOnHeap, call,
    traceOf, ret, throw.
  destruct validator as [f|f|]; simpl; [| |discriminate]; intros _;
    destruct (f input (heap s)) as [[x|err] h1]; simpl; eexists; reflexivity.
Qed.

Lemma bind_pure {A B} (m : M A) (k : A -> M B) a s :
  m s = (Returned a, s, []) -> bind m k s = k a s.
Proof.
  intros H. unfold bind. rewrite H. by destruct (k a s) as [[o s2] t2].
Qed.

Lemma bind_returned {A B} (m : M A) (k : A -> M B) a s s1 t1 :
  m s = (Returned a, s1, t1) ->
  bind m k s = (outcomeOf (k a s1), storeOf (k a s1), t1 ++ traceOf (k a s1)).
Proof.
  intros H. unfold bind. rewrite H. by destruct (k a s1) as [[o s2] t2].
Qed.

Lemma bind_threw {A B} (m : M A) (k : A -> M B) err s s1 t1 :
  m s = (Threw err, s1, t1) -> bind m k s = (Threw err, s1, t1).
Proof. intros H. unfold bind. by rewrite H. Qed.

Lemma facetStep_pure facet l s (l' : Locals) :
  l'.2 = l.2 -> facetStep facet l s (ret l' s).
Proof.
  intros H. exists l'. unfold outcomeOf, storeOf, traceOf, ret. simpl.
  split; [reflexivity|]. split; [reflexivity|]. left. split; [exact H | by left].
Qed.

Lemma validateParams_step params validation l s :
  facetStep Fparams l s (validateParams params validation l s).
Proof.
  unfold validateParams. destruct (validation ≫= v_params).
  - apply validateFacet_step.
  - by apply facetStep_pure.
Qed.

Lemma validateQuery_step req validation l s :
  facetStep Fquery l s (validateQuery req validation l s).
Proof.
  unfold validateQuery. destruct (validation ≫= v_query).
  - apply validateFacet_step.
  - by apply facetStep_pure.
Qed.

Lemma validateHeaders_step req validation l s :
  facetStep Fheaders l s (validateHeaders req validation l s).
Proof.
  unfold validateHeaders. destruct (validation ≫= v_headers).
  - apply validateFacet_step.
  - by apply facetStep_pure.
Qed.

(** Decoding the body calls nothing and changes nothing; it fails exactly
    when the body cannot be decoded, and then leaves a body entry. *)
Lemma decodeBody_run req errors s :
  exists decoded,
    decodeBody req errors s = (Returned decoded, s, [])
    ∧ match decoded with
      | inl _ => bodyDecodes req s = true
      | inr errors' =>
          bodyDecodes req s = false
          ∧ (errors' = errors ∧ existsb isBody errors = true
             ∨ exists item, ve_type item = Fbody ∧ errors' = errors ++ [item])
      end.
Proof.
  unfold decodeBody, bodyDecodes, tryCatch, bind, clone, jsonOfCopy, textOfCopy,
    ret, throw.
  destruct (Js.includes _ _); destruct (bodyUsed s) eqn:Hused; simpl.
  - eexists; split; [reflexivity|]. simpl. split; [reflexivity|].
    right. eexists. split; [|reflexivity]. reflexivity.
  - destruct (req_bodyJson req) as [value|]; simpl.
    + eexists; split; [reflexivity|]. reflexivity.
    + eexists; split; [reflexivity|]. simpl. split.
      * reflexivity.
      * right. eexists. split; [|reflexivity]. reflexivity.
  - eexists; split; [reflexivity|]. simpl. split; [reflexivity|].
    destruct (existsb isBody errors); [by left|].
    right. eexists. split; [|reflexivity]. reflexivity.
  - eexists; split; [reflexivity|]. reflexivity.
Qed.

Lemma validateBody_step req validation l s :
  facetStep Fbody l s (validateBody req validation l s).
Proof.
  unfold validateBody. destruct (validation ≫= v_body) as [validator|].
  - destruct (decodeBody_run req l.2 s) as (decoded & Hrun & Hdec).
    rewrite (bind_pure _ _ _ _ Hrun).
    destruct decoded as [bodyData|errors].
    + apply validateFacet_step.
    + destruct Hdec as [_ Hdec].
      exists (l.1, errors). unfold outcomeOf, storeOf, traceOf, ret. simpl.
      split; [reflexivity|]. split; [reflexivity|].
      destruct Hdec as [[-> _]|(item & Htag & ->)].
      * left. split; [reflexivity | by left].
      * right; right. by exists item.
  - by apply facetStep_pure.
Qed.

Lemma facetStep_inv facet l s r :
  facetStep facet l s r ->
  exists l' s' t,
    r = (Returned l', s', t)
    ∧ bodyUsed s' = bodyUsed s
    ∧ ((l'.2 = l.2 ∧ (t = [] ∨ t = [Called (ValidatorFn facet) (Returned None)]))
       ∨ (exists err, l'.2 = l.2 ++ [errorItem facet err]
                      ∧ t = [Called (ValidatorFn facet) (Threw err)])
       ∨ (exists item, ve_type item = facet ∧ l'.2 = l.2 ++ [item] ∧ t = [])).
Proof.
  intros (l' & Ho & Hs & Hcases). destruct r as [[o s'] t].
  unfold outcomeOf, storeOf, traceOf in *. simpl in *. subst o.
  by exists l', s', t.
Qed.

(** The four facet blocks all run, one after the other, whatever the
    earlier ones found; the result is decided after the last. *)
Lemma validateRequest_steps req params validation s :
  exists l1 s1 t1 l2 s2 t2 l3 s3 t3 l4 s4 t4,
    validateParams params validation (initialData params, []) s = (Returned l1, s1, t1)
    ∧ validateQuery req validation l1 s1 = (Returned l2, s2, t2)
    ∧ validateHeaders req validation l2 s2 = (Returned l3, s3, t3)
    ∧ validateBody req validation l3 s3 = (Returned l4, s4, t4)
    ∧ validateRequest req params validation s
      = (match l4.2 with
         | [] => Returned l4.1
         | _ => Threw (ValidationFailedError l4.2)
         end, s4, t1 ++ t2 ++ t3 ++ t4).
Proof.
  destruct (facetStep_inv _ _ _ _
    (validateParams_step params validation (initialData params, []) s))
    as (l1 & s1 & t1 & H1 & _).
  destruct (facetStep_inv _ _ _ _ (validateQuery_step req validation l1 s1))
    as (l2 & s2 & t2 & H2 & _).
  destruct (facetStep_inv _ _ _ _ (validateHeaders_step req validation l2 s2))
    as (l3 & s3 & t3 & H3 & _).
  destruct (facetStep_inv _ _ _ _ (validateBody_step req validation l3 s3))
    as (l4 & s4 & t4 & H4 & _).
  exists l1, s1, t1, l2, s2, t2, l3, s3, t3, l4, s4, t4.
  repeat (split; [assumption|]).
  unfold validateRequest, bind. rewrite H1, H2, H3, H4.
  destruct l4 as [d [|item errors]]; simpl; by rewrite app_nil_r.
Qed.

Lemma bodyDecodes_bodyUsed req s s' :
  bodyUsed s' = bodyUsed s -> bodyDecodes req s' = bodyDecodes req s.
Proof. unfold bodyDecodes. by intros ->. Qed.

Lemma tagsBelow_nil k : tagsBelow k [].
Proof. split; constructor. Qed.

Lemma tagsBelow_weaken k k' errors :
  k <= k' -> tagsBelow k errors -> tagsBelow k' errors.
Proof.
  intros Hle [Hsorted Hbelow]. split; [exact Hsorted|].
  eapply Forall_impl; [exact Hbelow|]. simpl. intros item. lia.
Qed.

Lemma tagsBelow_snoc k errors item :
  tagsBelow k errors -> k <= facetRank (ve_type item) ->
  tagsBelow (S (facetRank (ve_type item))) (errors ++ [item]).
Proof.
  intros [Hsorted Hbelow] Hle. split.
  - rewrite fmap_app. apply StronglySorted_app_2.
    + intros x1 x2 Hx1 Hx2. apply list_elem_of_fmap in Hx1 as (i1 & -> & Hi1).
      simpl in Hx2. apply list_elem_of_singleton in Hx2 as ->.
      rewrite Forall_forall in Hbelow. specialize (Hbelow i1 Hi1). simpl. lia.
    + exact Hsorted.
    + simpl. repeat constructor.
  - apply Forall_app. split.
    + eapply Forall_impl; [exact Hbelow|]. simpl. intros i. lia.
    + repeat constructor.
Qed.

(** A facet block keeps the entries in facet order. *)
Lemma facetStep_tagsBelow facet l s l' s' t :
  facetStep facet l s (Returned l', s', t) ->
  tagsBelow (facetRank facet) l.2 ->
  tagsBelow (S (facetRank facet)) l'.2.
Proof.
  intros Hstep Htags.
  apply facetStep_inv in Hstep as (l'' & s'' & t'' & Heq & _ & Hcases).
  injection Heq as <- <- <-.
  destruct Hcases as [[-> _]|[(err & -> & _)|(item & <- & -> & _)]].
  - eapply tagsBelow_weaken; [|exact Htags]. lia.
  - apply (tagsBelow_snoc (facetRank facet) _ (errorItem facet err));
      [exact Htags | simpl; lia].
  - apply (tagsBelow_snoc (facetRank (ve_type item))); [exact Htags | lia].
Qed.

(** A facet block only adds entries. *)
Lemma facetStep_grows facet l s l' s' t item :
  facetStep facet l s (Returned l', s', t) -> item ∈ l.2 -> item ∈ l'.2.
Proof.
  intros Hstep Hin.
  apply facetStep_inv in Hstep as (l'' & s'' & t'' & Heq & _ & Hcases).
  injection Heq as <- <- <-.
  destruct Hcases as [[-> _]|[(err & -> & _)|(item' & _ & -> & _)]];
    [exact Hin | apply elem_of_app; by left ..].
Qed.

(** A facet block records the value its validator threw, and calls no
    other facet's validator. *)
Lemma facetStep_thrown facet l s l' s' t facet' err :
  facetStep facet l s (Returned l', s', t) ->
  Called (ValidatorFn facet') (Threw err) ∈ t ->
  errorItem facet' err ∈ l'.2.
Proof.
  intros Hstep Hin.
  apply facetStep_inv in Hstep as (l'' & s'' & t'' & Heq & _ & Hcases).
  injection Heq as <- <- <-.
  destruct Hcases as [[_ [->| ->]]|[(err' & -> & ->)|(item' & _ & _ & ->)]].
  - by apply elem_of_nil in Hin.
  - apply list_elem_of_singleton in Hin. discriminate.
  - apply list_elem_of_singleton in Hin. injection Hin as <- <-.
    apply elem_of_app. right. by apply list_elem_of_singleton.
  - by apply elem_of_nil in Hin.
Qed.

Lemma facetStep_bodyUsed facet l s l' s' t :
  facetStep facet l s (Returned l', s', t) -> bodyUsed s' = bodyUsed s.
Proof.
  intros Hstep.
  apply facetStep_inv in Hstep as (l'' & s'' & t'' & Heq & Hused & _).
  by injection Heq as <- <- <-.
Qed.

Lemma validateParams_called params validation l s validator :
  supplied validation Fparams = Some validator -> callable validator = true ->
  exists result,
    traceOf (validateParams params validation l s) = [Called (ValidatorFn Fparams) result].
Proof.
  unfold supplied, validateParams. intros -> Hc. by apply validateFacet_called.
Qed.

Lemma validateQuery_called req validation l s validator :
  supplied validation Fquery = Some validator -> callable validator = true ->
  exists result,
    traceOf (validateQuery req validation l s) = [Called (ValidatorFn Fquery) result].
Proof.
  unfold supplied, validateQuery. intros -> Hc. by apply validateFacet_called.
Qed.

Lemma validateHeaders_called req validation l s validator :
  supplied validation Fheaders = Some validator -> callable validator = true ->
  exists result,
    traceOf (validateHeaders req validation l s) = [Called (ValidatorFn Fheaders) result].
Proof.
  unfold supplied, validateHeaders. intros -> Hc. by apply validateFacet_called.
Qed.

Lemma validateBody_called req validation l s validator :
  supplied validation Fbody = Some validator -> callable validator = true ->
  bodyDecodes req s = true ->
  exists result,
    traceOf (validateBody req validation l s) = [Called (ValidatorFn Fbody) result].
Proof.
  unfold supplied, validateBody. intros -> Hc Hdec.
  destruct (decodeBody_run req l.2 s) as (decoded & Hrun & Hcase).
  rewrite (bind_pure _ _ _ _ Hrun).
  destruct decoded as [bodyData|errors].
  - by apply validateFacet_called.
  - destruct Hcase as [Hno _]. congruence.
Qed.

(** A body that cannot be decoded leaves a body entry. *)
Lemma validateBody_undecodable req validation l s validator l' s' t :
  supplied validation Fbody = Some validator ->
  bodyDecodes req s = false ->
  validateBody req validation l s = (Returned l', s', t) ->
  Fbody ∈ ve_type <$> l'.2.
Proof.
  unfold supplied, validateBody. intros -> Hdec.
  destruct (decodeBody_run req l.2 s) as (decoded & Hrun & Hcase).
  rewrite (bind_pure _ _ _ _ Hrun).
  destruct decoded as [bodyData|errors]; [congruence|].
  unfold ret. intros [= <- <- <-]. simpl.
  destruct Hcase as [_ [[-> Hex]|(item & Htag & ->)]].
  - apply existsb_exists in Hex as (item & Hin & Hbody).
    apply list_elem_of_fmap. exists item. split.
    + unfold isBody in Hbody. by destruct (ve_type item).
    + by apply list_elem_of_In.
  - rewrite fmap_app. apply elem_of_app. right. simpl. rewrite Htag.
    by apply list_elem_of_singleton.
Qed.

(** Everything the statements on [validateRequest] need, at once. *)
Lemma validateRequest_run req params validation s :
  exists errors data s' t,
    validateRequest req params validation s
    = (match errors with
       | [] => Returned data
       | _ => Threw (ValidationFailedError errors)
       end, s', t)
    ∧ bodyUsed s' = bodyUsed s
    ∧ tagsBelow 4 errors
    ∧ (forall facet validator,
         supplied validation facet = Some validator -> callable validator = true ->
         (facet = Fbody -> bodyDecodes req s = true) ->
         exists result, Called (ValidatorFn facet) result ∈ t)
    ∧ (forall facet err,
         Called (ValidatorFn facet) (Threw err) ∈ t -> errorItem facet err ∈ errors)
    ∧ (forall validator,
         supplied validation Fbody = Some validator -> bodyDecodes req s = false ->
         Fbody ∈ ve_type <$> errors).
Proof.
  destruct (validateRequest_steps req params validation s)
    as (l1 & s1 & t1 & l2 & s2 & t2 & l3 & s3 & t3 & l4 & s4 & t4
        & H1 & H2 & H3 & H4 & Hrun).
  pose proof (validateParams_step params validation (initialData params, []) s) as S1.
  pose proof (validateQuery_step req validation l1 s1) as S2.
  pose proof (validateHeaders_step req validation l2 s2) as S3.
  pose proof (validateBody_step req validation l3 s3) as S4.
  rewrite H1 in S1. rewrite H2 in S2. rewrite H3 in S3. rewrite H4 in S4.
  pose proof (facetStep_bodyUsed _ _ _ _ _ _ S1) as U1.
  pose proof (facetStep_bodyUsed _ _ _ _ _ _ S2) as U2.
  pose proof (facetStep_bodyUsed _ _ _ _ _ _ S3) as U3.
  pose proof (facetStep_bodyUsed _ _ _ _ _ _ S4) as U4.
  exists l4.2, l4.1, s4, (t1 ++ t2 ++ t3 ++ t4).
  split; [exact Hrun|]. split; [congruence|]. split; [|split; [|split]].
  - apply (facetStep_tagsBelow _ _ _ _ _ _ S4).
    apply (facetStep_tagsBelow _ _ _ _ _ _ S3).
    apply (facetStep_tagsBelow _ _ _ _ _ _ S2).
    apply (facetStep_tagsBelow _ _ _ _ _ _ S1).
    apply tagsBelow_nil.
  - intros facet validator Hsup Hcall Hdec. destruct facet.
    + destruct (validateParams_called params validation (initialData params, []) s
                  _ Hsup Hcall) as (result & Ht).
      rewrite H1 in Ht. unfold traceOf in Ht. simpl in Ht. subst t1.
      exists result. set_solver.
    + destruct (validateQuery_called req validation l1 s1 _ Hsup Hcall)
        as (result & Ht).
      rewrite H2 in Ht. unfold traceOf in Ht. simpl in Ht. subst t2.
      exists result. set_solver.
    + destruct (validateHeaders_called req validation l2 s2 _ Hsup Hcall)
        as (result & Ht).
      rewrite H3 in Ht. unfold traceOf in Ht. simpl in Ht. subst t3.
      exists result. set_solver.
    + assert (bodyDecodes req s3 = true) as Hdec3.
      { rewrite (bodyDecodes_bodyUsed req s s3) by congruence. by apply Hdec. }
      destruct (validateBody_called req validation l3 s3 _ Hsup Hcall Hdec3)
        as (result & Ht).
      rewrite H4 in Ht. unfold traceOf in Ht. simpl in Ht. subst t4.
      exists result. set_solver.
  - intros facet err Hin.
    rewrite !elem_of_app in Hin. destruct Hin as [Hin|[Hin|[Hin|Hin]]].
    + apply (facetStep_grows _ _ _ _ _ _ _ S4).
      apply (facetStep_grows _ _ _ _ _ _ _ S3).
      apply (facetStep_grows _ _ _ _ _ _ _ S2).
      by apply (facetStep_thrown _ _ _ _ _ _ _ _ S1).
    + apply (facetStep_grows _ _ _ _ _ _ _ S4).
      apply (facetStep_grows _ _ _ _ _ _ _ S3).
      by apply (facetStep_thrown _ _ _ _ _ _ _ _ S2).
    + apply (facetStep_grows _ _ _ _ _ _ _ S4).
      by apply (facetStep_thrown _ _ _ _ _ _ _ _ S3).
    + by apply (facetStep_thrown _ _ _ _ _ _ _ _ S4).
  - intros validator Hsup Hdec.
    apply (validateBody_undecodable req validation l3 s3 validator l4 s4 t4 Hsup);
      [|exact H4].
    rewrite (bodyDecodes_bodyUsed req s s3) by congruence. exact Hdec.
Qed.

(** The entry of a thrown value carries its message. *)
Lemma errorItem_recorded facet err :
  errorItem facet err = {| ve_type := facet; ve_messages := [recordedMessage err] |}.
Proof. by destruct err. Qed.

(** One facet block with a validator: the entry and the call are those of
    the validator's code on the input, in the state the block starts in. *)
Lemma validateFacet_entry facet set validator input l s :
  exists d s',
    validateFacet facet set validator input l s
    = (Returned (d, l.2 ++ option_list (entryOf facet validator input (heap s))), s',
       option_list (callOf facet validator input (heap s)))
    ∧ heap s' = heapAfter (Some validator) input (heap s)
    ∧ bodyUsed s' = bodyUsed s.
Proof.
  unfold validateFacet, callValidator, tryCatch, bind, callOnHeap, call, ret, throw,
    entryOf, callOf, heapAfter.
  destruct validator as [f|f|]; simpl.
  1,2: destruct (f input (heap s)) as [[x|err] h1]; simpl;
    [rewrite app_nil_r | rewrite errorItem_recorded]; by eexists _, _.
  by eexists _, _.
Qed.

Lemma omap_cons_option_list {A B} (f : A -> option B) x l :
  omap f (x :: l) = option_list (f x) ++ omap f l.
Proof. simpl. by destruct (f x). Qed.

Lemma facetEntry_type req params validation s facet item :
  facetEntry req params validation s facet = Some item -> ve_type item = facet.
Proof.
  unfold facetEntry, entryOf.
  destruct (supplied validation facet) as [validator|]; [|discriminate].
  destruct (reaches req s facet); [|by intros [= <-]].
  destruct (codeOf validator) as [code|]; [|by intros [= <-]].
  destruct (code _ _).1; [discriminate | by intros [= <-]].
Qed.

(** Decoding the body, said exactly. *)
Lemma decodeBody_exact req errors s :
  existsb isBody errors = false ->
  decodeBody req errors s
  = (Returned (if bodyDecodes req s then inl (facetInput req ∅ Fbody)
               else inr (errors ++ [{| ve_type := Fbody;
                                       ve_messages := [undecodableMessage req] |}])),
     s, []).
Proof.
  intros Hno.
  unfold decodeBody, bodyDecodes, undecodableMessage, facetInput, declaresJson, tryCatch,
    bind, clone, jsonOfCopy, textOfCopy, ret, throw.
  destruct (Js.includes _ _); destruct (bodyUsed s); simpl; try reflexivity.
  - by destruct (req_bodyJson req).
  - by rewrite Hno.
Qed.

(** What [validateRequest] does, facet by facet. *)
Lemma validateRequest_entries req params validation s :
  exists data s',
    validateRequest req params validation s
    = (match failingEntries req params validation s with
       | [] => Returned data
       | (_ :: _) as errors => Threw (ValidationFailedError errors)
       end, s', validatorCalls req params validation s).
Proof.
  destruct (validateRequest_steps req params validation s)
    as (l1 & s1 & t1 & l2 & s2 & t2 & l3 & s3 & t3 & l4 & s4 & t4
        & H1 & H2 & H3 & H4 & Hrun).
  assert (l1.2 = option_list (facetEntry req params validation s Fparams)
          ∧ t1 = option_list (facetCall req params validation s Fparams)
          ∧ heap s1 = heapAt req params validation s Fquery
          ∧ bodyUsed s1 = bodyUsed s) as (E1 & C1 & Hh1 & U1).
  { unfold validateParams, facetEntry, facetCall, heapAt, supplied in *. simpl.
    destruct (validation ≫= v_params) as [validator|].
    - destruct (validateFacet_entry Fparams setParams validator (DRecord params)
                  (initialData params, []) s) as (d & s' & Hv & Hh & Hu).
      rewrite Hv in H1. injection H1 as <- <- <-. by rewrite Hh.
    - unfold ret in H1. by injection H1 as <- <- <-. }
  assert (l2.2 = l1.2 ++ option_list (facetEntry req params validation s Fquery)
          ∧ t2 = option_list (facetCall req params validation s Fquery)
          ∧ heap s2 = heapAt req params validation s Fheaders
          ∧ bodyUsed s2 = bodyUsed s1) as (E2 & C2 & Hh2 & U2).
  { unfold validateQuery, facetEntry, facetCall in *.
    change (heapAt req params validation s Fheaders)
      with (heapAfter (supplied validation Fquery) (facetInput req params Fquery)
              (heapAt req params validation s Fquery)).
    rewrite <- Hh1. unfold supplied in *. simpl.
    destruct (validation ≫= v_query) as [validator|].
    - destruct (validateFacet_entry Fquery setQuery validator
                  (DRecord (Js.fromEntries (req_searchParams req))) l1 s1)
        as (d & s' & Hv & Hh & Hu).
      rewrite Hv in H2. injection H2 as <- <- <-. by rewrite Hh.
    - unfold ret in H2. injection H2 as <- <- <-. simpl. by rewrite app_nil_r. }
  assert (l3.2 = l2.2 ++ option_list (facetEntry req params validation s Fheaders)
          ∧ t3 = option_list (facetCall req params validation s Fheaders)
          ∧ heap s3 = heapAt req params validation s Fbody
          ∧ bodyUsed s3 = bodyUsed s2) as (E3 & C3 & Hh3 & U3).
  { unfold validateHeaders, facetEntry, facetCall in *.
    change (heapAt req params validation s Fbody)
      with (heapAfter (supplied validation Fheaders) (facetInput req params Fheaders)
              (heapAt req params validation s Fheaders)).
    rewrite <- Hh2. unfold supplied in *. simpl.
    destruct (validation ≫= v_headers) as [validator|].
    - destruct (validateFacet_entry Fheaders setHeaders validator
                  (DRecord (headersRecord (req_headers req))) l2 s2)
        as (d & s' & Hv & Hh & Hu).
      rewrite Hv in H3. injection H3 as <- <- <-. by rewrite Hh.
    - unfold ret in H3. injection H3 as <- <- <-. simpl. by rewrite app_nil_r. }
  assert (existsb isBody l3.2 = false) as Hno.
  { rewrite E3, E2, E1, !existsb_app.
    destruct (facetEntry req params validation s Fparams) as [i1|] eqn:F1;
      destruct (facetEntry req params validation s Fquery) as [i2|] eqn:F2;
      destruct (facetEntry req params validation s Fheaders) as [i3|] eqn:F3;
      simpl; unfold isBody;
      rewrite ?(facetEntry_type _ _ _ _ _ _ F1), ?(facetEntry_type _ _ _ _ _ _ F2),
        ?(facetEntry_type _ _ _ _ _ _ F3); reflexivity. }
  assert (l4.2 = l3.2 ++ option_list (facetEntry req params validation s Fbody)
          ∧ t4 = option_list (facetCall req params validation s Fbody)) as (E4 & C4).
  { unfold validateBody, facetEntry, facetCall, reaches in *.
    rewrite <- Hh3. unfold supplied in *.
    destruct (validation ≫= v_body) as [validator|].
    - rewrite (bind_pure _ _ _ _ (decodeBody_exact req l3.2 s3 Hno)) in H4.
      rewrite (bodyDecodes_bodyUsed req s s3) in H4 by congruence.
      destruct (bodyDecodes req s).
      + destruct (validateFacet_entry Fbody setBody validator (facetInput req ∅ Fbody)
                    l3 s3) as (d & s' & Hv & Hh & Hu).
        rewrite Hv in H4. by injection H4 as <- <- <-.
      + unfold ret in H4. by injection H4 as <- <- <-.
    - unfold ret in H4. injection H4 as <- <- <-. simpl. by rewrite app_nil_r. }
  assert (l4.2 = failingEntries req params validation s) as E.
  { unfold failingEntries. rewrite !omap_cons_option_list. simpl.
    rewrite E4, E3, E2, E1, app_nil_r, <- !app_assoc. reflexivity. }
  assert (t1 ++ t2 ++ t3 ++ t4 = validatorCalls req params validation s) as C.
  { unfold validatorCalls. rewrite !omap_cons_option_list. simpl.
    rewrite C1, C2, C3, C4, app_nil_r. reflexivity. }
  exists l4.1, s4. rewrite Hrun, E, C. by destruct (failingEntries _ _ _ _).
Qed.


(** C4.  Whatever the request and the schema, [validateRequest] goes
    through the four facets in order and only then decides.  Every facet
    with a validator is attempted, whatever the facets before it did: its
    validator is called once, on the facet's input, in the state the earlier
    validators left (the body validator unless the body cannot be decoded),
    and these are all the calls.  A facet fails when its validator throws,
    when its validator cannot be called, or when the body cannot be decoded;
    the failure that is thrown holds exactly the entries of the failing
    facets, in facet order, each with the facet and the message of what was
    thrown; without a failing facet the combined record is returned.  On a
    request with a path parameter that is too short, an empty query value
    and a body missing its required field, under a schema that validates
    the headers as well, the failure has exactly the three entries of
    params, query and body. *)
Theorem validateRequest_aggregates :
  (forall req params validation s,
     traceOf (validateRequest req params validation s)
     = validatorCalls req params validation s
     ∧ match failingEntries req params validation s with
       | [] =>
           exists data,
             outcomeOf (validateRequest req params validation s) = Returned data
       | (_ :: _) as errors =>
           outcomeOf (validateRequest req params validation s)
           = Threw (ValidationFailedError errors)
       end)
  ∧ outcomeOf (validateRequest badRequest {[ "id" := "12" ]} (Some fullSchema)
                 emptyStore)
    = Threw (ValidationFailedError
               [ {| ve_type := Fparams; ve_messages := ["id must have 3 characters"] |};
                 {| ve_type := Fquery; ve_messages := ["page is required"] |};
                 {| ve_type := Fbody; ve_messages := ["Required"] |} ]).
Proof.
  split; [|vm_compute; reflexivity].
  intros req params validation s.
  destruct (validateRequest_entries req params validation s) as (data & s' & Hrun).
  rewrite Hrun. unfold traceOf, outcomeOf. simpl. split; [reflexivity|].
  destruct (failingEntries req params validation s); [by exists data | reflexivity].
Qed.

(** The statement of C4 at a schema all of whose validators throw: the
    four validators are called although each one before threw, the body
    validator finds the marks the three others left in the state, and the
    failure has the four entries with their messages. *)
Lemma validateRequest_aggregates_witness :
  traceOf (validateRequest badRequest {[ "id" := "12" ]} (Some failingSchema) emptyStore)
  = [ Called (ValidatorFn Fparams) (Threw (ErrorObject "id must have 3 characters"));
      Called (ValidatorFn Fquery) (Threw (NonError "nope"));
      Called (ValidatorFn Fheaders)
        (Threw (ValidationFailedError
                  [{| ve_type := Fbody; ve_messages := ["inner"] |}]));
      Called (ValidatorFn Fbody) (Threw (ErrorObject "params,query,headers")) ]
  ∧ outcomeOf (validateRequest badRequest {[ "id" := "12" ]} (Some failingSchema)
                 emptyStore)
    = Threw (ValidationFailedError
               [ {| ve_type := Fparams; ve_messages := ["id must have 3 characters"] |};
                 {| ve_type := Fquery; ve_messages := ["nope"] |};
                 {| ve_type := Fheaders; ve_messages := ["Validation failed"] |};
                 {| ve_type := Fbody; ve_messages := ["params,query,headers"] |} ]).
Proof.
  exact (proj1 validateRequest_aggregates badRequest {[ "id" := "12" ]}
           (Some failingSchema) emptyStore).
Defined.

(** C5.  [validateRequest] leaves the [bodyUsed] flag of the request as it
    found it, with or without a body validator, so reading the body of the
    request afterwards comes back as it would have before: the body was
    only read through copies. *)
Theorem validateRequest_keeps_body req params validation s :
  bodyUsed (storeOf (validateRequest req params validation s)) = bodyUsed s
  ∧ outcomeOf (json req (storeOf (validateRequest req params validation s)))
    = outcomeOf (json req s).
Proof.
  destruct (validateRequest_run req params validation s)
    as (errors & data & s' & t & Hrun & Hused & _).
  rewrite Hrun. unfold storeOf, outcomeOf, json. simpl. rewrite Hused.
  split; [reflexivity|].
  destruct (bodyUsed s); [reflexivity|]. by destruct (req_bodyJson req).
Qed.

(** Whatever the validator of the path parameters throws on the raw path
    parameters is an entry of the failure. *)
Lemma params_validator_throw_recorded req params validation s code err h' :
  supplied validation Fparams = Some (VFunction code)
  ∨ supplied validation Fparams = Some (VParse code) ->
  code (DRecord params) (heap s) = (Threw err, h') ->
  exists errors,
    outcomeOf (validateRequest req params validation s)
    = Threw (ValidationFailedError errors)
    ∧ errorItem Fparams err ∈ errors.
Proof.
  intros Hsup Hcode.
  destruct (validateRequest_steps req params validation s)
    as (l1 & s1 & t1 & l2 & s2 & t2 & l3 & s3 & t3 & l4 & s4 & t4
        & H1 & H2 & H3 & H4 & Hrun).
  assert (l1.2 = [errorItem Fparams err]) as Hl1.
  { unfold validateParams, supplied in *.
    destruct Hsup as [Hsup|Hsup]; rewrite Hsup in H1;
      unfold validateFacet, tryCatch, bind, callValidator, callOnHeap, call in H1;
      rewrite Hcode in H1; simpl in H1; by injection H1 as <- _ _. }
  pose proof (validateQuery_step req validation l1 s1) as S2.
  pose proof (validateHeaders_step req validation l2 s2) as S3.
  pose proof (validateBody_step req validation l3 s3) as S4.
  rewrite H2 in S2. rewrite H3 in S3. rewrite H4 in S4.
  assert (errorItem Fparams err ∈ l4.2) as Hin.
  { apply (facetStep_grows _ _ _ _ _ _ _ S4).
    apply (facetStep_grows _ _ _ _ _ _ _ S3).
    apply (facetStep_grows _ _ _ _ _ _ _ S2).
    rewrite Hl1. by apply list_elem_of_singleton. }
  exists l4.2. rewrite Hrun. unfold outcomeOf. simpl. split; [|exact Hin].
  destruct l4.2; [by apply elem_of_nil in Hin | reflexivity].
Qed.

(** C6.  Take any facet whose validator is supplied and can be called,
    the body being decodable when the facet is the body.  If the validator
    throws when it is called on the facet's input, in the state the
    validators of the earlier facets left, then [validateRequest] throws the
    aggregated failure, and the failure holds the entry of that facet with
    the message of the thrown value: the [message] of an [Error] (a
    validation failure included), and the string form of any other
    value. *)
Theorem validator_throw_recorded req params validation s facet validator code err h' :
  supplied validation facet = Some validator ->
  codeOf validator = Some code ->
  (facet = Fbody -> bodyDecodes req s = true) ->
  code (facetInput req params facet) (heapAt req params validation s facet)
  = (Threw err, h') ->
  exists errors,
    outcomeOf (validateRequest req params validation s)
    = Threw (ValidationFailedError errors)
    ∧ {| ve_type := facet; ve_messages := [recordedMessage err] |} ∈ errors.
Proof.
  intros Hsup Hcode Hdec Hthrow.
  destruct (validateRequest_entries req params validation s) as (data & s' & Hrun).
  assert (facetEntry req params validation s facet
          = Some {| ve_type := facet; ve_messages := [recordedMessage err] |}) as Hentry.
  { unfold facetEntry, entryOf. rewrite Hsup, Hcode, Hthrow. simpl.
    assert (reaches req s facet = true) as ->; [|reflexivity].
    destruct facet; try reflexivity. by apply Hdec. }
  assert ({| ve_type := facet; ve_messages := [recordedMessage err] |}
          ∈ failingEntries req params validation s) as Hin.
  { unfold failingEntries. apply list_elem_of_omap. exists facet. split; [|exact Hentry].
    destruct facet; set_solver. }
  exists (failingEntries req params validation s). split; [|exact Hin].
  rewrite Hrun. unfold outcomeOf. simpl.
  destruct (failingEntries req params validation s); [by apply elem_of_nil in Hin|].
  reflexivity.
Qed.

(** The statement of C6 at a schema all of whose validators throw: the
    query validator throws a string, the headers validator the failure of a
    validation of its own, the body validator an [Error]. *)
Lemma validator_throw_recorded_witness :
  (exists errors,
     outcomeOf (validateRequest badRequest {[ "id" := "12" ]} (Some failingSchema)
                  emptyStore)
     = Threw (ValidationFailedError errors)
     ∧ {| ve_type := Fquery; ve_messages := ["nope"] |} ∈ errors)
  ∧ (exists errors,
       outcomeOf (validateRequest badRequest {[ "id" := "12" ]} (Some failingSchema)
                    emptyStore)
       = Threw (ValidationFailedError errors)
       ∧ {| ve_type := Fheaders; ve_messages := ["Validation failed"] |} ∈ errors)
  ∧ (exists errors,
       outcomeOf (validateRequest badRequest {[ "id" := "12" ]} (Some failingSchema)
                    emptyStore)
       = Threw (ValidationFailedError errors)
       ∧ {| ve_type := Fbody; ve_messages := ["params,query,headers"] |} ∈ errors).
Proof.
  split; [|split].
  - apply (validator_throw_recorded badRequest {[ "id" := "12" ]} (Some failingSchema)
             emptyStore Fquery (VFunction (marking "query" (throwsString "nope")))
             (marking "query" (throwsString "nope")) (NonError "nope")
             (<["query" := JBool true]> (<["params" := JBool true]> ∅)));
      [reflexivity | reflexivity | discriminate | reflexivity].
  - apply (validator_throw_recorded badRequest {[ "id" := "12" ]} (Some failingSchema)
             emptyStore Fheaders (VParse (marking "headers" throwsFailure))
             (marking "headers" throwsFailure)
             (ValidationFailedError [{| ve_type := Fbody; ve_messages := ["inner"] |}])
             (<["headers" := JBool true]>
                (<["query" := JBool true]> (<["params" := JBool true]> ∅))));
      [reflexivity | reflexivity | discriminate | reflexivity].
  - apply (validator_throw_recorded badRequest {[ "id" := "12" ]} (Some failingSchema)
             emptyStore Fbody (VFunction (tellsWhoRan ["params"; "query"; "headers"]))
             (tellsWhoRan ["params"; "query"; "headers"])
             (ErrorObject "params,query,headers")
             (<["headers" := JBool true]>
                (<["query" := JBool true]> (<["params" := JBool true]> ∅))));
      [reflexivity | reflexivity | reflexivity | vm_compute; reflexivity].
Defined.

End ValidationFacts.

(** ** The earlier, zod-only [validateRequest] *)

Module ZodVariantFacts.

Import RouterUtils ValidationSpec Scenarios.

(** With a body schema, the earlier [validateRequest] reads the body of
    the request itself: afterwards the body is used. *)
Lemma zod_validateRequest_uses_body req params validation schema s :
  RouterUtilsZod.v_body validation = Some schema ->
  bodyUsed s = false ->
  bodyUsed (RouterUtilsZod.validateRequest req params (Some validation) s).1.2 = true.
Proof.
  intros Hschema Hused. unfold RouterUtilsZod.validateRequest. simpl. rewrite Hschema.
  assert (forall facet set sch input l s0,
            bodyUsed (RouterUtilsZod.parseFacet facet set sch input l s0).1.2
            = bodyUsed s0) as Hfacet.
  { intros. unfold RouterUtilsZod.parseFacet.
    by destruct (sch input (heap s0)) as [o h1]. }
  destruct (match RouterUtilsZod.v_params validation with
            | Some sch => _ | None => _ end) as [[l1 s1] t1] eqn:H1.
  assert (bodyUsed s1 = false) as U1.
  { destruct (RouterUtilsZod.v_params validation).
    - pose proof (Hfacet Fparams RouterUtilsZod.setParams z (DRecord params)
                    ({| RouterUtilsZod.pd_params := None;
                        RouterUtilsZod.pd_query := None;
                        RouterUtilsZod.pd_headers := None;
                        RouterUtilsZod.pd_body := None |}, []) s) as H.
      rewrite H1 in H. simpl in H. congruence.
    - injection H1 as _ <- _. exact Hused. }
  destruct (match RouterUtilsZod.v_query validation with
            | Some sch => _ | None => _ end) as [[l2 s2] t2] eqn:H2.
  assert (bodyUsed s2 = false) as U2.
  { destruct (RouterUtilsZod.v_query validation).
    - pose proof (Hfacet Fquery RouterUtilsZod.setQuery z
                    (DRecord (Js.fromEntries (req_searchParams req))) l1 s1) as H.
      rewrite H2 in H. simpl in H. congruence.
    - injection H2 as _ <- _. exact U1. }
  destruct (match RouterUtilsZod.v_headers validation with
            | Some sch => _ | None => _ end) as [[l3 s3] t3] eqn:H3.
  assert (bodyUsed s3 = false) as U3.
  { destruct (RouterUtilsZod.v_headers validation).
    - pose proof (Hfacet Fheaders RouterUtilsZod.setHeaders z
                    (DRecord (Js.fromEntries (req_headers req))) l2 s2) as H.
      rewrite H3 in H. simpl in H. congruence.
    - injection H3 as _ <- _. exact U2. }
  unfold RouterUtilsZod.parseBody, json. rewrite U3.
  destruct (req_bodyJson req) as [value|]; simpl; [|reflexivity].
  by destruct (schema (DJson value) (heap s3)) as [o h1].
Qed.

(** On a request whose body was not read, the earlier [validateRequest]
    leaves a later stage unable to read it. *)
Lemma zod_validateRequest_body_example :
  let r := RouterUtilsZod.validateRequest badRequest ∅ (Some anyBody) emptyStore in
  r.1.1 = inr {| RouterUtilsZod.pd_params := Some (DRecord ∅);
                 RouterUtilsZod.pd_query := Some (DRecord {[ "page" := "" ]});
                 RouterUtilsZod.pd_headers :=
                   Some (DRecord {[ "content-type" := "application/json" ]});
                 RouterUtilsZod.pd_body := Some (DJson (JObj [])) |}
  ∧ outcomeOf (json badRequest r.1.2) = Threw (ErrorObject bodyUsedMessage)
  ∧ outcomeOf (json badRequest emptyStore) = Returned (JObj []).
Proof. repeat split; vm_compute; reflexivity. Qed.

(** A value that is not a [z.ZodError], thrown while the path parameters
    are parsed, is dropped by the earlier [validateRequest]: it returns,
    with no entry for the facet and no value for [params]. *)
Lemma zod_validateRequest_drops_other_errors :
  RouterUtilsZod.validateRequest (getRequest "/users/12") {[ "id" := "12" ]}
    (Some throwingRefinement) emptyStore
  = (inr {| RouterUtilsZod.pd_params := None;
            RouterUtilsZod.pd_query := Some (DRecord ∅);
            RouterUtilsZod.pd_headers := Some (DRecord ∅);
            RouterUtilsZod.pd_body := None |},
     emptyStore,
     [Called (ValidatorFn Fparams) (Threw (ErrorObject "lookup failed"))]).
Proof. vm_compute. reflexivity. Qed.

End ZodVariantFacts.

(** ** Dispatcher *)

Module DispatchFacts.

Import RouterUtils RouterTypes AuthHandlerClass RouterTs ValidationSpec DispatchSpec
  Scenarios.
Import ValidationFacts.

(** *** Stepping through [bind] and [tryCatch] *)

Lemma prepend_nil {A} (r : Outcome A * Store * list Event) : prepend [] r = r.
Proof. by destruct r as [[o s] t]. Qed.

Lemma prepend_prepend {A} t1 t2 (r : Outcome A * Store * list Event) :
  prepend t1 (prepend t2 r) = prepend (t1 ++ t2) r.
Proof. unfold prepend, outcomeOf, storeOf, traceOf. simpl. by rewrite app_assoc. Qed.

Lemma bind_step {A B} (m : M A) (k : A -> M B) a s s1 t1 :
  m s = (Returned a, s1, t1) -> bind m k s = prepend t1 (k a s1).
Proof. intros H. unfold bind. rewrite H. by destruct (k a s1) as [[o s2] t2]. Qed.

Lemma tryCatch_bind_step {A B} (m : M A) (k : A -> M B) h a s s1 t1 :
  m s = (Returned a, s1, t1) ->
  tryCatch (bind m k) h s = prepend t1 (tryCatch (k a) h s1).
Proof.
  intros H. unfold tryCatch, bind. rewrite H.
  destruct (k a s1) as [[[b|err] s2] t2]; simpl; [reflexivity|].
  destruct (h err s2) as [[o s3] t3]. unfold prepend, outcomeOf, storeOf, traceOf.
  simpl. by rewrite app_assoc.
Qed.

Lemma tryCatch_bind_threw {A B} (m : M A) (k : A -> M B) h err s s1 t1 :
  m s = (Threw err, s1, t1) ->
  tryCatch (bind m k) h s = prepend t1 (h err s1).
Proof.
  intros H. unfold tryCatch, bind. rewrite H. by destruct (h err s1) as [[o s2] t2].
Qed.

Lemma outcomeOf_prepend {A} t (r : Outcome A * Store * list Event) :
  outcomeOf (prepend t r) = outcomeOf r.
Proof. reflexivity. Qed.

Lemma storeOf_prepend {A} t (r : Outcome A * Store * list Event) :
  storeOf (prepend t r) = storeOf r.
Proof. reflexivity. Qed.

Lemma traceOf_prepend {A} t (r : Outcome A * Store * list Event) :
  traceOf (prepend t r) = t ++ traceOf r.
Proof. reflexivity. Qed.

Lemma result_eta {A} (r : Outcome A * Store * list Event) :
  r = (outcomeOf r, storeOf r, traceOf r).
Proof. by destruct r as [[o s] t]. Qed.

(** *** The on-response hook point *)

(** [runPluginResponseHook] returns exactly along a chain of the
    specification. *)
Lemma runPluginResponseHookLoop_chain req ps res s res' s' t :
  runPluginResponseHookLoop req res ps s = (Returned res', s', t)
  <-> responseChain req ps res s res' s' t.
Proof.
  split.
  - revert res s t. induction ps as [|plugin rest IH]; intros res s t Hrun.
    + injection Hrun as <- <- <-. constructor.
    + simpl in Hrun. destruct (onResponse plugin) as [h|] eqn:Hh.
      * unfold bind, call in Hrun.
        destruct (h req res s) as [[result|err] s1] eqn:Hcall; [|discriminate].
        simpl in Hrun.
        destruct result as [replacement|].
        -- destruct (runPluginResponseHookLoop req replacement rest s1)
             as [[o s2] t2] eqn:Hrest.
           injection Hrun as -> <- <-.
           eapply chain_call; [exact Hh | exact Hcall |]. simpl. by apply IH.
        -- destruct (runPluginResponseHookLoop req res rest s1)
             as [[o s2] t2] eqn:Hrest.
           injection Hrun as -> <- <-.
           eapply chain_call; [exact Hh | exact Hcall |]. simpl. by apply IH.
      * apply chain_skip; [exact Hh|]. by apply IH.
  - induction 1 as [res s|plugin rest res s res' s' t Hh _ IH
                    |plugin rest h res s result s1 res' s' t Hh Hcall _ IH].
    + reflexivity.
    + simpl. by rewrite Hh.
    + simpl. rewrite Hh. unfold bind, call. rewrite Hcall. simpl.
      destruct result as [replacement|]; simpl in IH; by rewrite IH.
Qed.

(** Along a chain every plugin that has the hook is called, in
    registration order, and nothing else. *)
Lemma responseChain_callees req ps res s res' s' t :
  responseChain req ps res s res' s' t ->
  callees t = PluginHook OnResponse <$> responders ps.
Proof.
  unfold responders.
  induction 1 as [res s|plugin rest res s res' s' t Hh _ IH
                  |plugin rest h res s result s1 res' s' t Hh Hcall _ IH].
  - reflexivity.
  - simpl. rewrite Hh. simpl. exact IH.
  - simpl. rewrite Hh. simpl. by rewrite IH.
Qed.

(** *** The loops over plugins and middleware *)

Lemma noTerminal_app t1 t2 : noTerminal t1 -> noTerminal t2 -> noTerminal (t1 ++ t2).
Proof. intros H1 H2. apply Forall_app. by split. Qed.

Lemma hookEvent_noTerminal hook t : Forall (hookEvent hook) t -> noTerminal t.
Proof.
  intros H. eapply Forall_impl; [exact H|]. simpl.
  by intros e (plugin & result & ->).
Qed.

(** A plugin hook loop calls hooks of that hook point only, and when it
    comes back with a response, the response is what the last hook called
    returned. *)
Lemma runPluginHookLoop_cases hook select ps s :
  Forall (hookEvent hook) (traceOf (runPluginHookLoop hook select ps s))
  ∧ forall res,
      outcomeOf (runPluginHookLoop hook select ps s) = Returned (Some res) ->
      exists pre plugin,
        traceOf (runPluginHookLoop hook select ps s)
        = pre ++ [Called (PluginHook hook plugin) (Returned (Some res))].
Proof.
  revert s. induction ps as [|plugin rest IH]; intros s.
  - split; [constructor | discriminate].
  - simpl. destruct (select plugin) as [h|]; [|apply IH].
    unfold bind, call. destruct (h s) as [[result|err] s1] eqn:Hcall; simpl.
    + destruct result as [response|]; simpl.
      * split.
        -- repeat constructor. by eexists _, _.
        -- intros res [= <-]. by exists [], (name plugin).
      * destruct (IH s1) as [Hev Hsome].
        destruct (runPluginHookLoop hook select rest s1) as [[o s2] t2].
        unfold traceOf, outcomeOf in *. simpl in *. split.
        -- constructor; [by eexists _, _ | exact Hev].
        -- intros res Ho. destruct (Hsome res Ho) as (pre & p & ->).
           by exists (Called (PluginHook hook (name plugin)) (Returned None) :: pre), p.
    + split; [|discriminate]. repeat constructor. by eexists _, _.
Qed.

(** A middleware list stops at the first terminal response, which is then
    the last event; otherwise no middleware of the list was terminal. *)
Lemma runMiddlewaresIn_cases tier req mws s :
  match outcomeOf (runMiddlewaresIn tier req mws s) with
  | Returned (Some res) =>
      exists pre label,
        traceOf (runMiddlewaresIn tier req mws s)
        = pre ++ [Called (MiddlewareFn tier label) (Returned (Some res))]
        ∧ noTerminal pre
  | _ => noTerminal (traceOf (runMiddlewaresIn tier req mws s))
  end.
Proof.
  revert s. induction mws as [|mw rest IH]; intros s.
  - constructor.
  - simpl. unfold bind, call.
    destruct (mw_run mw req s) as [[result|err] s1] eqn:Hcall; simpl.
    + destruct result as [response|]; simpl.
      * exists [], (mw_label mw). split; [reflexivity | constructor].
      * specialize (IH s1).
        destruct (runMiddlewaresIn tier req rest s1) as [[o s2] t2].
        unfold traceOf, outcomeOf in *. simpl in *.
        destruct o as [[res|]|err].
        -- destruct IH as (pre & label & -> & Hpre).
           exists (Called (MiddlewareFn tier (mw_label mw)) (Returned None) :: pre), label.
           split; [reflexivity|]. by constructor.
        -- by constructor.
        -- by constructor.
    + repeat constructor.
Qed.

Lemma runPathMiddlewaresLoop_cases req path entries s :
  match outcomeOf (runPathMiddlewaresLoop req path entries s) with
  | Returned (Some res) =>
      exists pre label,
        traceOf (runPathMiddlewaresLoop req path entries s)
        = pre ++ [Called (MiddlewareFn PathTier label) (Returned (Some res))]
        ∧ noTerminal pre
  | _ => noTerminal (traceOf (runPathMiddlewaresLoop req path entries s))
  end.
Proof.
  revert s. induction entries as [|[p mws] rest IH]; intros s.
  - constructor.
  - simpl. destruct (Js.startsWithStr p path); [|apply IH].
    pose proof (runMiddlewaresIn_cases PathTier req mws s) as Hmws.
    unfold bind.
    destruct (runMiddlewaresIn PathTier req mws s) as [[[[res|]|err] s1] t1];
      unfold traceOf, outcomeOf in *; simpl in *.
    + rewrite app_nil_r. exact Hmws.
    + specialize (IH s1).
      destruct (runPathMiddlewaresLoop req path rest s1) as [[o s2] t2].
      simpl in *. destruct o as [[res|]|err].
      * destruct IH as (pre & label & -> & Hpre).
        exists (t1 ++ pre), label. split; [by rewrite app_assoc|].
        by apply noTerminal_app.
      * by apply noTerminal_app.
      * by apply noTerminal_app.
    + exact Hmws.
Qed.

(** A middleware list calls middleware of its tier only. *)
Lemma runMiddlewaresIn_emits tier req mws s :
  Forall (fun e => exists label result, e = Called (MiddlewareFn tier label) result)
    (traceOf (runMiddlewaresIn tier req mws s)).
Proof.
  revert s. induction mws as [|mw rest IH]; intros s; [constructor|].
  simpl. unfold bind, call.
  destruct (mw_run mw req s) as [[result|err] s1]; simpl.
  - destruct result as [response|]; simpl.
    + repeat constructor. by eexists _, _.
    + specialize (IH s1).
      destruct (runMiddlewaresIn tier req rest s1) as [[o s2] t2].
      unfold traceOf in *. simpl in *. constructor; [by eexists _, _ | exact IH].
  - repeat constructor. by eexists _, _.
Qed.

Lemma matchRouteHandlerLoop_elem method path rs route params :
  matchRouteHandlerLoop method path rs = Some (route, params) -> route ∈ rs.
Proof.
  induction rs as [|r rest IH]; [discriminate|]. simpl.
  destruct (negb (String.eqb (route_method r) method)).
  - intros H. right. by apply IH.
  - destruct (PathMatcher.matchRoute path (route_path r)).
    + intros [= <- <-]. by left.
    + intros H. right. by apply IH.
Qed.

(** *** The stages of [handle] *)

Lemma tryCatch_emit_step {B} e (k : unit -> M B) h s :
  tryCatch (bind (emit e) k) h s = prepend [e] (tryCatch (k tt) h s).
Proof. by apply tryCatch_bind_step. Qed.

Lemma handle_unfold this req s :
  handle this req s
  = tryCatch
      (pluginResponse <- runPluginHook this OnRequest
         (fun plugin => (fun h => h req) <$> onRequest plugin);;
       match pluginResponse with
       | Some response => returnAwait (runPluginResponseHook this req response)
       | None =>
           globalResp <- runMiddlewaresIn GlobalTier req (globalMws this);;
           match globalResp with
           | Some response => returnAwait (runPluginResponseHook this req response)
           | None =>
               pathResp <- runPathMiddlewares this req (req_pathname req);;
               match pathResp with
               | Some response => returnAwait (runPluginResponseHook this req response)
               | None =>
                   emit RouteLookup;;;
                   match matchRouteHandler this (req_method req) (req_pathname req) with
                   | None => returnAwait (runPluginResponseHook this req notFoundRes)
                   | Some (route, params) =>
                       routeMwResp <- runMiddlewaresIn RouteTier req
                                        (default [] (route_middleware route));;
                       match routeMwResp with
                       | Some response =>
                           returnAwait (runPluginResponseHook this req response)
                       | None =>
                           res <- route_handler route (authHandler this) req params;;
                           returnAwait
                             (runPluginResponseHook this req (setContentType res))
                       end
                   end
               end
           end
       end)
      (catchBlock this req) s.
Proof. reflexivity. Qed.

(** Every dispatch either reaches the on-response hooks with the response
    of one stage, or goes to the [catch] block from the stage that threw. *)
Lemma handle_cases this req s :
  (exists origin s0 before,
     handle this req s = prepend before (respond this req origin s0)
     ∧ stage this req origin before)
  ∨ (exists err s0 before,
       handle this req s = prepend before (catchBlock this req err s0)
       ∧ failedStage this req before).
Proof.
  rewrite handle_unfold.
  (* on-request hooks *)
  pose proof (runPluginHookLoop_cases OnRequest
                (fun plugin => (fun h => h req) <$> onRequest plugin) (plugins this) s)
    as [HevA HsomeA].
  fold (runPluginHook this OnRequest
          (fun plugin => (fun h => h req) <$> onRequest plugin)) in HevA, HsomeA.
  destruct (runPluginHook this OnRequest _ s) as [[[[r|]|err] s1] t1] eqn:HA;
    unfold traceOf, outcomeOf in HevA, HsomeA; simpl in HevA, HsomeA.
  { left. exists r, s1, t1. split.
    - by rewrite (tryCatch_bind_step _ _ _ _ _ _ _ HA).
    - left. destruct (HsomeA r eq_refl) as (pre & plugin & Ht1).
      exists pre, plugin. split; [exact Ht1|]. by eapply hookEvent_noTerminal. }
  2:{ right. exists err, s1, t1. split.
      - by rewrite (tryCatch_bind_threw _ _ _ _ _ _ _ HA).
      - left. by eapply hookEvent_noTerminal. }
  rewrite (tryCatch_bind_step _ _ _ _ _ _ _ HA).
  pose proof HevA as HevA'.
  apply hookEvent_noTerminal in HevA.
  (* global middleware *)
  pose proof (runMiddlewaresIn_cases GlobalTier req (globalMws this) s1) as HcB.
  destruct (runMiddlewaresIn GlobalTier req (globalMws this) s1)
    as [[[[r|]|err] s2] t2] eqn:HB;
    unfold traceOf, outcomeOf in HcB; simpl in HcB.
  { left. exists r, s2, (t1 ++ t2). split.
    - rewrite (tryCatch_bind_step _ _ _ _ _ _ _ HB). by rewrite prepend_prepend.
    - right; left. destruct HcB as (pre & label & -> & Hpre).
      exists (t1 ++ pre), GlobalTier, label. split; [by rewrite app_assoc|].
      split; [by apply noTerminal_app|]. intros _.
      pose proof (runMiddlewaresIn_emits GlobalTier req (globalMws this) s1) as Hev.
      rewrite HB in Hev. unfold traceOf in Hev. simpl in Hev.
      apply Forall_app in Hev as [Hev _].
      apply Forall_app. split.
      + eapply Forall_impl; [exact HevA'|]. intros e He. by left.
      + eapply Forall_impl; [exact Hev|]. intros e He. by right. }
  2:{ right. exists err, s2, (t1 ++ t2). split.
      - rewrite (tryCatch_bind_threw _ _ _ _ _ _ _ HB). by rewrite prepend_prepend.
      - left. by apply noTerminal_app. }
  rewrite (tryCatch_bind_step _ _ _ _ _ _ _ HB), prepend_prepend.
  assert (noTerminal (t1 ++ t2)) as H12 by by apply noTerminal_app.
  (* path-scoped middleware *)
  pose proof (runPathMiddlewaresLoop_cases req (req_pathname req) (pathMws this) s2)
    as HcC.
  fold (runPathMiddlewares this req (req_pathname req)) in HcC.
  destruct (runPathMiddlewares this req (req_pathname req) s2)
    as [[[[r|]|err] s3] t3] eqn:HC;
    unfold traceOf, outcomeOf in HcC; simpl in HcC.
  { left. exists r, s3, ((t1 ++ t2) ++ t3). split.
    - rewrite (tryCatch_bind_step _ _ _ _ _ _ _ HC). by rewrite prepend_prepend.
    - right; left. destruct HcC as (pre & label & -> & Hpre).
      exists ((t1 ++ t2) ++ pre), PathTier, label. split; [by rewrite app_assoc|].
      split; [by apply noTerminal_app | discriminate]. }
  2:{ right. exists err, s3, ((t1 ++ t2) ++ t3). split.
      - rewrite (tryCatch_bind_threw _ _ _ _ _ _ _ HC). by rewrite prepend_prepend.
      - left. by apply noTerminal_app. }
  rewrite (tryCatch_bind_step _ _ _ _ _ _ _ HC), prepend_prepend.
  assert (noTerminal ((t1 ++ t2) ++ t3)) as H123 by by apply noTerminal_app.
  (* route lookup *)
  rewrite tryCatch_emit_step, prepend_prepend.
  assert (noTerminal (((t1 ++ t2) ++ t3) ++ [RouteLookup])) as H1234.
  { apply noTerminal_app; [exact H123 | repeat constructor]. }
  destruct (matchRouteHandler this (req_method req) (req_pathname req))
    as [[route params]|] eqn:Hmatch.
  2:{ left. exists notFoundRes, s3, (((t1 ++ t2) ++ t3) ++ [RouteLookup]).
      split; [reflexivity|]. right; right; left. split; [reflexivity|].
      by eexists. }
  apply matchRouteHandlerLoop_elem in Hmatch.
  (* route-level middleware *)
  pose proof (runMiddlewaresIn_cases RouteTier req
                (default [] (route_middleware route)) s3) as HcE.
  destruct (runMiddlewaresIn RouteTier req (default [] (route_middleware route)) s3)
    as [[[[r|]|err] s5] t5] eqn:HE;
    unfold traceOf, outcomeOf in HcE; simpl in HcE.
  { left. exists r, s5, ((((t1 ++ t2) ++ t3) ++ [RouteLookup]) ++ t5). split.
    - rewrite (tryCatch_bind_step _ _ _ _ _ _ _ HE). by rewrite prepend_prepend.
    - right; left. destruct HcE as (pre & label & -> & Hpre).
      exists ((((t1 ++ t2) ++ t3) ++ [RouteLookup]) ++ pre), RouteTier, label.
      split; [by rewrite app_assoc|].
      split; [by apply noTerminal_app | discriminate]. }
  2:{ right. exists err, s5, ((((t1 ++ t2) ++ t3) ++ [RouteLookup]) ++ t5). split.
      - rewrite (tryCatch_bind_threw _ _ _ _ _ _ _ HE). by rewrite prepend_prepend.
      - left. by apply noTerminal_app. }
  rewrite (tryCatch_bind_step _ _ _ _ _ _ _ HE), prepend_prepend.
  assert (noTerminal ((((t1 ++ t2) ++ t3) ++ [RouteLookup]) ++ t5)) as H12345
    by by apply noTerminal_app.
  (* the stored handler of the route *)
  destruct (route_handler route (authHandler this) req params s5)
    as [[[res|err] s6] t6] eqn:HF.
  - left. exists (setContentType res), s6,
      (((((t1 ++ t2) ++ t3) ++ [RouteLookup]) ++ t5) ++ t6). split.
    + rewrite (tryCatch_bind_step _ _ _ _ _ _ _ HF). by rewrite prepend_prepend.
    + right; right; right. by eexists _, route, params, s5, s6, t6, res.
  - right. exists err, s6, (((((t1 ++ t2) ++ t3) ++ [RouteLookup]) ++ t5) ++ t6). split.
    + rewrite (tryCatch_bind_threw _ _ _ _ _ _ _ HF). by rewrite prepend_prepend.
    + right. exists ((((t1 ++ t2) ++ t3) ++ [RouteLookup]) ++ t5), route, params, s5.
      rewrite HF. by repeat split.
Qed.

(** *** Which events a computation can leave *)

Lemma emits_ret {A} P (a : A) : emits P (ret a).
Proof. intros s. constructor. Qed.

Lemma emits_throw {A} P err : emits P (@throw A err).
Proof. intros s. constructor. Qed.

Lemma emits_bind {A B} P (m : M A) (k : A -> M B) :
  emits P m -> (forall a, emits P (k a)) -> emits P (bind m k).
Proof.
  intros Hm Hk s. specialize (Hm s). unfold bind, traceOf in *.
  destruct (m s) as [[[a|err] s1] t1]; simpl in *; [|exact Hm].
  specialize (Hk a s1). unfold traceOf in Hk.
  destruct (k a s1) as [[o s2] t2]. simpl in *. apply Forall_app. by split.
Qed.

Lemma emits_tryCatch {A} P (m : M A) (h : Thrown -> M A) :
  emits P m -> (forall err, emits P (h err)) -> emits P (tryCatch m h).
Proof.
  intros Hm Hh s. specialize (Hm s). unfold tryCatch, traceOf in *.
  destruct (m s) as [[[a|err] s1] t1]; simpl in *; [exact Hm|].
  specialize (Hh err s1). unfold traceOf in Hh.
  destruct (h err s1) as [[o s2] t2]. simpl in *. apply Forall_app. by split.
Qed.

Lemma emits_call {A} (P : Event -> Prop) callee (response : A -> option Response) f :
  (forall result, P (Called callee result)) -> emits P (call callee response f).
Proof.
  intros HP s. unfold call, traceOf. destruct (f s) as [o s1]. simpl.
  repeat constructor. apply HP.
Qed.

Lemma emits_callOnHeap {A} (P : Event -> Prop) callee (response : A -> option Response) f :
  (forall result, P (Called callee result)) -> emits P (callOnHeap callee response f).
Proof. intros HP. by apply emits_call. Qed.

Lemma emits_attempt {A} P (m : M A) : emits P m -> emits P (attempt m).
Proof.
  intros Hm s. specialize (Hm s). unfold attempt, traceOf in *.
  by destruct (m s) as [[o s1] t1].
Qed.

Lemma emits_impl {A} (P Q : Event -> Prop) (m : M A) :
  (forall e, P e -> Q e) -> emits P m -> emits Q m.
Proof. intros HPQ Hm s. eapply Forall_impl; [apply Hm | exact HPQ]. Qed.

Lemma emits_clone P req : emits P (clone req).
Proof. intros s. unfold clone, traceOf. destruct (bodyUsed s); constructor. Qed.

(** The validation engine calls validators only. *)
Lemma validateRequest_emits req params validation :
  emits (fun e => routeEvent e = true) (validateRequest req params validation).
Proof.
  intros s.
  destruct (validateRequest_steps req params validation s)
    as (l1 & s1 & t1 & l2 & s2 & t2 & l3 & s3 & t3 & l4 & s4 & t4
        & H1 & H2 & H3 & H4 & Hrun).
  pose proof (validateParams_step params validation (initialData params, []) s) as S1.
  pose proof (validateQuery_step req validation l1 s1) as S2.
  pose proof (validateHeaders_step req validation l2 s2) as S3.
  pose proof (validateBody_step req validation l3 s3) as S4.
  rewrite H1 in S1. rewrite H2 in S2. rewrite H3 in S3. rewrite H4 in S4.
  rewrite Hrun. unfold traceOf. simpl.
  assert (forall facet l s l' s' t,
            facetStep facet l s (Returned l', s', t) ->
            Forall (fun e => routeEvent e = true) t) as Hstep.
  { intros facet l s0 l' s' t Hs.
    apply facetStep_inv in Hs as (l'' & s'' & t'' & Heq & _ & Hcases).
    injection Heq as <- <- <-.
    destruct Hcases as [[_ [->| ->]]|[(err & _ & ->)|(item & _ & _ & ->)]];
      repeat constructor. }
  apply Forall_app; split; [by eapply Hstep|].
  apply Forall_app; split; [by eapply Hstep|].
  apply Forall_app; split; by eapply Hstep.
Qed.

Lemma handleAuth_emits this req authConfig :
  emits (fun e => routeEvent e = true) (handleAuth this req authConfig).
Proof.
  unfold handleAuth.
  destruct (negb (authRequired authConfig)); [apply emits_ret|].
  destruct (config this) as [thisConfig|]; [|apply emits_ret].
  apply emits_tryCatch.
  - apply emits_bind; [by apply emits_call | intros a; apply emits_ret].
  - intros err. cbv zeta.
    match goal with
    | |- emits _ (match ?x with _ => _ end) => destruct x as [[owner h]|]
    end; [|apply emits_ret].
    apply emits_bind; [by apply emits_call | intros a; apply emits_ret].
Qed.

Lemma callUnawaited_emits handler req data :
  emits (fun e => routeEvent e = true) (callUnawaited handler req data).
Proof.
  unfold callUnawaited. apply emits_bind.
  - apply emits_attempt. by apply emits_call.
  - intros [res|err]; [apply emits_ret|].
    destruct (h_async handler); [apply emits_ret | apply emits_throw].
Qed.

Lemma settle_emits {A} P (o : Outcome A) : emits P (settle o).
Proof. destruct o; [apply emits_ret | apply emits_throw]. Qed.

Lemma validateThenHandle_emits validated passed params opts handler :
  emits (fun e => routeEvent e = true)
    (validateThenHandle validated passed params opts handler).
Proof.
  unfold validateThenHandle. apply emits_bind; [|intros o; apply settle_emits].
  apply emits_tryCatch.
  - apply emits_bind; [apply validateRequest_emits|].
    intros data. apply callUnawaited_emits.
  - intros [m|errors|v]; first [apply emits_ret | apply emits_throw].
Qed.

Lemma authenticateRequest_emits this req authConfig params validation handler :
  emits (fun e => routeEvent e = true)
    (authenticateRequest this req authConfig params validation handler).
Proof.
  unfold authenticateRequest. apply emits_bind; [apply handleAuth_emits|].
  intros [[authResponse|] authData]; simpl; [apply emits_ret|].
  apply emits_bind; [apply emits_clone|]. intros copy.
  apply emits_tryCatch.
  - apply emits_bind; [apply validateRequest_emits|].
    intros data. by apply emits_call.
  - intros [m|errors|v]; first [apply emits_ret | apply emits_throw].
Qed.

Lemma runAuth_emits thisAuthHandler req params opts handler :
  emits (fun e => routeEvent e = true)
    (runAuth thisAuthHandler req params opts handler).
Proof.
  unfold runAuth. destruct thisAuthHandler as [theHandler|];
    [|apply validateThenHandle_emits].
  destruct (negb (authRequired (rc_auth opts))); [apply validateThenHandle_emits|].
  destruct (rc_auth opts) as [|required|cfg].
  3: apply authenticateRequest_emits.
  all: apply emits_bind; [apply handleAuth_emits|];
    intros [[authRes|] authData]; simpl; [apply emits_ret|];
    (apply emits_bind; [apply emits_clone|]); intros copy;
    apply validateThenHandle_emits.
Qed.

(** The stored handler of a registered route runs the verify step, the
    error mapper, validators and the route handler, nothing else. *)
Lemma registered_emits route thisAuthHandler req params :
  registered route ->
  emits (fun e => routeEvent e = true) (route_handler route thisAuthHandler req params).
Proof.
  intros (opts & handler & [-> | ->]).
  - apply runAuth_emits.
  - apply validateThenHandle_emits.
Qed.

Lemma routeEvent_noTerminal t : Forall (fun e => routeEvent e = true) t -> noTerminal t.
Proof.
  intros H. eapply Forall_impl; [exact H|]. simpl.
  intros [[hook plugin|tier label|c|c|f| |] result|]; simpl; try discriminate;
    reflexivity.
Qed.

Lemma aftermath_noTerminal t : Forall (fun e => aftermath e = true) t -> noTerminal t.
Proof.
  intros H. eapply Forall_impl; [exact H|]. simpl.
  intros [[hook plugin|tier label|c|c|f| |] result|]; simpl; try discriminate;
    reflexivity.
Qed.

Lemma runPluginResponseHookLoop_emits req res ps :
  emits (fun e => aftermath e = true) (runPluginResponseHookLoop req res ps).
Proof.
  revert res. induction ps as [|plugin rest IH]; intros res; [apply emits_ret|].
  simpl. destruct (onResponse plugin) as [h|]; [|apply IH].
  apply emits_bind; [by apply emits_call|].
  intros [replacement|]; apply IH.
Qed.

Lemma runPluginHookLoop_emits hook select ps :
  emits (hookEvent hook) (runPluginHookLoop hook select ps).
Proof. intros s. apply runPluginHookLoop_cases. Qed.

Lemma handleError_emits this err req :
  emits (fun e => aftermath e = true) (handleError this err req).
Proof.
  unfold handleError. apply emits_bind.
  - eapply emits_impl; [|apply runPluginHookLoop_emits].
    by intros e (plugin & result & ->).
  - intros [response|]; [apply emits_ret|].
    destruct (router_onError this); [by apply emits_call | apply emits_ret].
Qed.

Lemma returnAwait_emits P m : emits P m -> emits P (returnAwait m).
Proof. intros H. apply emits_bind; [exact H | intros a; apply emits_ret]. Qed.

Lemma catchBlock_emits this req err :
  emits (fun e => aftermath e = true) (catchBlock this req err).
Proof.
  unfold catchBlock. apply emits_bind; [apply handleError_emits|].
  intros errorRes. apply returnAwait_emits, runPluginResponseHookLoop_emits.
Qed.

Lemma respond_emits this req res :
  emits (fun e => aftermath e = true) (respond this req res).
Proof.
  unfold respond. apply emits_tryCatch.
  - apply returnAwait_emits, runPluginResponseHookLoop_emits.
  - intros err. apply catchBlock_emits.
Qed.

(** *** The route table holds registered routes *)

Lemma newRouter_registered opts : Forall registered (routes (newRouter opts)).
Proof. constructor. Qed.

Lemma use_routes this mw path : routes (use this mw path) = routes this.
Proof. unfold use. destruct path as [p|]; [destruct (Js.truthy p)|]; reflexivity. Qed.

Lemma configureAuth_routes this cfg : routes (configureAuth this cfg) = routes this.
Proof. reflexivity. Qed.

Lemma use_plugins this mw path : plugins (use this mw path) = plugins this.
Proof. unfold use. destruct path as [p|]; [destruct (Js.truthy p)|]; reflexivity. Qed.

(** Registering a plugin puts it last in the plugin list and leaves the
    route table alone. *)
Lemma registerPlugin_routes this plugin s :
  exists router o s' t,
    registerPlugin this plugin s = (Returned (router, o), s', t)
    ∧ routes router = routes this
    ∧ plugins router = plugins this ++ [plugin].
Proof.
  unfold registerPlugin. destruct (onInit plugin) as [init|].
  - unfold bind, attempt, call. destruct (init s) as [[uses|err] s1]; simpl.
    + eexists _, _, _, _. split; [reflexivity|]. split.
      * induction uses as [|u uses IH] using rev_ind; [reflexivity|].
        rewrite foldl_snoc. by rewrite use_routes.
      * induction uses as [|u uses IH] using rev_ind; [reflexivity|].
        rewrite foldl_snoc. by rewrite use_plugins.
    + eexists _, _, _, _. by split.
  - eexists _, _, _, _. by split.
Qed.

(** [addRoute], in both variants, comes back with a route table that
    holds the routes it had and at most one more, stored by [addRoute]. *)
Lemma addRoute_registered this method path opts handler s :
  Forall registered (routes this) ->
  exists router o s' t,
    addRoute this method path opts handler s = (Returned (router, o), s', t)
    ∧ Forall registered (routes router).
Proof.
  intros Hreg. unfold addRoute, bind, attempt.
  destruct (runPluginHook this OnBeforeRouteRegister _ s) as [[[before|err] s1] t1];
    simpl.
  - match goal with
    | |- context [runPluginHook ?r OnAfterRouteRegister ?sel s1] =>
        destruct (runPluginHook r OnAfterRouteRegister sel s1) as [[[after|err] s2] t2]
    end; simpl; eexists _, _, _, _; (split; [reflexivity|]); simpl;
      (apply Forall_app; split; [exact Hreg|]); repeat constructor;
      exists opts, handler; by left.
  - eexists _, _, _, _. split; [reflexivity | exact Hreg].
Qed.

Lemma addRoute_rewrite_registered this method path opts handler s :
  Forall registered (routes this) ->
  exists router o s' t,
    RouterTsRewrite.addRoute this method path opts handler s
    = (Returned (router, o), s', t)
    ∧ Forall registered (routes router).
Proof.
  intros Hreg. unfold RouterTsRewrite.addRoute, bind, attempt.
  destruct (RouterTsRewrite.beforeRouteRegisterLoop method path opts handler
              (plugins this) s) as [[[[finalOpts finalHandler]|err] s1] t1]; simpl.
  - match goal with
    | |- context [runPluginHook ?r OnAfterRouteRegister ?sel s1] =>
        destruct (runPluginHook r OnAfterRouteRegister sel s1) as [[[after|err] s2] t2]
    end; simpl; eexists _, _, _, _; (split; [reflexivity|]); simpl;
      (apply Forall_app; split; [exact Hreg|]); repeat constructor;
      exists finalOpts, finalHandler; by right.
  - eexists _, _, _, _. split; [reflexivity | exact Hreg].
Qed.

(** Every router the public methods can build holds registered routes
    only. *)
Lemma reachable_registered this : reachable this -> Forall registered (routes this).
Proof.
  induction 1 as [opts|opts|this mw path _ IH|this cfg _ IH
                 |this plugin s router o s' t _ IH Hrun
                 |this method path opts handler s router o s' t _ IH Hrun
                 |this method path opts handler s router o s' t _ IH Hrun].
  - constructor.
  - constructor.
  - by rewrite use_routes.
  - exact IH.
  - destruct (registerPlugin_routes this plugin s)
      as (router' & o' & s'' & t'' & Hrun' & Hroutes & _).
    rewrite Hrun in Hrun'. injection Hrun' as <- <- <- <-. by rewrite Hroutes.
  - destruct (addRoute_registered this method path opts handler s IH)
      as (router' & o' & s'' & t'' & Hrun' & Hreg).
    rewrite Hrun in Hrun'. by injection Hrun' as <- <- <- <-.
  - destruct (addRoute_rewrite_registered this method path opts handler s IH)
      as (router' & o' & s'' & t'' & Hrun' & Hreg).
    rewrite Hrun in Hrun'. by injection Hrun' as <- <- <- <-.
Qed.

(** *** What the dispatch returns *)

Lemma returnAwait_run m s :
  returnAwait m s
  = match m s with
    | (Returned res, s1, t1) => (Returned (Some res), s1, t1)
    | (Threw err, s1, t1) => (Threw err, s1, t1)
    end.
Proof.
  unfold returnAwait, bind, ret. destruct (m s) as [[[res|err] s1] t1];
    [by rewrite app_nil_r | reflexivity].
Qed.

(** The [catch] block returns when the error translation and the
    on-response hooks after it return. *)
Lemma catchBlock_returned this req err s v :
  outcomeOf (catchBlock this req err s) = Returned v ->
  exists origin s1 te res after,
    handleError this err req s = (Returned origin, s1, te)
    ∧ runPluginResponseHook this req origin s1
      = (Returned res, storeOf (catchBlock this req err s), after)
    ∧ v = Some res
    ∧ traceOf (catchBlock this req err s) = te ++ after.
Proof.
  unfold catchBlock.
  destruct (handleError this err req s) as [[[origin|e] s1] te] eqn:He.
  - rewrite (bind_step _ _ _ _ _ _ He). rewrite returnAwait_run.
    destruct (runPluginResponseHook this req origin s1) as [[[res|e] s2] after] eqn:Hr;
      unfold prepend, outcomeOf, storeOf, traceOf; simpl; [|discriminate].
    intros [= <-]. by exists origin, s1, te, res, after.
  - rewrite (bind_threw _ _ _ _ _ _ He). discriminate.
Qed.

Lemma respond_run this req res s :
  respond this req res s
  = match runPluginResponseHook this req res s with
    | (Returned res', s1, t1) => (Returned (Some res'), s1, t1)
    | (Threw err, s1, t1) => prepend t1 (catchBlock this req err s1)
    end.
Proof.
  unfold respond, tryCatch. rewrite returnAwait_run.
  destruct (runPluginResponseHook this req res s) as [[[res'|err] s1] t1];
    [reflexivity|].
  by destruct (catchBlock this req err s1) as [[o s2] t2].
Qed.

Lemma stage_produced this req origin before :
  stage this req origin before -> produced this req origin before.
Proof.
  intros [(pre & plugin & -> & _)|[(pre & tier & label & -> & _)
         |[(-> & pre & -> & _)|(pre & route & params & s1 & s2 & th & res
                                & _ & Hrun & -> & -> & _)]]].
  - left. by eexists _, _.
  - right; left. by eexists _, _, _.
  - right; right; left. split; [reflexivity | by eexists].
  - right; right; right; left. by eexists _, route, params, s1, s2, th, res.
Qed.

Lemma catchBlock_endsWithHooks this req err s before :
  endsWithHooks this req (prepend before (catchBlock this req err s)).
Proof.
  intros v Hv. rewrite outcomeOf_prepend in Hv.
  apply catchBlock_returned in Hv as (origin & s1 & te & res & after
                                      & He & Hr & -> & Ht).
  exists origin, s1, (before ++ te), after, res.
  rewrite traceOf_prepend, storeOf_prepend, Ht. repeat split.
  - by rewrite app_assoc.
  - right; right; right; right. by eexists _, err, s, s1, te.
  - exact Hr.
Qed.

Lemma handle_endsWithHooks this req s : endsWithHooks this req (handle this req s).
Proof.
  destruct (handle_cases this req s)
    as [(origin & s0 & before & -> & Hstage)|(err & s0 & before & -> & _)].
  - rewrite respond_run.
    destruct (runPluginResponseHook this req origin s0) as [[[res|err] s1] t1] eqn:Hr.
    + intros v [= <-]. exists origin, s0, before, t1, res.
      repeat split; [by apply stage_produced | exact Hr].
    + rewrite prepend_prepend. apply catchBlock_endsWithHooks.
  - apply catchBlock_endsWithHooks.
Qed.

(** C8.  Whenever a dispatch returns, what it returns is a response and
    that response was produced by one of the stages (an on-request hook, a
    middleware, the failed route lookup, the handler of the route, the
    error translation) and then handed through the on-response hooks: every
    plugin that has the hook was called, in registration order, each with
    the response as the plugins before it left it, whether or not they
    replaced it; the trace ends with exactly these calls. *)
Theorem on_response_runs_all this req s v :
  outcomeOf (handle this req s) = Returned v ->
  exists origin s0 before after res,
    v = Some res
    ∧ traceOf (handle this req s) = before ++ after
    ∧ produced this req origin before
    ∧ responseChain req (plugins this) origin s0 res (storeOf (handle this req s)) after
    ∧ callees after = PluginHook OnResponse <$> responders (plugins this).
Proof.
  intros Hv.
  destruct (handle_endsWithHooks this req s v Hv)
    as (origin & s0 & before & after & res & -> & Ht & Hprod & Hrun).
  apply runPluginResponseHookLoop_chain in Hrun.
  exists origin, s0, before, after, res. repeat split; try assumption.
  by eapply responseChain_callees.
Qed.

(** C10.  [handle] never comes back with the null signal; when the
    on-request hooks and the global and path-scoped middleware let the
    request through and no route matches, it returns what the on-response
    hooks make of the 404 response whose body is the JSON object with the
    one field [error] set to [Not Found]. *)
Theorem handle_never_null :
  (forall this req s, outcomeOf (handle this req s) ≠ Returned None)
  ∧ (forall this req s s1 t1 s2 t2 s3 t3 res s4 t4,
       runPluginHook this OnRequest
         (fun plugin => (fun h => h req) <$> onRequest plugin) s
       = (Returned None, s1, t1) ->
       runMiddlewaresIn GlobalTier req (globalMws this) s1 = (Returned None, s2, t2) ->
       runPathMiddlewares this req (req_pathname req) s2 = (Returned None, s3, t3) ->
       matchRouteHandler this (req_method req) (req_pathname req) = None ->
       runPluginResponseHook this req notFoundRes s3 = (Returned res, s4, t4) ->
       handle this req s
       = (Returned (Some res), s4, t1 ++ t2 ++ t3 ++ [RouteLookup] ++ t4))
  ∧ status notFoundRes = 404%Z
  ∧ res_body notFoundRes = BodyStringify (JObj [("error", JStr "Not Found")]).
Proof.
  split; [|split; [|split; reflexivity]].
  - intros this req s Hnull.
    destruct (handle_endsWithHooks this req s None Hnull)
      as (origin & s0 & before & after & res & Hres & _).
    discriminate.
  - intros this req s s1 t1 s2 t2 s3 t3 res s4 t4 HA HB HC Hmatch Hr.
    rewrite handle_unfold.
    rewrite (tryCatch_bind_step _ _ _ _ _ _ _ HA).
    rewrite (tryCatch_bind_step _ _ _ _ _ _ _ HB).
    rewrite (tryCatch_bind_step _ _ _ _ _ _ _ HC).
    rewrite tryCatch_emit_step, Hmatch.
    fold (respond this req notFoundRes). rewrite respond_run, Hr.
    unfold prepend, outcomeOf, storeOf, traceOf. simpl. reflexivity.
Qed.

(** The statement of C8 at a request that a global middleware blocks, on
    a router with two plugins that both replace the response. *)
Lemma on_response_runs_all_witness :
  exists origin s0 before after res,
    Some (withHeader "x-second" "1"
            (withHeader "x-first" "1" (textResponse 401 "Unauthorized")))
    = Some res
    ∧ traceOf (handle blockedRouter (getRequest "/test") emptyStore) = before ++ after
    ∧ produced blockedRouter (getRequest "/test") origin before
    ∧ responseChain (getRequest "/test") (plugins blockedRouter) origin s0 res
        (storeOf (handle blockedRouter (getRequest "/test") emptyStore)) after
    ∧ callees after
      = PluginHook OnResponse <$> responders (plugins blockedRouter).
Proof.
  apply (on_response_runs_all blockedRouter (getRequest "/test") emptyStore).
  vm_compute. reflexivity.
Defined.

(** The statement of C10 at a request for a path no route has. *)
Lemma handle_never_null_witness :
  outcomeOf (handle plainRouter (getRequest "/nothing") emptyStore) ≠ Returned None
  ∧ handle plainRouter (getRequest "/nothing") emptyStore
    = (Returned (Some (withHeader "x-first" "1" notFoundRes)), emptyStore,
       [Called (MiddlewareFn GlobalTier "logger") (Returned None);
        RouteLookup;
        Called (PluginHook OnResponse "x-first")
          (Returned (Some (withHeader "x-first" "1" notFoundRes)))]).
Proof.
  split.
  - apply (proj1 handle_never_null).
  - apply (proj1 (proj2 handle_never_null) plainRouter (getRequest "/nothing")
             emptyStore emptyStore [] emptyStore
             [Called (MiddlewareFn GlobalTier "logger") (Returned None)]
             emptyStore []
             (withHeader "x-first" "1" notFoundRes) emptyStore
             [Called (PluginHook OnResponse "x-first")
                (Returned (Some (withHeader "x-first" "1" notFoundRes)))]);
      vm_compute; reflexivity.
Defined.

(** *** Middleware short-circuit *)

(** A trace with a single terminal middleware event splits around it in
    one way only. *)
Lemma terminal_unique (pre0 : list Event) ev0 post0 pre ev post :
  pre0 ++ ev0 :: post0 = pre ++ ev :: post ->
  noTerminal pre0 -> noTerminal post0 -> terminalMiddleware ev = true ->
  pre = pre0 ∧ ev = ev0 ∧ post = post0.
Proof.
  revert pre. induction pre0 as [|e0 pre0 IH]; intros pre Heq Hpre0 Hpost0 Hev.
  - destruct pre as [|e pre]; simpl in Heq.
    + by injection Heq as <- <-.
    + injection Heq as -> ->. exfalso.
      apply Forall_app in Hpost0 as [_ Hpost0].
      apply Forall_cons in Hpost0 as [Hno _]. congruence.
  - apply Forall_cons in Hpre0 as [Hno Hpre0].
    destruct pre as [|e pre]; simpl in Heq.
    + injection Heq as -> _. congruence.
    + injection Heq as -> Heq.
      destruct (IH pre Heq Hpre0 Hpost0 Hev) as (-> & -> & ->). done.
Qed.

Lemma noTerminal_absent pre ev post :
  noTerminal (pre ++ ev :: post) -> terminalMiddleware ev = true -> False.
Proof.
  intros H Hev. apply Forall_app in H as [_ H].
  apply Forall_cons in H as [Hno _]. congruence.
Qed.

(** C7.  On a router whose routes were stored by [addRoute]: when a
    middleware of any tier returns a terminal response, no middleware
    before it was terminal, nothing follows it but what [handle] does with
    a produced response (the on-response hooks and, if one of them throws,
    the error translation): no other middleware, no route lookup, no verify
    step or error mapper, no validator, no route handler; before a
    terminal global middleware only on-request hooks and global middleware
    ran; and the dispatch returns that response as the on-response hooks
    leave it. *)
Theorem middleware_short_circuit this req s pre tier label response post :
  Forall registered (routes this) ->
  traceOf (handle this req s)
  = pre ++ Called (MiddlewareFn tier label) (Returned (Some response)) :: post ->
  noTerminal pre
  ∧ (tier = GlobalTier -> Forall early pre)
  ∧ Forall (fun e => aftermath e = true) post
  ∧ exists s0,
      respond this req response s0
      = (outcomeOf (handle this req s), storeOf (handle this req s), post)
      ∧ forall res s' t',
          runPluginResponseHook this req response s0 = (Returned res, s', t') ->
          outcomeOf (handle this req s) = Returned (Some res) ∧ post = t'.
Proof.
  intros Hreg Htrace.
  assert (forall err s0, noTerminal (traceOf (catchBlock this req err s0))) as Hcatch.
  { intros err s0. apply aftermath_noTerminal, catchBlock_emits. }
  assert (forall res s0, noTerminal (traceOf (respond this req res s0))) as Hresp.
  { intros res s0. apply aftermath_noTerminal, respond_emits. }
  destruct (handle_cases this req s)
    as [(origin & s0 & before & Hrun & Hstage)|(err & s0 & before & Hrun & Hfail)];
    rewrite Hrun in *; rewrite traceOf_prepend in Htrace.
  - destruct Hstage as [(pre0 & plugin & _ & Hno)|[(pre0 & tier0 & label0 & -> & Hno & Hearly)
         |[(_ & pre0 & _ & Hno)|(pre0 & route & params & s1 & s2 & th & res
                                & Hin & Hroute & _ & -> & Hno)]]].
    + exfalso.
      apply (noTerminal_absent pre _ post) with (2 := eq_refl _ : terminalMiddleware
               (Called (MiddlewareFn tier label) (Returned (Some response))) = true).
      rewrite <- Htrace. by apply noTerminal_app.
    + rewrite <- app_assoc in Htrace. simpl in Htrace.
      apply terminal_unique in Htrace as (-> & Hev & ->);
        [|exact Hno | apply Hresp | reflexivity].
      injection Hev as -> -> ->.
      split; [exact Hno|]. split; [exact Hearly|].
      split; [apply respond_emits|].
      exists s0. rewrite outcomeOf_prepend, storeOf_prepend.
      split; [apply result_eta|].
      intros res s' t' Hr. rewrite respond_run, Hr. by split.
    + exfalso.
      apply (noTerminal_absent pre _ post) with (2 := eq_refl _ : terminalMiddleware
               (Called (MiddlewareFn tier label) (Returned (Some response))) = true).
      rewrite <- Htrace. by apply noTerminal_app.
    + exfalso.
      apply (noTerminal_absent pre _ post) with (2 := eq_refl _ : terminalMiddleware
               (Called (MiddlewareFn tier label) (Returned (Some response))) = true).
      rewrite <- Htrace. apply noTerminal_app; [|apply Hresp].
      apply noTerminal_app; [exact Hno|].
      apply routeEvent_noTerminal.
      rewrite Forall_forall in Hreg.
      pose proof (registered_emits route (authHandler this) req params
                    (Hreg route Hin) s1) as Hev.
      by rewrite Hroute in Hev.
  - exfalso.
    apply (noTerminal_absent pre _ post) with (2 := eq_refl _ : terminalMiddleware
             (Called (MiddlewareFn tier label) (Returned (Some response))) = true).
    rewrite <- Htrace. apply noTerminal_app; [|apply Hcatch].
    destruct Hfail as [Hno|(pre0 & route & params & s1 & Hin & -> & Hno)];
      [exact Hno|].
    apply noTerminal_app; [exact Hno|].
    apply routeEvent_noTerminal.
    rewrite Forall_forall in Hreg.
    apply (registered_emits route (authHandler this) req params (Hreg route Hin) s1).
Qed.

(** The statement of C7 at a request blocked by the second of three
    global middlewares. *)
Lemma middleware_short_circuit_witness :
  noTerminal [Called (MiddlewareFn GlobalTier "logger") (Returned None)]
  ∧ (GlobalTier = GlobalTier ->
     Forall early [Called (MiddlewareFn GlobalTier "logger") (Returned None)])
  ∧ Forall (fun e => aftermath e = true)
      [Called (PluginHook OnResponse "x-first")
         (Returned (Some (withHeader "x-first" "1" (textResponse 401 "Unauthorized"))));
       Called (PluginHook OnResponse "x-second")
         (Returned (Some (withHeader "x-second" "1"
                            (withHeader "x-first" "1"
                               (textResponse 401 "Unauthorized")))))]
  ∧ exists s0,
      respond blockedRouter (getRequest "/test") (textResponse 401 "Unauthorized") s0
      = (outcomeOf (handle blockedRouter (getRequest "/test") emptyStore),
         storeOf (handle blockedRouter (getRequest "/test") emptyStore),
         [Called (PluginHook OnResponse "x-first")
            (Returned (Some (withHeader "x-first" "1"
                               (textResponse 401 "Unauthorized"))));
          Called (PluginHook OnResponse "x-second")
            (Returned (Some (withHeader "x-second" "1"
                               (withHeader "x-first" "1"
                                  (textResponse 401 "Unauthorized")))))])
      ∧ forall res s' t',
          runPluginResponseHook blockedRouter (getRequest "/test")
            (textResponse 401 "Unauthorized") s0 = (Returned res, s', t') ->
          outcomeOf (handle blockedRouter (getRequest "/test") emptyStore)
          = Returned (Some res)
          ∧ [Called (PluginHook OnResponse "x-first")
               (Returned (Some (withHeader "x-first" "1"
                                  (textResponse 401 "Unauthorized"))));
             Called (PluginHook OnResponse "x-second")
               (Returned (Some (withHeader "x-second" "1"
                                  (withHeader "x-first" "1"
                                     (textResponse 401 "Unauthorized")))))]
            = t'.
Proof.
  apply (middleware_short_circuit blockedRouter (getRequest "/test") emptyStore
           [Called (MiddlewareFn GlobalTier "logger") (Returned None)]
           GlobalTier "blocker" (textResponse 401 "Unauthorized")).
  - repeat constructor. exists noOpts, (okHandler "test"). by left.
  - vm_compute. reflexivity.
Defined.

End DispatchFacts.

(** ** AuthGate *)

Module AuthFacts.

Import RouterUtils RouterTypes AuthHandlerClass RouterTs ValidationSpec DispatchSpec
  Scenarios.

(** Without an [AuthHandler] on the router, [runAuth] never looks at the
    [auth] option of the route. *)
Lemma runAuth_without_handler req params opts handler :
  runAuth None req params opts handler
  = validateThenHandle req req params opts handler.
Proof. reflexivity. Qed.

(** A router has an [AuthHandler] only when it was given a config. *)
Lemma newRouter_authHandler opts :
  authHandler (newRouter opts)
  = (fun cfg => {| config := Some cfg |}) <$> (opts ≫= opt_auth).
Proof. unfold newRouter. simpl. by destruct (opts ≫= opt_auth). Qed.

(** [handleAuth] answers 500 when it is asked to authenticate and holds
    no config. *)
Lemma handleAuth_misconfigured req authConfig s :
  authRequired authConfig = true ->
  handleAuth {| config := None |} req authConfig s
  = (Returned (Some misconfiguredRes, None), s, []).
Proof. unfold handleAuth. by intros ->. Qed.

(** C1 at its failing input.  On a router that was never given an auth
    config, dispatching a request for a route registered with [auth: true]
    calls the route handler and returns its response; the 500 of
    [handleAuth] is not produced. *)
Theorem auth_true_without_config_runs_handler :
  handle openRouter (getRequest "/protected") emptyStore
  = (Returned (Some (textResponse 200 "protected data")),
     emptyStore,
     [RouteLookup;
      Called HandlerFn (Returned (Some (textResponse 200 "protected data")))])
  ∧ status (textResponse 200 "protected data") = 200%Z
  ∧ authHandler openRouter = None.
Proof. repeat split; vm_compute; reflexivity. Qed.

(** The route-level config is all [authenticateRequest] reads: the
    handler it is called on, which holds the global config, plays no
    part. *)
Lemma authenticateRequest_ignores_this this this' req authConfig params validation
    handler :
  authenticateRequest this req authConfig params validation handler
  = authenticateRequest this' req authConfig params validation handler.
Proof. reflexivity. Qed.

(** Whatever the handler it is called on holds: when the config object of
    the route has no error mapper and its verify step throws,
    [authenticateRequest] answers the default 401 after that one call. *)
Lemma authenticateRequest_verify_fails this req cfg params validation handler s err s1 :
  ac_onError cfg = None ->
  ac_verify cfg req s = (Threw err, s1) ->
  authenticateRequest this req cfg params validation handler s
  = (Returned (verifyFailedRes (errorMessage (asError err))), s1,
     [Called (VerifyFn (ac_label cfg)) (Threw err)]).
Proof.
  intros Hmapper Hverify.
  unfold authenticateRequest, handleAuth, bind, tryCatch, call, ret. simpl.
  rewrite Hverify, Hmapper. reflexivity.
Qed.

(** Called directly with the route-level object, [handleAuth] does fall
    back to the error mapper of the config it holds. *)
Lemma handleAuth_falls_back :
  handleAuth {| config := Some globalAuth |} (getRequest "/protected")
    (AuthObject routeAuth) emptyStore
  = (Returned (Some (textResponse 403 "global mapper"), None), emptyStore,
     [Called (VerifyFn "route") (Threw (ErrorObject "bad token"));
      Called (AuthOnError "global")
        (Returned (Some (textResponse 403 "global mapper")))]).
Proof. vm_compute. reflexivity. Qed.

(** C2 at its failing input.  The router holds a global config whose error
    mapper answers 403; the route has a config object of its own, with a
    verify step that throws and no error mapper.  The dispatch calls the
    verify step of the route and answers the default 401: the global error
    mapper is not called. *)
Theorem route_auth_object_skips_global_mapper :
  handle twoScopeRouter (getRequest "/protected") emptyStore
  = (Returned (Some (verifyFailedRes "bad token")), emptyStore,
     [RouteLookup; Called (VerifyFn "route") (Threw (ErrorObject "bad token"))])
  ∧ status (verifyFailedRes "bad token") = 401%Z
  ∧ (config <$> authHandler twoScopeRouter) ≫= (fun c => ac_label <$> c)
    = Some "global".
Proof. repeat split; vm_compute; reflexivity. Qed.

(** On a router without a global config the config object of the route is
    not used at all: the verify step is not called. *)
Lemma route_auth_object_without_global :
  handle routeOnlyRouter (getRequest "/protected") emptyStore
  = (Returned (Some (textResponse 200 "protected data")),
     emptyStore,
     [RouteLookup;
      Called HandlerFn (Returned (Some (textResponse 200 "protected data")))]).
Proof. vm_compute. reflexivity. Qed.

End AuthFacts.

(** ** Registration *)

Module RegistrationFacts.

Import RouterUtils RouterTypes AuthHandlerClass ValidationSpec DispatchSpec Scenarios.
Import RouterTsRewrite.

(** The loop of [addRoute] returns exactly along a chain of the
    specification. *)
Lemma beforeRouteRegisterLoop_chain method path ps opts handler s opts' handler' s' t :
  beforeRouteRegisterLoop method path opts handler ps s
  = (Returned (opts', handler'), s', t)
  <-> rewriteChain method path ps opts handler s opts' handler' s' t.
Proof.
  split.
  - revert opts handler s t.
    induction ps as [|plugin rest IH]; intros opts handler s t Hrun.
    + injection Hrun as <- <- <- <-. constructor.
    + simpl in Hrun. destruct (onBeforeRouteRegister plugin) as [h|] eqn:Hh.
      * unfold bind, call in Hrun.
        destruct (h method path opts (Some handler) s) as [[result|err] s1] eqn:Hcall;
          [|discriminate].
        simpl in Hrun.
        match type of Hrun with
        | match ?run with _ => _ end = _ =>
            destruct run as [[o s2] t2] eqn:Hrest
        end.
        injection Hrun as -> <- <-.
        eapply rewrite_call; [exact Hh | exact Hcall |].
        apply IH. rewrite <- Hrest.
        by destruct result as [|response|[o1|] [h1|]].
      * apply rewrite_skip; [exact Hh|]. by apply IH.
  - induction 1 as [opts handler s
                   |plugin rest opts handler s opts' handler' s' t Hh _ IH
                   |plugin rest h opts handler s result s1 opts' handler' s' t
                      Hh Hcall _ IH].
    + reflexivity.
    + simpl. by rewrite Hh.
    + simpl. rewrite Hh. unfold bind, call. rewrite Hcall. simpl.
      destruct result as [|response|[o1|] [h1|]]; simpl in IH |- *; by rewrite IH.
Qed.

(** What [addRoute] stores is built from the config and handler the loop
    ends with. *)
Lemma addRoute_stores this method path opts handler s finalOpts finalHandler s1 t1 :
  beforeRouteRegisterLoop method path opts handler (plugins this) s
  = (Returned (finalOpts, finalHandler), s1, t1) ->
  exists router o s2 t2,
    addRoute this method path opts handler s = (Returned (router, o), s2, t2)
    ∧ routes router
      = routes this
        ++ [{| route_path := path; route_method := method;
               route_handler := wrapped finalOpts finalHandler;
               route_middleware := rc_middleware finalOpts |}].
Proof.
  intros Hloop. unfold addRoute, bind, RouterTs.attempt. rewrite Hloop. simpl.
  match goal with
  | |- context [RouterTs.runPluginHook ?r OnAfterRouteRegister ?sel s1] =>
      destruct (RouterTs.runPluginHook r OnAfterRouteRegister sel s1)
        as [[[after|err] s2] t2]
  end; simpl; eexists _, _, _, _; split; reflexivity.
Qed.

(** Two wrapping plugins: the handler the loop ends with is the wrapper of
    the second around the wrapper of the first around the handler. *)
Lemma two_wrappers p1 p2 w1 w2 method path opts handler s :
  wrapsWith p1 w1 -> wrapsWith p2 w2 ->
  exists t,
    beforeRouteRegisterLoop method path opts handler [p1; p2] s
    = (Returned (opts, w2 (w1 handler)), s, t).
Proof.
  intros (h1 & Hh1 & Hw1) (h2 & Hh2 & Hw2).
  simpl. rewrite Hh1, Hh2. unfold bind, call.
  rewrite Hw1. simpl. rewrite Hw2. simpl. eexists. reflexivity.
Qed.

(** The [addRoute] of the variant with the authentication gate calls the
    hooks through [runPluginHook] and drops what they return: the route it
    stores is built from the config and handler it was called with. *)
Lemma addRoute_drops_rewrites this method path opts handler s router o s' t :
  RouterTs.addRoute this method path opts handler s = (Returned (router, o), s', t) ->
  routes router = routes this
  ∨ routes router
    = routes this
      ++ [{| route_path := path; route_method := method;
             route_handler := RouterTs.wrapped opts handler;
             route_middleware := rc_middleware opts |}].
Proof.
  unfold RouterTs.addRoute, bind, RouterTs.attempt.
  destruct (RouterTs.runPluginHook this OnBeforeRouteRegister _ s)
    as [[[before|err] s1] t1]; simpl.
  - match goal with
    | |- context [RouterTs.runPluginHook ?r OnAfterRouteRegister ?sel s1] =>
        destruct (RouterTs.runPluginHook r OnAfterRouteRegister sel s1)
          as [[[after|err] s2] t2]
    end; simpl; intros [= <- _ _ _]; by right.
  - intros [= <- _ _ _]. by left.
Qed.

(** C3, as amended.  The before-route-register hooks are run as a chained
    rewrite in registration order, each hook receiving the config and
    handler as the hooks before it left them; the route stored is built
    from the config and handler the last rewrite left (its middleware list
    is that of the final config); and with two plugins that each wrap the
    handler, the stored handler is the wrapper of the plugin registered
    second around the wrapper of the plugin registered first around the
    handler: the wrapper registered last is the outermost. *)
Theorem addRoute_chained_rewrite :
  (forall method path ps opts handler s opts' handler' s' t,
     beforeRouteRegisterLoop method path opts handler ps s
     = (Returned (opts', handler'), s', t)
     <-> rewriteChain method path ps opts handler s opts' handler' s' t)
  ∧ (forall this method path opts handler s finalOpts finalHandler s1 t1,
       rewriteChain method path (plugins this) opts handler s
         finalOpts finalHandler s1 t1 ->
       exists router o s2 t2,
         addRoute this method path opts handler s = (Returned (router, o), s2, t2)
         ∧ routes router
           = routes this
             ++ [{| route_path := path; route_method := method;
                    route_handler := wrapped finalOpts finalHandler;
                    route_middleware := rc_middleware finalOpts |}])
  ∧ (forall p1 p2 w1 w2 method path opts handler s,
       wrapsWith p1 w1 -> wrapsWith p2 w2 ->
       exists t,
         rewriteChain method path [p1; p2] opts handler s
           opts (w2 (w1 handler)) s t).
Proof.
  split; [|split].
  - intros. apply beforeRouteRegisterLoop_chain.
  - intros this method path opts handler s finalOpts finalHandler s1 t1 Hchain.
    apply beforeRouteRegisterLoop_chain in Hchain. by eapply addRoute_stores.
  - intros p1 p2 w1 w2 method path opts handler s H1 H2.
    destruct (two_wrappers p1 p2 w1 w2 method path opts handler s H1 H2) as (t & Ht).
    exists t. by apply beforeRouteRegisterLoop_chain.
Qed.

Lemma wrappingPlugin_wrapsWith who : wrapsWith (wrappingPlugin who) (wrapWith who).
Proof. eexists. split; reflexivity. Qed.

(** The statement of C3 at two wrapping plugins registered as [first] and
    [second]. *)
Lemma addRoute_chained_rewrite_witness :
  exists t router o s2 t2,
    rewriteChain "GET" "/wrapped" [wrappingPlugin "first"; wrappingPlugin "second"]
      noOpts notingHandler emptyStore
      noOpts (wrapWith "second" (wrapWith "first" notingHandler)) emptyStore t
    ∧ addRoute
        (built (RouterTs.registerPlugin
                  (built (RouterTs.registerPlugin (newRouter None)
                            (wrappingPlugin "first")) (newRouter None))
                  (wrappingPlugin "second")) (newRouter None))
        "GET" "/wrapped" noOpts notingHandler emptyStore
      = (Returned (router, o), s2, t2)
    ∧ routes router
      = [{| route_path := "/wrapped"; route_method := "GET";
            route_handler :=
              wrapped noOpts (wrapWith "second" (wrapWith "first" notingHandler));
            route_middleware := None |}].
Proof.
  destruct (proj2 (proj2 addRoute_chained_rewrite)
              (wrappingPlugin "first") (wrappingPlugin "second")
              (wrapWith "first") (wrapWith "second")
              "GET" "/wrapped" noOpts notingHandler emptyStore
              (wrappingPlugin_wrapsWith "first") (wrappingPlugin_wrapsWith "second"))
    as (t & Hchain).
  destruct (proj1 (proj2 addRoute_chained_rewrite)
              (built (RouterTs.registerPlugin
                        (built (RouterTs.registerPlugin (newRouter None)
                                  (wrappingPlugin "first")) (newRouter None))
                        (wrappingPlugin "second")) (newRouter None))
              "GET" "/wrapped" noOpts notingHandler emptyStore
              noOpts (wrapWith "second" (wrapWith "first" notingHandler)) emptyStore t
              Hchain)
    as (router & o & s2 & t2 & Hadd & Hroutes).
  exists t, router, o, s2, t2. split; [exact Hchain|]. split; [exact Hadd|].
  exact Hroutes.
Defined.

(** C3, as stated, fails: with the plugins [first] and [second] registered
    in this order, the stored handler enters the wrapper of [second]
    before that of [first]; it is not the nesting that has the wrapper
    registered first outermost. *)
Lemma wrappers_not_outer_to_inner : ¬ outerToInnerInRegistrationOrder.
Proof.
  intros [_ Hrun].
  specialize (Hrun (getRequest "/wrapped") (initialData ∅) emptyStore).
  apply (f_equal (fun r => heap r.2 !! "entered")) in Hrun.
  vm_compute in Hrun. discriminate.
Qed.

(** What the dispatch of [GET /wrapped] leaves in [entered]. *)
Lemma wrappers_entered :
  heap (storeOf (RouterTs.handle wrappedRouter (getRequest "/wrapped") emptyStore))
    !! "entered"
  = Some (JArr [JStr "second"; JStr "first"; JStr "handler"]).
Proof. vm_compute. reflexivity. Qed.

End RegistrationFacts.

(** ** The repository's own tests, replayed on the embedding *)

Module RepositoryTests.

Import RouterUtils RouterTypes AuthHandlerClass RouterTs ValidationSpec DispatchSpec
  Scenarios.

(** [router-utils.test.ts], "matchRoute". *)
Lemma test_matchRoute :
  PathMatcher.matchRoute "/test" "/test" = Some ∅
  ∧ PathMatcher.matchRoute "/test" "/not-test" = None
  ∧ PathMatcher.matchRoute "/users/123" "/users/:id" = Some {[ "id" := "123" ]}
  ∧ PathMatcher.matchRoute "/users/123/posts/456" "/users/:userId/posts/:postId"
    = Some {[ "userId" := "123"; "postId" := "456" ]}
  ∧ PathMatcher.matchRoute "/users/123" "/users/:id/profile" = None
  ∧ PathMatcher.matchRoute "/users/123" "/profiles/:id" = None
  ∧ PathMatcher.matchRoute "/" "/" = Some ∅
  ∧ PathMatcher.matchRoute "/test/" "/test" = Some ∅
  ∧ PathMatcher.matchRoute "/test?query=1" "/test" = Some ∅.
Proof. repeat split; vm_compute; reflexivity. Qed.

(** "returns parsed data when validation schema is not provided". *)
Lemma test_validateRequest_no_schema :
  outcomeOf (validateRequest (getRequest "/test") ∅ None emptyStore)
  = Returned {| vd_params := DRecord ∅; vd_query := DRecord ∅;
                vd_headers := DRecord ∅; vd_body := DUndefined |}.
Proof. vm_compute. reflexivity. Qed.

(** "returns 404 response for unmatched path". *)
Lemma test_unmatched_path :
  responseOf (newRouter None) (getRequest "/nonexistent") = Some notFoundRes.
Proof. vm_compute. reflexivity. Qed.

(** "global middleware stops execution when returning response". *)
Lemma test_global_middleware_stops :
  responseOf stoppedRouter (getRequest "/test") = Some (textResponse 403 "stopped")
  ∧ enteredAfter stoppedRouter (getRequest "/test") = Some (JArr [JStr "global1"]).
Proof. split; vm_compute; reflexivity. Qed.

(** "global and route-level middleware execute in correct order". *)
Lemma test_middleware_order :
  enteredAfter orderedRouter (getRequest "/test")
  = Some (JArr [JStr "global"; JStr "route"; JStr "handler"]).
Proof. vm_compute. reflexivity. Qed.

(** "executes middleware for matching paths", "skips middleware for
    non-matching paths". *)
Lemma test_path_middleware :
  enteredAfter apiRouter (getRequest "/api/test")
  = Some (JArr [JStr "api middleware"; JStr "handler"])
  ∧ enteredAfter apiRouter (getRequest "/other/test") = Some (JArr [JStr "handler"]).
Proof. split; vm_compute; reflexivity. Qed.

(** "handles different error types appropriately". *)
Lemma test_error_types :
  responseOf errorRouter (getRequest "/error-string")
  = Some {| status := 500; res_headers := jsonHeaders;
            res_body := BodyStringify (JObj
              [("error", JStr "Internal Server Error");
               ("message", JStr "An unexpected error occurred.")]) |}
  ∧ responseOf errorRouter (getRequest "/error-object")
    = Some {| status := 500; res_headers := jsonHeaders;
              res_body := BodyStringify (JObj
                [("error", JStr "Internal Server Error");
                 ("message", JStr "Object error")]) |}.
Proof. split; vm_compute; reflexivity. Qed.

(** "handles successful authentication": the handler sees the payload of
    the verify step as [req.auth]. *)
Lemma test_successful_authentication :
  (res_body <$> responseOf authenticatedRouter (getRequest "/protected"))
  = Some (BodyStringify mockUser).
Proof. vm_compute. reflexivity. Qed.

(** "handles failed authentication", "bypasses authentication for routes
    without auth config". *)
Lemma test_failed_authentication :
  responseOf rejectingRouter (getRequest "/protected")
  = Some (textResponse 401 "Custom error response")
  ∧ responseOf rejectingRouter (getRequest "/public")
    = Some (textResponse 200 "public data").
Proof. split; vm_compute; reflexivity. Qed.

(** "plugin can intercept requests", "plugin can handle errors". *)
Lemma test_plugins :
  responseOf interceptedRouter (getRequest "/test")
  = Some (textResponse 403 "intercepted")
  ∧ responseOf errorPluginRouter (getRequest "/test")
    = Some (textResponse 500 "custom error").
Proof. split; vm_compute; reflexivity. Qed.

End RepositoryTests.

(** ** PathMatcher: what [matchRoute] makes of slashes and of the query,
    and what it binds *)

Module PathMatcherLaws.

Import PathMatcher PathMatcherSpec PathMatcherNotions.

Lemma append_empty s : (s ++ "")%string = s.
Proof.
  induction s as [|a r IH]; [reflexivity|]. exact (f_equal (String a) IH).
Qed.

Lemma split_nonempty c s : Js.split c s ≠ [].
Proof.
  destruct s as [|a r]; simpl; [discriminate|].
  destruct (Ascii.eqb a c); [discriminate|].
  destruct (Js.split c r); discriminate.
Qed.

Lemma split_app_sep c s1 s2 :
  Js.split c (s1 ++ String c s2)%string = Js.split c s1 ++ Js.split c s2.
Proof.
  induction s1 as [|a r IH]; simpl.
  - by rewrite Ascii.eqb_refl.
  - destruct (Ascii.eqb a c); [by rewrite IH|].
    rewrite IH. destruct (Js.split c r) as [|p ps] eqn:E; [|reflexivity].
    by destruct (split_nonempty c r).
Qed.

Lemma beforeFirst_app_sep c s q :
  Js.beforeFirst c (s ++ String c q)%string = Js.beforeFirst c s.
Proof.
  unfold Js.beforeFirst. rewrite split_app_sep.
  destruct (Js.split c s) as [|p ps] eqn:E; [by destruct (split_nonempty c s)|].
  reflexivity.
Qed.

Lemma parts_app_sep s1 s2 : parts (s1 ++ String "/" s2)%string = parts s1 ++ parts s2.
Proof. unfold parts. rewrite split_app_sep. apply List.filter_app. Qed.

Lemma parts_leading_slash s : parts (String "/" s) = parts s.
Proof. reflexivity. Qed.

(** A string is what is left of it without its trailing slashes, followed
    by slashes. *)
Lemma strip_slashes s :
  exists n, s = (Js.stripTrailingSlashes s ++ slashes n)%string
            ∧ (Js.stripTrailingSlashes s = "" -> s = slashes n).
Proof.
  induction s as [|a r [n [IH IH0]]]; simpl.
  - exists 0. done.
  - destruct (Js.stripTrailingSlashes r) as [|b kept] eqn:E.
    + destruct (Ascii.eqb a "/") eqn:Ea.
      * apply Ascii.eqb_eq in Ea. subst a. exists (S n). simpl.
        rewrite <- (IH0 eq_refl). done.
      * exists n. simpl. split; [|discriminate]. exact (f_equal (String a) IH).
    + exists n. simpl. split; [|discriminate]. exact (f_equal (String a) IH).
Qed.

Lemma parts_slashes n : parts (slashes n) = [].
Proof. induction n as [|n IH]; [reflexivity|]. simpl. by rewrite parts_leading_slash. Qed.

Lemma parts_strip s : parts (Js.stripTrailingSlashes s) = parts s.
Proof.
  destruct (strip_slashes s) as [n [H _]]. rewrite H at 2.
  destruct n as [|n]; simpl.
  - by rewrite append_empty.
  - by rewrite parts_app_sep, parts_slashes, app_nil_r.
Qed.

Lemma strip_empty_parts s : Js.stripTrailingSlashes s = "" -> parts s = [].
Proof.
  intros H. destruct (strip_slashes s) as [n [_ H0]]. rewrite (H0 H). apply parts_slashes.
Qed.

(** The early return of [matchRoute] agrees with what the loop would
    give: the function is the length test followed by the loop. *)
Lemma matchRoute_parts path routePath :
  matchRoute path routePath
  = if negb (Nat.eqb (length (parts (Js.beforeFirst "?" path))) (length (parts routePath)))
    then None
    else matchLoop (parts routePath) (parts (Js.beforeFirst "?" path)) ∅.
Proof.
  unfold matchRoute. cbv zeta. rewrite !parts_strip.
  destruct (String.eqb (Js.stripTrailingSlashes (Js.beforeFirst "?" path)) "") eqn:E1;
    [|reflexivity].
  destruct (String.eqb (Js.stripTrailingSlashes routePath) "") eqn:E2; [|reflexivity].
  apply String.eqb_eq in E1, E2.
  by rewrite (strip_empty_parts _ E1), (strip_empty_parts _ E2).
Qed.


Lemma beforeFirst_cons c a r :
  Ascii.eqb a c = false -> Js.beforeFirst c (String a r) = String a (Js.beforeFirst c r).
Proof.
  intros H. unfold Js.beforeFirst. simpl. rewrite H.
  destruct (Js.split c r) as [|p ps] eqn:E; [by destruct (split_nonempty c r)|reflexivity].
Qed.

Lemma beforeFirst_sep c r : Js.beforeFirst c (String c r) = "".
Proof. unfold Js.beforeFirst. simpl. by rewrite Ascii.eqb_refl. Qed.

Lemma beforeFirst_fixed_app c s s2 :
  Js.beforeFirst c s = s ->
  Js.beforeFirst c (s ++ s2)%string = (s ++ Js.beforeFirst c s2)%string.
Proof.
  induction s as [|a r IH]; intros H; [reflexivity|].
  destruct (Ascii.eqb a c) eqn:Ea.
  - apply Ascii.eqb_eq in Ea. subst a. rewrite beforeFirst_sep in H. discriminate.
  - rewrite beforeFirst_cons in H by exact Ea. injection H as H.
    change (String a r ++ s2)%string with (String a (r ++ s2)).
    rewrite beforeFirst_cons by exact Ea. rewrite IH by exact H. reflexivity.
Qed.

(** X1.  Whatever follows the first question mark of the request path
    plays no part in the match. *)
Theorem matchRoute_ignores_query (path query routePath : string) :
  matchRoute (path ++ String "?" query) routePath = matchRoute path routePath.
Proof. by rewrite !matchRoute_parts, beforeFirst_app_sep. Qed.

(** X2.  Slashes only separate segments: a trailing slash, a leading
    slash and a doubled slash of the route path change nothing, and neither
    does a leading slash of the request path, nor a trailing slash of a
    request path that has no query. *)
Theorem matchRoute_slashes (path routePath : string) :
  matchRoute path (routePath ++ "/") = matchRoute path routePath
  ∧ matchRoute path (String "/" routePath) = matchRoute path routePath
  ∧ matchRoute (String "/" path) routePath = matchRoute path routePath
  ∧ (forall before after,
       matchRoute path (before ++ String "/" (String "/" after))
       = matchRoute path (before ++ String "/" after))
  ∧ (Js.beforeFirst "?" path = path ->
     matchRoute (path ++ "/") routePath = matchRoute path routePath).
Proof.
  repeat split.
  - rewrite !matchRoute_parts. by rewrite parts_app_sep, app_nil_r.
  - by rewrite !matchRoute_parts, parts_leading_slash.
  - rewrite !matchRoute_parts. rewrite beforeFirst_cons by reflexivity.
    by rewrite parts_leading_slash.
  - intros before after. rewrite !matchRoute_parts.
    by rewrite !parts_app_sep, parts_leading_slash.
  - intros H. rewrite !matchRoute_parts.
    rewrite beforeFirst_fixed_app by exact H.
    change (Js.beforeFirst "?" "/") with "/". rewrite H.
    by rewrite parts_app_sep, app_nil_r.
Qed.

Lemma matchRoute_slashes_witness :
  matchRoute "/users/7/" "/users/:id" = matchRoute "/users/7" "/users/:id".
Proof. apply (matchRoute_slashes "/users/7" "/users/:id"). reflexivity. Defined.

Lemma split_chars c s p a :
  p ∈ Js.split c s -> a ∈ chars p -> a ∈ chars s ∧ a ≠ c.
Proof.
  revert p. induction s as [|a0 r IH]; intros p Hp Ha; simpl in Hp.
  - apply list_elem_of_singleton in Hp. subst p. by apply elem_of_nil in Ha.
  - destruct (Ascii.eqb a0 c) eqn:E0.
    + apply elem_of_cons in Hp as [->|Hp]; [by apply elem_of_nil in Ha|].
      destruct (IH p Hp Ha) as [H1 H2]. split; [|exact H2].
      unfold chars. simpl. by right.
    + destruct (Js.split c r) as [|q qs] eqn:E; [by destruct (split_nonempty c r)|].
      apply elem_of_cons in Hp as [->|Hp].
      * unfold chars in Ha. simpl in Ha. apply elem_of_cons in Ha as [->|Ha].
        -- split; [unfold chars; simpl; by left|].
           intros ->. by rewrite Ascii.eqb_refl in E0.
        -- destruct (IH q (ltac:(by left)) Ha) as [H1 H2]. split; [|exact H2].
           unfold chars. simpl. by right.
      * destruct (IH p (ltac:(by right)) Ha) as [H1 H2]. split; [|exact H2].
        unfold chars. simpl. by right.
Qed.

Lemma strip_chars s a : a ∈ chars (Js.stripTrailingSlashes s) -> a ∈ chars s.
Proof.
  induction s as [|a0 r IH]; simpl; [done|].
  destruct (Js.stripTrailingSlashes r) as [|b kept] eqn:E.
  - destruct (Ascii.eqb a0 "/"); intros H; [by apply elem_of_nil in H|].
    unfold chars in H. simpl in H. apply elem_of_cons in H as [->|H];
      [unfold chars; simpl; by left | by apply elem_of_nil in H].
  - intros H. unfold chars in H |- *. simpl in H |- *.
    apply elem_of_cons in H as [->|H]; [by left|]. right. by apply IH.
Qed.

Lemma beforeFirst_chars c s a :
  a ∈ chars (Js.beforeFirst c s) -> a ∈ chars s ∧ a ≠ c.
Proof.
  unfold Js.beforeFirst.
  destruct (Js.split c s) as [|p ps] eqn:E; [by destruct (split_nonempty c s)|].
  intros H. apply (split_chars c s p); [rewrite E; by left | exact H].
Qed.

Lemma parts_elem clean v :
  v ∈ parts clean ->
  v ≠ "" ∧ forall a, a ∈ chars v -> a ∈ chars clean ∧ a ≠ slash.
Proof.
  unfold parts. intros H. apply list_elem_of_In, List.filter_In in H as [Hs Ht].
  apply list_elem_of_In in Hs. split.
  - by destruct v.
  - intros a Ha. by apply (split_chars "/" clean v).
Qed.

(** What the loop of [matchRoute] can put into [params]. *)
Lemma matchLoop_bindings routeParts pathParts params m k v :
  matchLoop routeParts pathParts params = Some m -> m !! k = Some v ->
  params !! k = Some v
  ∨ (k ∈ paramName <$> List.filter isParam routeParts)
    ∧ k ≠ "__proto__" ∧ v ∈ pathParts.
Proof.
  revert pathParts params.
  induction routeParts as [|r rs IH]; intros [|p ps] params Hm Hk; simpl in Hm;
    try (injection Hm as <-; by left).
  destruct (Js.startsWith ":" r) eqn:Er.
  - destruct (IH _ _ Hm Hk) as [H|(H1 & H2 & H3)].
    + unfold Js.objSet in H. destruct (String.eqb (Js.slice1 r) "__proto__") eqn:Ep;
        [by left|].
      destruct (decide (k = Js.slice1 r)) as [->|Hne].
      * rewrite lookup_insert_eq in H. injection H as <-. right. split; [|split].
        -- simpl. unfold isParam at 1. rewrite Er. simpl. by left.
        -- intros Heq. unfold paramName in Heq. rewrite Heq in Ep. discriminate.
        -- by left.
      * rewrite lookup_insert_ne in H by done. by left.
    + right. split; [|split; [exact H2 | by right]].
      simpl. unfold isParam at 1. rewrite Er. simpl. by right.
  - destruct (negb (String.eqb r p)); [discriminate|].
    destruct (IH _ _ Hm Hk) as [H|(H1 & H2 & H3)]; [by left|].
    right. split; [|split; [exact H2 | by right]].
    simpl. unfold isParam at 1. by rewrite Er.
Qed.

(** X3.  Every binding of a match is named by a parameter segment of the
    route path, never [__proto__], and its value is a segment of the request
    path as it was sent: not empty, without a slash and without a question
    mark. *)
Theorem matchRoute_bindings (path routePath : string) (m : gmap string string)
    (k v : string) :
  matchRoute path routePath = Some m ->
  m !! k = Some v ->
  k ∈ paramNames routePath ∧ k ≠ "__proto__"
  ∧ v ∈ segments (Js.beforeFirst "?" path)
  ∧ v ≠ "" ∧ (slash ∉ chars v) ∧ (questionMark ∉ chars v).
Proof.
  intros Hm Hk. rewrite matchRoute_parts in Hm.
  destruct (negb _); [discriminate|].
  destruct (matchLoop_bindings _ _ _ _ _ _ Hm Hk) as [H|(H1 & H2 & H3)];
    [by rewrite lookup_empty in H|].
  unfold paramNames, segments. rewrite !(parts_strip : forall s, List.filter _ _ = _).
  split; [exact H1|]. split; [exact H2|]. split; [exact H3|].
  destruct (parts_elem _ _ H3) as [Hv Hc]. split; [exact Hv|]. split.
  - intros Ha. by destruct (Hc _ Ha) as [_ Hne].
  - intros Ha. destruct (Hc _ Ha) as [Hin _].
    by destruct (beforeFirst_chars _ _ _ Hin) as [_ Hne].
Qed.

Lemma matchRoute_bindings_witness :
  "id" ∈ paramNames "/users/:id" ∧ "id" ≠ "__proto__"
  ∧ "42" ∈ segments (Js.beforeFirst "?" "/users/42?next=/home")
  ∧ "42" ≠ "" ∧ (slash ∉ chars "42") ∧ (questionMark ∉ chars "42").
Proof.
  apply (matchRoute_bindings "/users/42?next=/home" "/users/:id" {[ "id" := "42" ]});
    vm_compute; reflexivity.
Defined.

End PathMatcherLaws.


(** ** ValidationEngine: what a run of [validateRequest] returns and records *)

Module ValidationLaws.

Import RouterUtils ValidationSpec ValidationNotions Scenarios MoreScenarios.
Import ValidationFacts.

Lemma validateFacet_run facet set validator input l s :
  validateFacet facet set validator input l s
  = match codeOf validator with
    | None =>
        (Returned (l.1, l.2 ++ [errorItem facet (ErrorObject invalidValidatorMessage)]),
         s, [])
    | Some code =>
        match code input (heap s) with
        | (Returned x, h1) =>
            (Returned (set x l.1, l.2), {| heap := h1; bodyUsed := bodyUsed s |},
             [Called (ValidatorFn facet) (Returned None)])
        | (Threw err, h1) =>
            (Returned (l.1, l.2 ++ [errorItem facet err]),
             {| heap := h1; bodyUsed := bodyUsed s |},
             [Called (ValidatorFn facet) (Threw err)])
        end
    end.
Proof.
  unfold validateFacet, callValidator, tryCatch, bind, callOnHeap, call, ret, throw.
  destruct validator as [f|parse|]; simpl; [| |reflexivity].
  - destruct (f input (heap s)) as [[x|err] h1]; reflexivity.
  - destruct (parse input (heap s)) as [[x|err] h1]; reflexivity.
Qed.


Lemma validateFacet_data facet set validator input l s l' s' t :
  validateFacet facet set validator input l s = (Returned l', s', t) ->
  l'.2 = [] ->
  l.2 = []
  ∧ exists code x h',
      codeOf validator = Some code
      ∧ code input (heap s) = (Returned x, h')
      ∧ l'.1 = set x l.1.
Proof.
  rewrite validateFacet_run. intros H Hnil.
  destruct (codeOf validator) as [code|].
  - destruct (code input (heap s)) as [[x|err] h1] eqn:E; injection H as <- <- <-.
    + split; [exact Hnil|]. by exists code, x, h1.
    + simpl in Hnil. by destruct (app_cons_not_nil _ _ _ (eq_sym Hnil)).
  - injection H as <- <- <-. simpl in Hnil.
    by destruct (app_cons_not_nil _ _ _ (eq_sym Hnil)).
Qed.

Lemma decodeBody_inl req params errors s d s1 t1 :
  decodeBody req errors s = (Returned (inl d), s1, t1) ->
  d = facetInput req params Fbody.
Proof.
  unfold decodeBody, facetInput, declaresJson.
  destruct (Js.includes _ _); unfold tryCatch, bind, clone, jsonOfCopy, textOfCopy, ret, throw;
    destruct (bodyUsed s); simpl; try discriminate.
  - destruct (req_bodyJson req); simpl; [|discriminate]. by intros [= <- _ _].
  - by intros [= <- _ _].
Qed.

Lemma decodeBody_inr req errors s errors' s1 t1 :
  decodeBody req errors s = (Returned (inr errors'), s1, t1) -> errors' ≠ [].
Proof.
  unfold decodeBody.
  destruct (Js.includes _ _); unfold tryCatch, bind, clone, jsonOfCopy, textOfCopy, ret, throw;
    destruct (bodyUsed s); simpl; try discriminate.
  - intros [= <- _ _]. intros H. by destruct (app_cons_not_nil _ _ _ (eq_sym H)).
  - destruct (req_bodyJson req); simpl; [discriminate|].
    intros [= <- _ _]. intros H. by destruct (app_cons_not_nil _ _ _ (eq_sym H)).
  - destruct (existsb isBody errors) eqn:E; intros [= <- _ _].
    + intros ->. discriminate.
    + intros H. by destruct (app_cons_not_nil _ _ _ (eq_sym H)).
Qed.

(** X4.  When [validateRequest] returns, every facet of the record it
    returns holds either the raw value (the path parameters, the query and
    header records; nothing for the body), when the schema has no validator
    for the facet, or else what the facet's validator returned on that raw
    value: a validator that transforms its input is taken at its word. *)
Theorem validateRequest_data req params validation s data s' t :
  validateRequest req params validation s = (Returned data, s', t) ->
  forall facet, validated req params validation facet (field facet data).
Proof.
  intros Hrun.
  destruct (validateRequest_steps req params validation s)
    as (l1 & s1 & t1 & l2 & s2 & t2 & l3 & s3 & t3 & l4 & s4 & t4
        & H1 & H2 & H3 & H4 & Hall).
  rewrite Hall in Hrun. destruct l4 as [d4 e4]. simpl in Hrun.
  destruct e4 as [|item rest]; [|discriminate]. injection Hrun as <- _ _.
  (* the body step *)
  assert (l3.2 = []
          ∧ field Fparams d4 = field Fparams l3.1
          ∧ field Fquery d4 = field Fquery l3.1
          ∧ field Fheaders d4 = field Fheaders l3.1
          ∧ validated req params validation Fbody (field Fbody d4)
            ∨ l3.2 = [] ∧ d4 = l3.1 ∧ supplied validation Fbody = None) as Hbody.
  { unfold validateBody in H4. unfold validated, supplied.
    destruct (validation ≫= v_body) as [validator|] eqn:Ev.
    - left. unfold bind in H4.
      destruct (decodeBody req l3.2 s3) as [[[decoded|err] sd] td] eqn:Ed; [|discriminate].
      destruct decoded as [bodyData|errors].
      + destruct (validateFacet Fbody setBody validator bodyData l3 sd)
          as [[o sv] tv] eqn:Ef.
        injection H4 as -> <- _.
        destruct (validateFacet_data _ _ _ _ _ _ _ _ _ Ef eq_refl)
          as (Hnil & code & x & h' & Hc & Hx & Hd).
        simpl in Hd. subst d4. repeat (split; [done|]).
        exists code, (heap sd), h'. split; [exact Hc|].
        rewrite <- (decodeBody_inl req params _ _ _ _ _ Ed). exact Hx.
      + unfold ret in H4. injection H4 as _ Herr _ _. subst errors.
        by destruct (decodeBody_inr _ _ _ _ _ _ Ed).
    - right. unfold ret in H4. injection H4 as Hl _ _. subst l3. done. }
  assert (l3.2 = []) as Hn3 by (destruct Hbody as [[? _]|[? _]]; done).
  (* the headers step *)
  assert (l2.2 = [] ∧ field Fparams l3.1 = field Fparams l2.1
          ∧ field Fquery l3.1 = field Fquery l2.1
          ∧ field Fbody l3.1 = field Fbody l2.1
          ∧ validated req params validation Fheaders (field Fheaders l3.1)) as Hheaders.
  { unfold validateHeaders in H3. unfold validated, supplied. cbv zeta in H3.
    destruct (validation ≫= v_headers) as [validator|] eqn:Ev.
    - destruct (validateFacet_data _ _ _ _ _ _ _ _ _ H3 Hn3)
        as (Hnil & code & x & h' & Hc & Hx & Hd).
      rewrite Hd. repeat (split; [done|]). by exists code, (heap s2), h'.
    - unfold ret in H3. injection H3 as Hl _ _. subst l3. simpl in Hn3. done. }
  destruct Hheaders as (Hn2 & Hp3 & Hq3 & Hb3 & Hh3).
  (* the query step *)
  assert (l1.2 = [] ∧ field Fparams l2.1 = field Fparams l1.1
          ∧ field Fbody l2.1 = field Fbody l1.1
          ∧ validated req params validation Fquery (field Fquery l2.1)) as Hquery.
  { unfold validateQuery in H2. unfold validated, supplied. cbv zeta in H2.
    destruct (validation ≫= v_query) as [validator|] eqn:Ev.
    - destruct (validateFacet_data _ _ _ _ _ _ _ _ _ H2 Hn2)
        as (Hnil & code & x & h' & Hc & Hx & Hd).
      rewrite Hd. repeat (split; [done|]). by exists code, (heap s1), h'.
    - unfold ret in H2. injection H2 as Hl _ _. subst l2. simpl in Hn2. done. }
  destruct Hquery as (Hn1 & Hp2 & Hb2 & Hq2).
  (* the params step *)
  assert (field Fbody l1.1 = DUndefined
          ∧ validated req params validation Fparams (field Fparams l1.1)) as Hparams.
  { unfold validateParams in H1. unfold validated, supplied.
    destruct (validation ≫= v_params) as [validator|] eqn:Ev.
    - destruct (validateFacet_data _ _ _ _ _ _ _ _ _ H1 Hn1)
        as (Hnil & code & x & h' & Hc & Hx & Hd).
      rewrite Hd. split; [done|]. by exists code, (heap s), h'.
    - unfold ret in H1. injection H1 as Hl _ _. subst l1. done. }
  destruct Hparams as (Hb1 & Hp1).
  intros facet.
  destruct Hbody as [(_ & Hp4 & Hq4 & Hh4 & Hb4)|(_ & -> & Hnone)].
  - destruct facet.
    + rewrite Hp4, Hp3, Hp2. exact Hp1.
    + rewrite Hq4, Hq3. exact Hq2.
    + rewrite Hh4. exact Hh3.
    + exact Hb4.
  - destruct facet.
    + rewrite Hp3, Hp2. exact Hp1.
    + rewrite Hq3. exact Hq2.
    + exact Hh3.
    + unfold validated. rewrite Hnone. rewrite Hb3, Hb2. exact Hb1.
Qed.


Lemma validateRequest_data_witness :
  validated (getRequest "/users/123") {[ "id" := "123" ]} (Some paramsSchema) Fparams
    (vd_params userData).
Proof.
  apply (validateRequest_data (getRequest "/users/123") {[ "id" := "123" ]}
           (Some paramsSchema) emptyStore userData emptyStore
           [Called (ValidatorFn Fparams) (Returned None)]).
  vm_compute. reflexivity.
Defined.

Lemma supplied_params validation : supplied validation Fparams = validation ≫= v_params.
Proof. reflexivity. Qed.
Lemma supplied_query validation : supplied validation Fquery = validation ≫= v_query.
Proof. reflexivity. Qed.
Lemma supplied_headers validation : supplied validation Fheaders = validation ≫= v_headers.
Proof. reflexivity. Qed.
Lemma supplied_body validation : supplied validation Fbody = validation ≫= v_body.
Proof. reflexivity. Qed.

(** The entries pushed by the steps of a run are all in the failure it
    throws. *)
Lemma validateRequest_throws_pushed req params validation s item :
  (exists l1 s1 t1 l2 s2 t2 l3 s3 t3 l4 s4 t4,
     validateParams params validation (initialData params, []) s = (Returned l1, s1, t1)
     ∧ validateQuery req validation l1 s1 = (Returned l2, s2, t2)
     ∧ validateHeaders req validation l2 s2 = (Returned l3, s3, t3)
     ∧ validateBody req validation l3 s3 = (Returned l4, s4, t4)
     ∧ (item ∈ l1.2 ∨ item ∈ l2.2 ∨ item ∈ l3.2 ∨ item ∈ l4.2)) ->
  exists errors,
    outcomeOf (validateRequest req params validation s)
    = Threw (ValidationFailedError errors)
    ∧ item ∈ errors.
Proof.
  intros (l1 & s1 & t1 & l2 & s2 & t2 & l3 & s3 & t3 & l4 & s4 & t4
          & H1 & H2 & H3 & H4 & Hin).
  assert (item ∈ l4.2) as Hin4.
  { pose proof (validateQuery_step req validation l1 s1) as F2. rewrite H2 in F2.
    pose proof (validateHeaders_step req validation l2 s2) as F3. rewrite H3 in F3.
    pose proof (validateBody_step req validation l3 s3) as F4. rewrite H4 in F4.
    destruct Hin as [Hin|[Hin|[Hin|Hin]]]; [| | |exact Hin].
    - eapply facetStep_grows; [exact F4|]. eapply facetStep_grows; [exact F3|].
      eapply facetStep_grows; [exact F2|]. exact Hin.
    - eapply facetStep_grows; [exact F4|]. eapply facetStep_grows; [exact F3|]. exact Hin.
    - eapply facetStep_grows; [exact F4|]. exact Hin. }
  destruct (validateRequest_steps req params validation s)
    as (l1' & s1' & t1' & l2' & s2' & t2' & l3' & s3' & t3' & l4' & s4' & t4'
        & H1' & H2' & H3' & H4' & Hall).
  rewrite H1 in H1'. injection H1' as <- <- <-.
  rewrite H2 in H2'. injection H2' as <- <- <-.
  rewrite H3 in H3'. injection H3' as <- <- <-.
  rewrite H4 in H4'. injection H4' as <- <- <-.
  rewrite Hall. unfold outcomeOf. simpl.
  destruct (l4.2) as [|e es] eqn:E; [by apply elem_of_nil in Hin4|].
  exists (e :: es). done.
Qed.

(** X5.  A validator that is neither a function nor an object with a
    [parse] method does not make the request fail with an error of its own:
    it is recorded as a failure of its facet, with the message of
    [callValidator] (for the body: when the body can be decoded). *)
Theorem invalid_validator_recorded req params validation s facet :
  supplied validation facet = Some VOther ->
  (facet = Fbody -> bodyDecodes req s = true) ->
  exists errors,
    outcomeOf (validateRequest req params validation s)
    = Threw (ValidationFailedError errors)
    ∧ {| ve_type := facet; ve_messages := [invalidValidatorMessage] |} ∈ errors.
Proof.
  intros Hsup Hbody.
  apply validateRequest_throws_pushed.
  destruct (validateRequest_steps req params validation s)
    as (l1 & s1 & t1 & l2 & s2 & t2 & l3 & s3 & t3 & l4 & s4 & t4
        & H1 & H2 & H3 & H4 & _).
  exists l1, s1, t1, l2, s2, t2, l3, s3, t3, l4, s4, t4.
  repeat (split; [assumption|]).
  destruct facet.
  - left. rewrite supplied_params in Hsup. unfold validateParams in H1.
    rewrite Hsup, validateFacet_run in H1. simpl in H1. injection H1 as <- _ _.
    simpl. by left.
  - right. left. rewrite supplied_query in Hsup. unfold validateQuery in H2.
    cbv zeta in H2. rewrite Hsup, validateFacet_run in H2. simpl in H2.
    injection H2 as <- _ _. simpl. apply elem_of_app. right. by left.
  - right. right. left. rewrite supplied_headers in Hsup. unfold validateHeaders in H3.
    cbv zeta in H3. rewrite Hsup, validateFacet_run in H3. simpl in H3.
    injection H3 as <- _ _. simpl. apply elem_of_app. right. by left.
  - right. right. right. rewrite supplied_body in Hsup. unfold validateBody in H4.
    rewrite Hsup in H4.
    pose proof (validateParams_step params validation (initialData params, []) s) as F1.
    rewrite H1 in F1. apply facetStep_bodyUsed in F1.
    pose proof (validateQuery_step req validation l1 s1) as F2.
    rewrite H2 in F2. apply facetStep_bodyUsed in F2.
    pose proof (validateHeaders_step req validation l2 s2) as F3.
    rewrite H3 in F3. apply facetStep_bodyUsed in F3.
    assert (bodyDecodes req s3 = true) as Hdec.
    { rewrite <- (Hbody eq_refl). apply bodyDecodes_bodyUsed. congruence. }
    destruct (decodeBody_run req l3.2 s3) as (decoded & Hd & Hcase).
    rewrite (bind_pure _ _ _ _ Hd) in H4.
    destruct decoded as [bodyData|errors].
    + rewrite validateFacet_run in H4. simpl in H4. injection H4 as <- _ _.
      simpl. apply elem_of_app. right. by left.
    + destruct Hcase as [Hfalse _]. congruence.
Qed.

Lemma invalid_validator_recorded_witness :
  exists errors,
    outcomeOf (validateRequest (getRequest "/search") ∅ (Some brokenSchema) emptyStore)
    = Threw (ValidationFailedError errors)
    ∧ {| ve_type := Fquery; ve_messages := [invalidValidatorMessage] |} ∈ errors.
Proof.
  apply (invalid_validator_recorded (getRequest "/search") ∅ (Some brokenSchema)
           emptyStore Fquery); [reflexivity | discriminate].
Defined.

(** X6.  Under a JSON content type, a body that is not JSON, and also a
    body that was read before, is recorded as the one body entry "Invalid
    JSON in request body", the last entry of the failure; the body validator
    is not called. *)
Theorem invalid_json_body req params validation s validator :
  supplied validation Fbody = Some validator ->
  declaresJson req = true ->
  req_bodyJson req = None ∨ bodyUsed s = true ->
  exists errors,
    outcomeOf (validateRequest req params validation s)
    = Threw (ValidationFailedError (errors ++ [invalidJsonItem]))
    ∧ forall result,
        Called (ValidatorFn Fbody) result
        ∉ traceOf (validateRequest req params validation s).
Proof.
  intros Hsup Hjson Hbad.
  destruct (validateRequest_steps req params validation s)
    as (l1 & s1 & t1 & l2 & s2 & t2 & l3 & s3 & t3 & l4 & s4 & t4
        & H1 & H2 & H3 & H4 & Hall).
  pose proof (validateParams_step params validation (initialData params, []) s) as F1.
  rewrite H1 in F1.
  pose proof (validateQuery_step req validation l1 s1) as F2. rewrite H2 in F2.
  pose proof (validateHeaders_step req validation l2 s2) as F3. rewrite H3 in F3.
  assert (bodyUsed s3 = bodyUsed s) as Hused.
  { apply facetStep_bodyUsed in F1, F2, F3. congruence. }
  assert (validateBody req validation l3 s3
          = (Returned (l3.1, l3.2 ++ [invalidJsonItem]), s3, [])) as Hstep.
  { unfold validateBody. rewrite <- supplied_body, Hsup.
    assert (decodeBody req l3.2 s3 = (Returned (inr (l3.2 ++ [invalidJsonItem])), s3, []))
      as Hd.
    { unfold decodeBody. unfold declaresJson in Hjson. rewrite Hjson.
      unfold tryCatch, bind, clone, jsonOfCopy, ret, throw.
      destruct (bodyUsed s3) eqn:Eu; [reflexivity|].
      destruct Hbad as [Hnone|Hu]; [by rewrite Hnone | congruence]. }
    by rewrite (bind_pure _ _ _ _ Hd). }
  rewrite Hstep in H4. injection H4 as <- <- <-.
  exists l3.2. rewrite Hall. unfold outcomeOf, traceOf. simpl. split.
  - by destruct (l3.2).
  - intros result Hin. rewrite app_nil_r in Hin.
    apply facetStep_inv in F1 as (l1' & s1' & t1' & E1 & _ & T1).
    apply facetStep_inv in F2 as (l2' & s2' & t2' & E2 & _ & T2).
    apply facetStep_inv in F3 as (l3' & s3' & t3' & E3 & _ & T3).
    injection E1 as _ _ <-. injection E2 as _ _ <-. injection E3 as _ _ <-.
    repeat (apply elem_of_app in Hin as [Hin|Hin]).
    + destruct T1 as [[_ [->| ->]]|[(err & _ & ->)|(item & _ & _ & ->)]];
        try (by apply elem_of_nil in Hin);
        apply list_elem_of_singleton in Hin; discriminate.
    + destruct T2 as [[_ [->| ->]]|[(err & _ & ->)|(item & _ & _ & ->)]];
        try (by apply elem_of_nil in Hin);
        apply list_elem_of_singleton in Hin; discriminate.
    + destruct T3 as [[_ [->| ->]]|[(err & _ & ->)|(item & _ & _ & ->)]];
        try (by apply elem_of_nil in Hin);
        apply list_elem_of_singleton in Hin; discriminate.
Qed.

Lemma invalid_json_body_witness :
  exists errors,
    outcomeOf (validateRequest malformedRequest ∅ (Some strictSchema) emptyStore)
    = Threw (ValidationFailedError (errors ++ [invalidJsonItem]))
    ∧ forall result,
        Called (ValidatorFn Fbody) result
        ∉ traceOf (validateRequest malformedRequest ∅ (Some strictSchema) emptyStore).
Proof.
  apply (invalid_json_body malformedRequest ∅ (Some strictSchema) emptyStore
           (VParse (requiresField "name")));
    [reflexivity | reflexivity | left; reflexivity].
Defined.

Lemma fromEntries_foldl_absent (entries : list (string * string)) (m : gmap string string) k :
  k ∉ entries.*1 ->
  foldl (fun obj kv => <[kv.1 := kv.2]> obj) m entries !! k = m !! k.
Proof.
  revert m. induction entries as [|[k' v'] rest IH]; intros m Hk; [reflexivity|].
  simpl. simpl in Hk. apply not_elem_of_cons in Hk as [Hne Hk].
  rewrite IH by exact Hk. by rewrite lookup_insert_ne.
Qed.

(** X7.  The query record that [validateRequest] validates, or hands on
    when there is no query validator, holds for a key that occurs several
    times in the query string the value of its last occurrence, and nothing
    for a key that does not occur. *)
Theorem query_last_value_wins req params :
  exists q,
    facetInput req params Fquery = DRecord q
    ∧ (forall validation l s,
         validateQuery req validation l s
         = match supplied validation Fquery with
           | Some validator => validateFacet Fquery setQuery validator (DRecord q) l s
           | None => (Returned (setQuery (DRecord q) l.1, l.2), s, [])
           end)
    ∧ (forall pre k v post,
         req_searchParams req = pre ++ (k, v) :: post -> k ∉ post.*1 ->
         q !! k = Some v)
    ∧ (forall k, k ∉ (req_searchParams req).*1 -> q !! k = None).
Proof.
  exists (Js.fromEntries (req_searchParams req)). split; [reflexivity|]. split; [|split].
  - intros validation l s. unfold validateQuery. rewrite supplied_query.
    by destruct (validation ≫= v_query).
  - intros pre k v post -> Hk. unfold Js.fromEntries.
    rewrite foldl_app. simpl. rewrite fromEntries_foldl_absent by exact Hk.
    apply lookup_insert_eq.
  - intros k Hk. unfold Js.fromEntries. rewrite fromEntries_foldl_absent by exact Hk.
    apply lookup_empty.
Qed.

End ValidationLaws.

(** ** Dispatcher: the route table, the hook runner, the middleware tiers
    and the error stage *)

Module DispatchLaws.

Import RouterUtils RouterTypes AuthHandlerClass RouterTs ValidationSpec DispatchSpec
  Scenarios MoreScenarios DispatchNotions.
Import ValidationFacts DispatchFacts.

(** X8.  The route table is searched in registration order and the first
    route whose method is the request's and whose path matches is taken,
    with the bindings of that match; no route at all is reported only when
    every route has another method or a path that does not match. *)
Theorem matchRouteHandler_first_match this method path :
  match matchRouteHandler this method path with
  | Some (route, params) =>
      exists pre post,
        routes this = pre ++ route :: post
        ∧ Forall (noMatch method path) pre
        ∧ route_method route = method
        ∧ PathMatcher.matchRoute path (route_path route) = Some params
  | None => Forall (noMatch method path) (routes this)
  end.
Proof.
  unfold matchRouteHandler. induction (routes this) as [|r rest IH]; simpl.
  - constructor.
  - destruct (String.eqb (route_method r) method) eqn:Em; simpl.
    + apply String.eqb_eq in Em.
      destruct (PathMatcher.matchRoute path (route_path r)) as [params|] eqn:Ep.
      * exists [], rest. repeat split; [constructor | exact Em | exact Ep].
      * destruct (matchRouteHandlerLoop method path rest) as [[route params]|].
        -- destruct IH as (pre & post & -> & Hpre & Hm & Hp).
           exists (r :: pre), post. repeat split; [|exact Hm|exact Hp].
           constructor; [by right | exact Hpre].
        -- constructor; [by right | exact IH].
    + apply String.eqb_neq in Em.
      destruct (matchRouteHandlerLoop method path rest) as [[route params]|].
      * destruct IH as (pre & post & -> & Hpre & Hm & Hp).
        exists (r :: pre), post. repeat split; [|exact Hm|exact Hp].
        constructor; [by left | exact Hpre].
      * constructor; [by left | exact IH].
Qed.

(** X9.  [runPluginHook] stops at the first plugin whose hook returns a
    response: when the plugins before it returned none, the call comes back
    with that response, and no plugin registered after it is called. *)
Theorem runPluginHook_first_response hook select pre plugin post h s s1 t1 res s2 :
  runPluginHookLoop hook select pre s = (Returned None, s1, t1) ->
  select plugin = Some h ->
  h s1 = (Returned (Some res), s2) ->
  runPluginHookLoop hook select (pre ++ plugin :: post) s
  = (Returned (Some res), s2,
     t1 ++ [Called (PluginHook hook (name plugin)) (Returned (Some res))]).
Proof.
  revert s t1. induction pre as [|p ps IH]; intros s t1 Hpre Hsel Hh; simpl in *.
  - unfold ret in Hpre. injection Hpre as <- <-. rewrite Hsel.
    unfold bind, call. rewrite Hh. reflexivity.
  - destruct (select p) as [hp|]; [|by apply IH].
    unfold bind, call in Hpre |- *.
    destruct (hp s) as [[[response|]|err] sp]; simpl in *; try discriminate.
    destruct (runPluginHookLoop hook select ps sp) as [[o s'] t'] eqn:E.
    injection Hpre as -> -> <-.
    rewrite (IH sp t' E Hsel Hh). reflexivity.
Qed.


Lemma runPluginHook_first_response_witness :
  runPluginHookLoop OnRequest
    (fun plugin => (fun h => h (getRequest "/test")) <$> onRequest plugin)
    ([stampPlugin "x-first"] ++ interceptPlugin :: [errorPlugin]) emptyStore
  = (Returned (Some (textResponse 403 "intercepted")), emptyStore,
     [] ++ [Called (PluginHook OnRequest (name interceptPlugin))
              (Returned (Some (textResponse 403 "intercepted")))]).
Proof.
  apply (runPluginHook_first_response OnRequest
           (fun plugin => (fun h => h (getRequest "/test")) <$> onRequest plugin)
           [stampPlugin "x-first"] interceptPlugin [errorPlugin]
           (fun s => (Returned (Some (textResponse 403 "intercepted")), s))
           emptyStore emptyStore [] (textResponse 403 "intercepted") emptyStore);
    reflexivity.
Defined.

Lemma pathMwsGet_push_same p mw entries :
  pathMwsGet p (pathMwsPush p mw entries)
  = Some (default [] (pathMwsGet p entries) ++ [mw]).
Proof.
  unfold pathMwsGet. induction entries as [|[q arr] rest IH]; simpl.
  - by rewrite String.eqb_refl.
  - destruct (String.eqb q p) eqn:E; simpl; rewrite E; [reflexivity|exact IH].
Qed.

Lemma pathMwsGet_push_other p p' mw entries :
  p' ≠ p -> pathMwsGet p' (pathMwsPush p mw entries) = pathMwsGet p' entries.
Proof.
  intros Hne. unfold pathMwsGet. induction entries as [|[q arr] rest IH]; simpl.
  - apply String.eqb_neq in Hne. rewrite String.eqb_sym in Hne. by rewrite Hne.
  - destruct (String.eqb q p) eqn:E; simpl.
    + apply String.eqb_eq in E. subst q.
      apply String.eqb_neq in Hne. rewrite String.eqb_sym in Hne. by rewrite Hne.
    + destruct (String.eqb q p'); [reflexivity|exact IH].
Qed.

Lemma pathMwsPush_keys p mw entries :
  (pathMwsPush p mw entries).*1
  = entries.*1 ++ (if bool_decide (p ∈ entries.*1) then [] else [p]).
Proof.
  induction entries as [|[q arr] rest IH]; [reflexivity|].
  change (pathMwsPush p mw ((q, arr) :: rest))
    with (if String.eqb q p then (q, arr ++ [mw]) :: rest
          else (q, arr) :: pathMwsPush p mw rest).
  destruct (String.eqb q p) eqn:E; rewrite !fmap_cons; cbn [fst].
  - apply String.eqb_eq in E. subst q. rewrite bool_decide_eq_true_2 by (by left).
    by rewrite app_nil_r.
  - apply String.eqb_neq in E. rewrite IH. rewrite <- app_comm_cons. f_equal. f_equal.
    rewrite (bool_decide_ext (p ∈ q :: rest.*1) (p ∈ rest.*1)); [reflexivity|].
    rewrite elem_of_cons. split; [intros [Heq|Hin]; [by subst q|exact Hin] | by right].
Qed.

(** X13.  [use] with a path appends the middleware to the list kept for
    that path, creating the list at the end of the map when the path is new
    and leaving every other path and the global list alone; [use] without a
    path, and also with the empty string as path, appends to the global
    list.  Routes, plugins and the auth handler are not touched. *)
Theorem use_laws this mw :
  (forall p, Js.truthy p = true ->
     globalMws (use this mw (Some p)) = globalMws this
     ∧ pathMwsGet p (pathMws (use this mw (Some p)))
       = Some (default [] (pathMwsGet p (pathMws this)) ++ [mw])
     ∧ (forall p', p' ≠ p ->
          pathMwsGet p' (pathMws (use this mw (Some p))) = pathMwsGet p' (pathMws this))
     ∧ (pathMws (use this mw (Some p))).*1
       = (pathMws this).*1 ++ (if bool_decide (p ∈ (pathMws this).*1) then [] else [p]))
  ∧ use this mw (Some "") = use this mw None
  ∧ globalMws (use this mw None) = globalMws this ++ [mw]
  ∧ pathMws (use this mw None) = pathMws this
  ∧ (forall path, routes (use this mw path) = routes this
                  ∧ plugins (use this mw path) = plugins this
                  ∧ authHandler (use this mw path) = authHandler this).
Proof.
  repeat split.
  - unfold use. by rewrite H.
  - unfold use. rewrite H. simpl. apply pathMwsGet_push_same.
  - intros p' Hne. unfold use. rewrite H. simpl. by apply pathMwsGet_push_other.
  - unfold use. rewrite H. simpl. apply pathMwsPush_keys.
  - apply use_routes.
  - apply use_plugins.
  - unfold use. destruct path as [p|]; [destruct (Js.truthy p)|]; reflexivity.
Qed.

Lemma runMiddlewaresIn_app tier req mws1 mws2 s :
  runMiddlewaresIn tier req (mws1 ++ mws2) s
  = (res <- runMiddlewaresIn tier req mws1;;
     match res with
     | Some response => ret (Some response)
     | None => runMiddlewaresIn tier req mws2
     end) s.
Proof.
  revert s. induction mws1 as [|mw rest IH]; intros s; simpl.
  - unfold bind, ret. by destruct (runMiddlewaresIn tier req mws2 s) as [[o s'] t'].
  - unfold bind, call. destruct (mw_run mw req s) as [[[response|]|err] s1]; simpl;
      try reflexivity.
    rewrite IH. unfold bind.
    destruct (runMiddlewaresIn tier req rest s1) as [[[[response|]|err] s2] t2]; simpl;
      try reflexivity.
    by destruct (runMiddlewaresIn tier req mws2 s2) as [[o s3] t3].
Qed.

Lemma runPathMiddlewaresLoop_concat req path entries s :
  runPathMiddlewaresLoop req path entries s
  = runMiddlewaresIn PathTier req
      (List.concat
         (List.map snd (List.filter (fun entry => Js.startsWithStr entry.1 path) entries))) s.
Proof.
  revert s. induction entries as [|[p mws] rest IH]; intros s; simpl; [reflexivity|].
  destruct (Js.startsWithStr p path); simpl; [|apply IH].
  rewrite runMiddlewaresIn_app. unfold bind.
  destruct (runMiddlewaresIn PathTier req mws s) as [[[[response|]|err] s1] t1]; simpl;
    try reflexivity.
  by rewrite IH.
Qed.

Lemma startsWithStr_app p rest : Js.startsWithStr p (p ++ rest)%string = true.
Proof.
  unfold Js.startsWithStr. induction p as [|a p IH].
  - by destruct rest.
  - change (String a p ++ rest)%string with (String a (p ++ rest)). simpl.
    destruct (ascii_dec a a) as [_|Hne]; [exact IH|by destruct Hne].
Qed.

(** X14.  The path-scoped middleware of a request is the middleware of
    every registered path that is a prefix of the pathname as a string (so
    [/api] also covers [/apiary]), path after path in the order the paths
    were first used, run as one list. *)
Theorem runPathMiddlewares_by_prefix this req :
  (forall path s,
     runPathMiddlewares this req path s
     = runMiddlewaresIn PathTier req (pathScoped this path) s)
  ∧ (forall p rest, Js.startsWithStr p (p ++ rest)%string = true).
Proof.
  split.
  - intros path s. apply runPathMiddlewaresLoop_concat.
  - apply startsWithStr_app.
Qed.


Lemma runPluginHookLoop_threw hook select ps s err s' t :
  runPluginHookLoop hook select ps s = (Threw err, s', t) ->
  exists pre plugin, t = pre ++ [Called (PluginHook hook plugin) (Threw err)].
Proof.
  revert s t. induction ps as [|p ps IH]; intros s t H; simpl in H; [discriminate|].
  destruct (select p) as [h|]; [|by apply (IH s)].
  unfold bind, call in H. destruct (h s) as [[[response|]|e] s1] eqn:Eh; simpl in H.
  - discriminate.
  - destruct (runPluginHookLoop hook select ps s1) as [[o s2] t2] eqn:E.
    injection H as -> -> <-. destruct (IH _ _ E) as (pre & plugin & ->).
    by exists (Called (PluginHook hook (name p)) (Returned None) :: pre), plugin.
  - injection H as <- _ <-. by exists [], (name p).
Qed.

Lemma runPluginResponseHookLoop_threw req res ps s err s' t :
  runPluginResponseHookLoop req res ps s = (Threw err, s', t) ->
  exists pre plugin, t = pre ++ [Called (PluginHook OnResponse plugin) (Threw err)].
Proof.
  revert res s t. induction ps as [|p ps IH]; intros res s t H; simpl in H;
    [discriminate|].
  destruct (onResponse p) as [h|]; [|by apply (IH res s)].
  unfold bind, call in H. destruct (h req res s) as [[[replacement|]|e] s1] eqn:Eh;
    simpl in H.
  - destruct (runPluginResponseHookLoop req replacement ps s1) as [[o s2] t2] eqn:E.
    injection H as -> -> <-. destruct (IH _ _ _ E) as (pre & plugin & ->).
    by exists (Called (PluginHook OnResponse (name p)) (Returned (Some replacement)) :: pre),
      plugin.
  - destruct (runPluginResponseHookLoop req res ps s1) as [[o s2] t2] eqn:E.
    injection H as -> -> <-. destruct (IH _ _ _ E) as (pre & plugin & ->).
    by exists (Called (PluginHook OnResponse (name p)) (Returned None) :: pre), plugin.
  - injection H as <- _ <-. by exists [], (name p).
Qed.

Lemma bind_threw_inv {A B} (m : M A) (k : A -> M B) s err s' t :
  bind m k s = (Threw err, s', t) ->
  m s = (Threw err, s', t)
  ∨ exists a s1 t1 t2,
      m s = (Returned a, s1, t1) ∧ k a s1 = (Threw err, s', t2) ∧ t = t1 ++ t2.
Proof.
  unfold bind. destruct (m s) as [[[a|e] s1] t1].
  - destruct (k a s1) as [[o s2] t2] eqn:E. intros [= -> -> <-].
    right. by exists a, s1, t1, t2.
  - intros [= -> -> ->]. by left.
Qed.

Lemma handleError_threw this err0 req s err s' t :
  handleError this err0 req s = (Threw err, s', t) ->
  exists pre callee, t = pre ++ [Called callee (Threw err)] ∧ errorStage callee.
Proof.
  unfold handleError, runPluginHook. intros H.
  apply bind_threw_inv in H as [H|(a & s1 & t1 & t2 & H1 & H2 & ->)].
  - destruct (runPluginHookLoop_threw _ _ _ _ _ _ _ H) as (pre & plugin & ->).
    exists pre, (PluginHook OnError plugin). split; [reflexivity|].
    right. exists plugin. by left.
  - destruct a as [response|]; [discriminate|].
    destruct (router_onError this) as [h|]; [|discriminate].
    unfold call in H2. destruct (h err0 req s1) as [[response|e] s2]; [discriminate|].
    injection H2 as <- _ <-. exists t1, RouterOnError. split; [reflexivity|by left].
Qed.

Lemma catchBlock_threw this req err0 s err :
  outcomeOf (catchBlock this req err0 s) = Threw err ->
  exists pre callee,
    traceOf (catchBlock this req err0 s) = pre ++ [Called callee (Threw err)]
    ∧ errorStage callee.
Proof.
  destruct (catchBlock this req err0 s) as [[o s'] t] eqn:E.
  unfold outcomeOf, traceOf. simpl. intros ->.
  unfold catchBlock in E.
  apply bind_threw_inv in E as [H|(errorRes & s1 & t1 & t2 & H1 & H2 & ->)].
  - by apply handleError_threw in H.
  - unfold returnAwait in H2.
    apply bind_threw_inv in H2 as [H|(res & s2 & t3 & t4 & _ & H3 & _)]; [|discriminate].
    unfold runPluginResponseHook in H.
    destruct (runPluginResponseHookLoop_threw _ _ _ _ _ _ _ H) as (pre & plugin & ->).
    exists (t1 ++ pre), (PluginHook OnResponse plugin).
    rewrite app_assoc. split; [reflexivity|]. right. exists plugin. by right.
Qed.

(** X10.  When [handle] throws, the value comes from the error stage: it
    was thrown by the last callback called, which is a plugin's on-error or
    on-response hook or the router's own error handler.  Nothing a
    middleware, validator, verify step or route handler throws leaves
    [handle]. *)
Theorem handle_rejects_only_from_error_stage this req s err :
  outcomeOf (handle this req s) = Threw err ->
  exists pre callee,
    traceOf (handle this req s) = pre ++ [Called callee (Threw err)]
    ∧ errorStage callee.
Proof.
  intros H.
  destruct (handle_cases this req s)
    as [(origin & s0 & before & Heq & _)|(err0 & s0 & before & Heq & _)];
    rewrite Heq in H |- *; rewrite outcomeOf_prepend in H; rewrite traceOf_prepend.
  - rewrite respond_run in H |- *.
    destruct (runPluginResponseHook this req origin s0) as [[[res|e] s1] t1];
      [discriminate|].
    rewrite outcomeOf_prepend in H. rewrite traceOf_prepend.
    destruct (catchBlock_threw _ _ _ _ _ H) as (pre & callee & -> & Hc).
    exists (before ++ t1 ++ pre), callee. split; [by rewrite <- !app_assoc|exact Hc].
  - destruct (catchBlock_threw _ _ _ _ _ H) as (pre & callee & -> & Hc).
    exists (before ++ pre), callee. split; [by rewrite <- !app_assoc|exact Hc].
Qed.

Lemma quiet_onError err req ps s :
  Forall quiet ps ->
  runPluginHookLoop OnError (fun plugin => (fun h => h err req) <$> onError plugin) ps s
  = (Returned None, s, []).
Proof.
  induction 1 as [|p ps [Hp _] _ IH]; simpl; [reflexivity|]. by rewrite Hp.
Qed.

Lemma no_onResponse req res ps s :
  Forall (fun p => onResponse p = None) ps ->
  runPluginResponseHookLoop req res ps s = (Returned res, s, []).
Proof.
  induction 1 as [|p ps Hp _ IH]; simpl; [reflexivity|]. by rewrite Hp.
Qed.

Lemma quiet_onResponse req res ps s :
  Forall quiet ps -> runPluginResponseHookLoop req res ps s = (Returned res, s, []).
Proof.
  intros H. apply no_onResponse. eapply Forall_impl; [exact H|]. by intros p [_ Hp].
Qed.

Lemma handle_rejects_only_from_error_stage_witness :
  exists pre callee,
    traceOf (handle failingRouter (getRequest "/nothing") emptyStore)
    = pre ++ [Called callee (Threw (ErrorObject "hook failed"))]
    ∧ errorStage callee.
Proof.
  apply (handle_rejects_only_from_error_stage failingRouter (getRequest "/nothing")
           emptyStore (ErrorObject "hook failed")).
  vm_compute. reflexivity.
Defined.

(** X11.  On a router that has no error handler of its own and whose
    plugins have neither an on-error nor an on-response hook, [handle]
    always returns a response, whatever the callbacks do. *)
Theorem handle_always_responds this req s :
  Forall quiet (plugins this) ->
  router_onError this = None ->
  exists res, outcomeOf (handle this req s) = Returned (Some res).
Proof.
  intros Hq Hnone.
  assert (forall err s0,
            catchBlock this req err s0 = (Returned (Some (defaultErrorRes err)), s0, []))
    as Hcatch.
  { intros err s0.
    assert (handleError this err req s0 = (Returned (defaultErrorRes err), s0, [])) as He.
    { unfold handleError, runPluginHook.
      rewrite (bind_pure _ _ _ _ (quiet_onError err req _ s0 Hq)). by rewrite Hnone. }
    unfold catchBlock. rewrite (bind_pure _ _ _ _ He).
    unfold returnAwait, runPluginResponseHook.
    by rewrite (bind_pure _ _ _ _ (quiet_onResponse req _ _ s0 Hq)). }
  destruct (handle_cases this req s)
    as [(origin & s0 & before & Heq & _)|(err0 & s0 & before & Heq & _)];
    rewrite Heq, outcomeOf_prepend.
  - rewrite respond_run. unfold runPluginResponseHook.
    rewrite (quiet_onResponse req origin _ s0 Hq). by exists origin.
  - rewrite Hcatch. by eexists.
Qed.


Lemma no_onRequest req ps s :
  Forall (fun p => onRequest p = None) ps ->
  runPluginHookLoop OnRequest (fun plugin => (fun h => h req) <$> onRequest plugin) ps s
  = (Returned None, s, []).
Proof.
  induction 1 as [|p ps Hp _ IH]; simpl; [reflexivity|]. by rewrite Hp.
Qed.

Lemma runMiddlewaresIn_pass tier req mws s :
  Forall (passes req) mws ->
  exists s', runMiddlewaresIn tier req mws s = (Returned None, s', passed tier mws).
Proof.
  intros H. revert s. induction H as [|mw mws Hmw _ IH]; intros s; simpl.
  - by exists s.
  - destruct (Hmw s) as [s1 H1]. destruct (IH s1) as [s2 H2].
    exists s2. unfold bind, call. rewrite H1. simpl. by rewrite H2.
Qed.

Lemma handle_always_responds_witness :
  exists res,
    outcomeOf (handle errorRouter (getRequest "/error-object") emptyStore)
    = Returned (Some res).
Proof.
  apply (handle_always_responds errorRouter (getRequest "/error-object") emptyStore).
  - vm_compute. constructor.
  - reflexivity.
Defined.

(** X15.  When no plugin has an on-request hook and every middleware lets
    the request through, a dispatch to a matching route calls, in this
    order: every global middleware, every path-scoped middleware of the
    pathname, then (after the route lookup) the middleware of the route,
    each once and in registration order, then the stored handler of the
    route; whatever follows belongs to the error stage or the on-response
    hooks. *)
Theorem dispatch_order this req s route params :
  Forall (fun p => onRequest p = None) (plugins this) ->
  Forall (passes req) (globalMws this) ->
  Forall (passes req) (pathScoped this (req_pathname req)) ->
  matchRouteHandler this (req_method req) (req_pathname req) = Some (route, params) ->
  Forall (passes req) (default [] (route_middleware route)) ->
  exists s4 tail,
    traceOf (handle this req s)
    = passed GlobalTier (globalMws this)
      ++ passed PathTier (pathScoped this (req_pathname req))
      ++ [RouteLookup]
      ++ passed RouteTier (default [] (route_middleware route))
      ++ traceOf (route_handler route (authHandler this) req params s4)
      ++ tail
    ∧ Forall (fun e => aftermath e = true) tail.
Proof.
  intros Hreq Hglobal Hpath Hmatch Hroute.
  destruct (runMiddlewaresIn_pass GlobalTier req _ s Hglobal) as [s2 H2].
  destruct (runMiddlewaresIn_pass PathTier req _ s2 Hpath) as [s3 H3].
  assert (runPathMiddlewaresLoop req (req_pathname req) (pathMws this) s2
          = (Returned None, s3, passed PathTier (pathScoped this (req_pathname req))))
    as H3' by (rewrite runPathMiddlewaresLoop_concat; exact H3).
  destruct (runMiddlewaresIn_pass RouteTier req _ s3 Hroute) as [s4 H4].
  exists s4.
  rewrite handle_unfold. unfold runPluginHook.
  rewrite (tryCatch_bind_step _ _ _ _ _ _ _ (no_onRequest req _ s Hreq)). rewrite prepend_nil.
  rewrite (tryCatch_bind_step _ _ _ _ _ _ _ H2).
  unfold runPathMiddlewares at 1.
  rewrite (tryCatch_bind_step _ _ _ _ _ _ _ H3').
  rewrite tryCatch_emit_step. rewrite Hmatch.
  rewrite (tryCatch_bind_step _ _ _ _ _ _ _ H4).
  rewrite !traceOf_prepend.
  destruct (route_handler route (authHandler this) req params s4) as [[[res|err] s5] th]
    eqn:Eh.
  - rewrite (tryCatch_bind_step _ _ _ _ _ _ _ Eh). rewrite traceOf_prepend.
    exists (traceOf (respond this req (setContentType res) s5)). split.
    + reflexivity.
    + apply respond_emits.
  - rewrite (tryCatch_bind_threw _ _ _ _ _ _ _ Eh). rewrite traceOf_prepend.
    exists (traceOf (catchBlock this req err s5)). split.
    + reflexivity.
    + apply catchBlock_emits.
Qed.

Lemma dispatch_order_witness :
  exists s4 tail,
    traceOf (handle orderedRouter (getRequest "/test") emptyStore)
    = passed GlobalTier (globalMws orderedRouter)
      ++ passed PathTier (pathScoped orderedRouter (req_pathname (getRequest "/test")))
      ++ [RouteLookup]
      ++ passed RouteTier (default [] (route_middleware orderedRoute))
      ++ traceOf (route_handler orderedRoute (authHandler orderedRouter)
                    (getRequest "/test") ∅ s4)
      ++ tail
    ∧ Forall (fun e => aftermath e = true) tail.
Proof.
  apply (dispatch_order orderedRouter (getRequest "/test") emptyStore orderedRoute ∅).
  - apply Forall_nil_2.
  - change (Forall (passes (getRequest "/test")) [notingMiddleware "global" None]).
    apply Forall_cons_2; [|apply Forall_nil_2].
    intros s. exists (noting "global" s). reflexivity.
  - apply Forall_nil_2.
  - reflexivity.
  - change (Forall (passes (getRequest "/test")) [notingMiddleware "route" None]).
    apply Forall_cons_2; [|apply Forall_nil_2].
    intros s. exists (noting "route" s). reflexivity.
Defined.

(** X29.  The order of precedence in [handleError]: the response of the
    first plugin whose on-error hook returns one is the answer, and the
    router's own error handler is then not called; otherwise the router's
    own handler answers when there is one; otherwise the answer is the 500
    JSON response, which shows the message of a thrown [Error] and a fixed
    text for any other thrown value. *)
Theorem handleError_precedence this err req s :
  match runPluginHook this OnError
          (fun plugin => (fun h => h err req) <$> onError plugin) s with
  | (Returned (Some res), s1, t1) =>
      handleError this err req s = (Returned res, s1, t1)
      ∧ (RouterOnError ∉ callees t1)
  | (Returned None, s1, t1) =>
      match router_onError this with
      | Some h =>
          handleError this err req s = prepend t1 (call RouterOnError Some (h err req) s1)
      | None => handleError this err req s = (Returned (defaultErrorRes err), s1, t1)
      end
  | (Threw e, s1, t1) => handleError this err req s = (Threw e, s1, t1)
  end
  ∧ status (defaultErrorRes err) = 500%Z
  ∧ res_body (defaultErrorRes err)
    = BodyStringify (JObj
        [("error", JStr "Internal Server Error");
         ("message", JStr match err with
                          | NonError _ => "An unexpected error occurred."
                          | _ => errorMessage err
                          end)]).
Proof.
  split; [|split; [reflexivity|by destruct err]].
  pose proof (runPluginHookLoop_emits OnError
                (fun plugin => (fun h => h err req) <$> onError plugin) (plugins this) s)
    as Hev.
  unfold handleError, runPluginHook in *.
  destruct (runPluginHookLoop OnError _ (plugins this) s) as [[[[res|]|e] s1] t1] eqn:E.
  - rewrite (bind_step _ _ _ _ _ _ E). split.
    + unfold prepend, ret, outcomeOf, storeOf, traceOf. simpl. by rewrite app_nil_r.
    + unfold traceOf in Hev. simpl in Hev. clear E.
      induction Hev as [|ev t (plugin & result & ->) _ IH]; simpl.
      * apply not_elem_of_nil.
      * apply not_elem_of_cons. split; [discriminate|exact IH].
  - rewrite (bind_step _ _ _ _ _ _ E).
    destruct (router_onError this) as [h|]; [reflexivity|].
    unfold prepend, ret, outcomeOf, storeOf, traceOf. simpl. by rewrite app_nil_r.
  - unfold bind. by rewrite E.
Qed.

(** X30.  A response returned by a plugin's on-request hook ends the
    dispatch there: [handle] goes on with the on-response hooks on that
    response, so that the calls of the dispatch are on-request hooks
    followed by callbacks of the error stage; no middleware is called, the
    route table is not searched and no route handler runs. *)
Theorem onRequest_intercepts this req s res s1 t1 :
  runPluginHook this OnRequest (fun plugin => (fun h => h req) <$> onRequest plugin) s
  = (Returned (Some res), s1, t1) ->
  handle this req s = prepend t1 (respond this req res s1)
  ∧ Forall (hookEvent OnRequest) t1
  ∧ Forall (fun e => aftermath e = true) (traceOf (respond this req res s1)).
Proof.
  intros H. split; [|split].
  - rewrite handle_unfold. rewrite (tryCatch_bind_step _ _ _ _ _ _ _ H). reflexivity.
  - pose proof (runPluginHookLoop_emits OnRequest
                  (fun plugin => (fun h => h req) <$> onRequest plugin) (plugins this) s)
      as Hev.
    unfold runPluginHook in H. rewrite H in Hev. exact Hev.
  - apply respond_emits.
Qed.

Lemma onRequest_intercepts_witness :
  handle interceptedRouter (getRequest "/test") emptyStore
  = prepend [Called (PluginHook OnRequest "intercept-plugin")
               (Returned (Some (textResponse 403 "intercepted")))]
      (respond interceptedRouter (getRequest "/test") (textResponse 403 "intercepted")
         emptyStore)
  ∧ Forall (hookEvent OnRequest)
      [Called (PluginHook OnRequest "intercept-plugin")
         (Returned (Some (textResponse 403 "intercepted")))]
  ∧ Forall (fun e => aftermath e = true)
      (traceOf (respond interceptedRouter (getRequest "/test")
                  (textResponse 403 "intercepted") emptyStore)).
Proof.
  apply (onRequest_intercepts interceptedRouter (getRequest "/test") emptyStore
           (textResponse 403 "intercepted") emptyStore).
  reflexivity.
Defined.
End DispatchLaws.

(** ** The content type of the response *)

Module GuardedHeadersLaws.

Import GuardedHeaders.

(** X12.  [setContentType] and the guard of the headers.  On a response
    whose headers can be changed it does what the dispatch takes it to do:
    it leaves a response with a content type that is not empty, on which it
    then changes nothing, and keeps the status, the body and every other
    header.  On a response whose headers are immutable it changes nothing:
    it returns when there is a content type, and otherwise the [TypeError]
    of [headers.set] is thrown.  Whatever the guard, a response that has a
    content type is left as it is. *)
Theorem setContentType_laws res :
  setContentType GuardResponse res = Returned (RouterTs.setContentType res)
  ∧ (exists res',
       setContentType GuardResponse res = Returned res'
       ∧ hasContentType res' = true
       ∧ setContentType GuardResponse res' = Returned res'
       ∧ status res' = status res
       ∧ res_body res' = res_body res
       ∧ (forall key, key ≠ "content-type" ->
            res_headers res' !! key = res_headers res !! key))
  ∧ setContentType GuardImmutable res
    = (if hasContentType res then Returned res
       else Threw (ErrorObject immutableMessage))
  ∧ (forall guard,
       hasContentType res = true -> setContentType guard res = Returned res).
Proof.
  unfold setContentType, RouterTs.setContentType, hasContentType, headersSet.
  destruct (res_headers res !! "content-type") as [[|a ct]|] eqn:E; simpl.
  - split; [reflexivity|]. split; [|split; [reflexivity | discriminate]].
    eexists. split; [reflexivity|]. simpl. rewrite lookup_insert_eq.
    repeat split. intros key Hne. by rewrite lookup_insert_ne.
  - split; [reflexivity|]. split; [|split; reflexivity].
    exists res. rewrite E. by repeat split.
  - split; [reflexivity|]. split; [|split; [reflexivity | discriminate]].
    eexists. split; [reflexivity|]. simpl. rewrite lookup_insert_eq.
    repeat split. intros key Hne. by rewrite lookup_insert_ne.
Qed.

End GuardedHeadersLaws.

(** ** The stored handler of a route: validation, the authentication gate
    and the route handler *)

Module RouteLaws.

Import RouterUtils RouterTypes AuthHandlerClass RouterTs ValidationSpec DispatchSpec
  Scenarios MoreScenarios DispatchNotions.
Import ValidationFacts DispatchFacts.

Lemma validateRequest_validatorsOnly req params validation s :
  validatorsOnly (traceOf (validateRequest req params validation s)).
Proof.
  destruct (validateRequest_steps req params validation s)
    as (l1 & s1 & t1 & l2 & s2 & t2 & l3 & s3 & t3 & l4 & s4 & t4
        & H1 & H2 & H3 & H4 & Hall).
  pose proof (validateParams_step params validation (initialData params, []) s) as F1.
  pose proof (validateQuery_step req validation l1 s1) as F2.
  pose proof (validateHeaders_step req validation l2 s2) as F3.
  pose proof (validateBody_step req validation l3 s3) as F4.
  rewrite H1 in F1. rewrite H2 in F2. rewrite H3 in F3. rewrite H4 in F4.
  assert (forall facet l s r t' l' s',
            facetStep facet l s r -> r = (Returned l', s', t') -> validatorsOnly t')
    as Hone.
  { intros facet l s0 r t' l' s' F ->.
    apply facetStep_inv in F as (l'' & s'' & t'' & E & _ & T).
    injection E as _ _ <-.
    destruct T as [[_ [->| ->]]|[(err & _ & ->)|(item & _ & _ & ->)]];
      repeat constructor; by eexists _, _. }
  rewrite Hall. unfold traceOf. simpl. unfold validatorsOnly.
  rewrite !Forall_app. repeat split.
  - exact (Hone _ _ _ _ _ _ _ F1 eq_refl).
  - exact (Hone _ _ _ _ _ _ _ F2 eq_refl).
  - exact (Hone _ _ _ _ _ _ _ F3 eq_refl).
  - exact (Hone _ _ _ _ _ _ _ F4 eq_refl).
Qed.

Lemma validatorsOnly_no_handler t : validatorsOnly t -> HandlerFn ∉ callees t.
Proof.
  induction 1 as [|e t (facet & result & ->) _ IH]; simpl.
  - apply not_elem_of_nil.
  - apply not_elem_of_cons. split; [discriminate|exact IH].
Qed.

(** [validateRequest] throws nothing but its own failure. *)
Lemma validateRequest_threw req params validation s err s1 t1 :
  validateRequest req params validation s = (Threw err, s1, t1) ->
  exists errors, err = ValidationFailedError errors.
Proof.
  destruct (validateRequest_steps req params validation s)
    as (l1 & s1' & t1' & l2 & s2 & t2 & l3 & s3 & t3 & l4 & s4 & t4
        & _ & _ & _ & _ & Hall).
  rewrite Hall. destruct (l4.2); [discriminate|]. intros [= <- _ _]. by eexists.
Qed.

(** X16.  [runValidationAndHandle]: when validation fails the answer is
    the 400 response listing the failing facets, and the handler is not
    called; when validation passes the handler gets the validated data and
    its response is the answer; and the call throws only what the handler
    threw. *)
Theorem runValidationAndHandle_outcomes req params opts handler s :
  (forall errors s1 t1,
     validateRequest req params (rc_validation opts) s
     = (Threw (ValidationFailedError errors), s1, t1) ->
     RouterTsRewrite.runValidationAndHandle req params opts handler s
     = (Returned (validationFailedRes errors), s1, t1)
     ∧ (HandlerFn ∉ callees t1)
     ∧ status (validationFailedRes errors) = 400%Z)
  ∧ (forall data s1 t1 res s2,
       validateRequest req params (rc_validation opts) s = (Returned data, s1, t1) ->
       h_run handler req data s1 = (Returned res, s2) ->
       RouterTsRewrite.runValidationAndHandle req params opts handler s
       = (Returned res, s2, t1 ++ [Called HandlerFn (Returned (Some res))]))
  ∧ (forall err,
       outcomeOf (RouterTsRewrite.runValidationAndHandle req params opts handler s)
       = Threw err ->
       exists pre,
         traceOf (RouterTsRewrite.runValidationAndHandle req params opts handler s)
         = pre ++ [Called HandlerFn (Threw err)]).
Proof.
  unfold RouterTsRewrite.runValidationAndHandle, RouterTsRewrite.buildValidationErrorRes.
  repeat split.
  - unfold bind, tryCatch. rewrite H. simpl. by rewrite !app_nil_r.
  - apply validatorsOnly_no_handler.
    pose proof (validateRequest_validatorsOnly req params (rc_validation opts) s) as Hv.
    by rewrite H in Hv.
  - intros data s1 t1 res s2 Hv Hh.
    unfold bind, tryCatch, callUnawaited, attempt, call, bind. rewrite Hv, Hh. simpl.
    by rewrite app_nil_r.
  - intros err.
    destruct (validateRequest req params (rc_validation opts) s) as [[[data|e] s1] t1]
      eqn:Ev.
    + unfold bind, tryCatch, callUnawaited, attempt, call, bind. rewrite Ev.
      destruct (h_run handler req data s1) as [[res|e] s2]; simpl; [discriminate|].
      destruct (h_async handler); simpl.
      * intros [= ->]. exists t1. by rewrite !app_nil_r.
      * destruct e; simpl; try discriminate; intros [= ->]; exists t1;
          by rewrite ?app_nil_r.
    + destruct (validateRequest_threw _ _ _ _ _ _ _ Ev) as [errors ->].
      unfold bind, tryCatch. rewrite Ev. simpl. discriminate.
Qed.


Lemma handleAuth_flag_run thisConfig req s :
  handleAuth {| config := Some thisConfig |} req (AuthFlag true) s
  = match ac_verify thisConfig req s with
    | (Returned authData, s1) =>
        (Returned (None, Some authData), s1,
         [Called (VerifyFn (ac_label thisConfig)) (Returned None)])
    | (Threw err, s1) =>
        prepend [Called (VerifyFn (ac_label thisConfig)) (Threw err)]
          match ac_onError thisConfig with
          | Some h =>
              (response <- call (AuthOnError (ac_label thisConfig)) Some (h (asError err));;
               ret (Some response, None)) s1
          | None => (Returned (Some (verifyFailedRes (errorMessage (asError err))), None),
                     s1, [])
          end
    end.
Proof.
  unfold handleAuth. simpl. unfold tryCatch, bind, call.
  destruct (ac_verify thisConfig req s) as [[authData|err] s1]; simpl; [reflexivity|].
  destruct (ac_onError thisConfig) as [h|]; simpl; [|reflexivity].
  destruct (h (asError err) s1) as [[response|e] s2]; reflexivity.
Qed.

(** X17.  On a router with an auth config, a route that requires
    authentication and whose verify step throws gets no further: no
    validator and no handler is called.  The verify step and the error
    mapper are those of one and the same config, the route's own object when
    [auth] is an object and the router's otherwise; without a mapper there,
    the answer is the 401 JSON response with the message of the thrown
    value. *)
Theorem auth_failure_stops_route thisConfig req params opts handler s err s1 :
  authRequired (rc_auth opts) = true ->
  ac_verify (verifier thisConfig (rc_auth opts)) req s = (Threw err, s1) ->
  authOnly (traceOf (runAuth (Some {| config := Some thisConfig |}) req params opts
                       handler s))
  ∧ runAuth (Some {| config := Some thisConfig |}) req params opts handler s
    = prepend [Called (VerifyFn (ac_label (verifier thisConfig (rc_auth opts)))) (Threw err)]
        match ac_onError (verifier thisConfig (rc_auth opts)) with
        | Some h =>
            call (AuthOnError (ac_label (verifier thisConfig (rc_auth opts)))) Some
              (h (asError err)) s1
        | None => (Returned (verifyFailedRes (errorMessage (asError err))), s1, [])
        end.
Proof.
  intros Hreq Hverify.
  assert (runAuth (Some {| config := Some thisConfig |}) req params opts handler s
          = prepend
              [Called (VerifyFn (ac_label (verifier thisConfig (rc_auth opts)))) (Threw err)]
              match ac_onError (verifier thisConfig (rc_auth opts)) with
              | Some h =>
                  call (AuthOnError (ac_label (verifier thisConfig (rc_auth opts)))) Some
                    (h (asError err)) s1
              | None => (Returned (verifyFailedRes (errorMessage (asError err))), s1, [])
              end) as Hrun.
  { unfold runAuth. rewrite Hreq. simpl.
    destruct (rc_auth opts) as [|required|cfg] eqn:Ea; simpl in *; try discriminate.
    - subst required. unfold bind at 1. rewrite handleAuth_flag_run, Hverify.
      destruct (ac_onError thisConfig) as [h|]; [|reflexivity].
      unfold bind, call, prepend, outcomeOf, storeOf, traceOf.
      destruct (h (asError err) s1) as [[response|e] s2]; reflexivity.
    - unfold authenticateRequest. unfold bind at 1. rewrite handleAuth_flag_run. simpl.
      rewrite Hverify.
      destruct (ac_onError cfg) as [h|]; [|reflexivity].
      unfold bind, call, prepend, outcomeOf, storeOf, traceOf.
      destruct (h (asError err) s1) as [[response|e] s2]; reflexivity. }
  split; [|exact Hrun].
  rewrite Hrun, traceOf_prepend. unfold authOnly.
  constructor; [by eexists _, _; left|].
  destruct (ac_onError _) as [h|]; [|constructor].
  unfold call, traceOf. destruct (h (asError err) s1) as [o s2]. simpl.
  constructor; [by eexists _, _; right|constructor].
Qed.

Lemma auth_failure_stops_route_witness :
  authOnly (traceOf (runAuth (Some {| config := Some rejectingAuth |})
                       (getRequest "/protected") ∅ authTrue
                       (okHandler "protected data") emptyStore))
  ∧ runAuth (Some {| config := Some rejectingAuth |}) (getRequest "/protected") ∅
      authTrue (okHandler "protected data") emptyStore
    = (Returned (textResponse 401 "Custom error response"), emptyStore,
       [Called (VerifyFn "global") (Threw (ErrorObject "Invalid access token"));
        Called (AuthOnError "global")
          (Returned (Some (textResponse 401 "Custom error response")))]).
Proof.
  apply (auth_failure_stops_route rejectingAuth (getRequest "/protected") ∅ authTrue
           (okHandler "protected data") emptyStore (ErrorObject "Invalid access token")
           emptyStore); reflexivity.
Defined.

(** X18.  With [auth: true] and a verify step that returns, [runAuth]
    validates the request it was given and hands the handler a copy of it
    that carries what the verify step returned; when the verify step has
    read the body, making the copy fails and the route throws without
    validating or calling the handler. *)
Theorem auth_success_attaches thisConfig req params opts handler s authData s1 :
  rc_auth opts = AuthFlag true ->
  ac_verify thisConfig req s = (Returned authData, s1) ->
  runAuth (Some {| config := Some thisConfig |}) req params opts handler s
  = prepend [Called (VerifyFn (ac_label thisConfig)) (Returned None)]
      (if bodyUsed s1 then (Threw (ErrorObject bodyUsedMessage), s1, [])
       else validateThenHandle req (withAuth req (Some authData)) params opts handler s1).
Proof.
  intros Ha Hverify. unfold runAuth. rewrite Ha. simpl.
  unfold bind at 1. rewrite handleAuth_flag_run, Hverify. simpl.
  unfold bind at 1, clone. destruct (bodyUsed s1); [reflexivity|].
  destruct (validateThenHandle req (withAuth req (Some authData)) params opts handler s1)
    as [[o s2] t2]. reflexivity.
Qed.

Lemma auth_success_attaches_witness :
  runAuth (Some {| config := Some acceptingAuth |}) (getRequest "/protected") ∅
    authTrue echoAuth emptyStore
  = (Returned {| status := 200; res_headers := ∅; res_body := BodyStringify mockUser |},
     emptyStore,
     [Called (VerifyFn "global") (Returned None);
      Called HandlerFn
        (Returned (Some {| status := 200; res_headers := ∅;
                           res_body := BodyStringify mockUser |}))]).
Proof.
  apply (auth_success_attaches acceptingAuth (getRequest "/protected") ∅ authTrue
           echoAuth emptyStore mockUser emptyStore); reflexivity.
Defined.

(** X19.  A [ValidationFailedError] thrown by the route handler itself.
    [runValidationAndHandle] returns what the handler returns without
    awaiting it: the failure is answered with the 400 response only when the
    handler threw it before returning, and it leaves the route as an error
    when the handler is an [async] function.  [authenticateRequest] awaits
    the handler: there the failure is answered with the 400 response in both
    cases. *)
Theorem handler_validation_error req params opts handler :
  (forall s data s1 t1 errors s2,
     validateRequest req params (rc_validation opts) s = (Returned data, s1, t1) ->
     h_run handler req data s1 = (Threw (ValidationFailedError errors), s2) ->
     outcomeOf (RouterTsRewrite.runValidationAndHandle req params opts handler s)
     = if h_async handler then Threw (ValidationFailedError errors)
       else Returned (validationFailedRes errors))
  ∧ (forall this cfg s authData sv data s1 t1 errors s2,
       ac_verify cfg req s = (Returned authData, sv) ->
       bodyUsed sv = false ->
       validateRequest req params (rc_validation opts) sv = (Returned data, s1, t1) ->
       h_run handler (withAuth req (Some authData)) data s1
       = (Threw (ValidationFailedError errors), s2) ->
       outcomeOf (authenticateRequest this req cfg params (rc_validation opts) handler s)
       = Returned (validationFailedRes errors)).
Proof.
  split.
  - intros s data s1 t1 errors s2 Hv Hh.
    unfold RouterTsRewrite.runValidationAndHandle, bind, tryCatch, callUnawaited,
      attempt, call, bind.
    rewrite Hv, Hh. simpl. by destruct (h_async handler).
  - intros this cfg s authData sv data s1 t1 errors s2 Hverify Hused Hv Hh.
    unfold authenticateRequest. unfold bind at 1. rewrite handleAuth_flag_run. simpl.
    rewrite Hverify. simpl. unfold bind at 1, clone. rewrite Hused.
    unfold tryCatch, bind, call. rewrite Hv, Hh. reflexivity.
Qed.

End RouteLaws.

(** ** Registration: [addRoute] and the shorthand methods *)

Module RegistrationLaws.

Import RouterUtils RouterTypes AuthHandlerClass RouterTs ValidationSpec DispatchSpec
  Scenarios MoreScenarios DispatchNotions.
Import ValidationFacts DispatchFacts.

Lemma attempt_run {A} (m : M A) s :
  attempt m s = (Returned (outcomeOf (m s)), storeOf (m s), traceOf (m s)).
Proof. unfold attempt. by destruct (m s) as [[o s1] t1]. Qed.

Lemma matchRouteHandlerLoop_app method path rs1 rs2 :
  matchRouteHandlerLoop method path (rs1 ++ rs2)
  = match matchRouteHandlerLoop method path rs1 with
    | Some found => Some found
    | None => matchRouteHandlerLoop method path rs2
    end.
Proof.
  induction rs1 as [|r rs1 IH]; simpl; [reflexivity|].
  destruct (negb (String.eqb (route_method r) method)); [exact IH|].
  destruct (PathMatcher.matchRoute path (route_path r)); [reflexivity|exact IH].
Qed.

Lemma addRoute_returned this method path opts handler s router s' t :
  addRoute this method path opts handler s = (Returned (router, Returned tt), s', t) ->
  routes router
  = routes this
    ++ [{| route_path := path; route_method := method;
           route_handler := wrapped opts handler;
           route_middleware := rc_middleware opts |}].
Proof.
  unfold addRoute.
  set (before := runPluginHook this OnBeforeRouteRegister _).
  unfold bind at 1. rewrite attempt_run.
  destruct (before s) as [[[r|err] s1] t1] eqn:Eb; unfold outcomeOf, storeOf, traceOf; simpl.
  - set (this1 := pushRoute this _).
    set (after := runPluginHook this1 OnAfterRouteRegister _).
    unfold bind. rewrite attempt_run.
    destruct (after s1) as [[[r'|err] s2] t2] eqn:Ea; unfold outcomeOf, storeOf, traceOf;
      simpl; intros [= <- _ _]; reflexivity || discriminate.
  - intros H. congruence.
Qed.

(** What registering a route under [method] does to the lookup. *)
Lemma addRoute_lookup this method path opts handler s router o s' t :
  addRoute this method path opts handler s = (Returned (router, o), s', t) ->
  (forall method' reqPath, method' ≠ method ->
     matchRouteHandler router method' reqPath = matchRouteHandler this method' reqPath)
  ∧ (forall reqPath found,
       matchRouteHandler this method reqPath = Some found ->
       matchRouteHandler router method reqPath = Some found)
  ∧ (o = Returned tt ->
     forall reqPath,
       matchRouteHandler this method reqPath = None ->
       matchRouteHandler router method reqPath
       = (fun params =>
            ({| route_path := path; route_method := method;
                route_handler := wrapped opts handler;
                route_middleware := rc_middleware opts |}, params))
         <$> PathMatcher.matchRoute reqPath path).
Proof.
  intros Hrun. unfold matchRouteHandler. repeat split.
  - intros method' reqPath Hne.
    destruct (RegistrationFacts.addRoute_drops_rewrites _ _ _ _ _ _ _ _ _ _ Hrun)
      as [-> | ->]; [reflexivity|].
    rewrite matchRouteHandlerLoop_app. simpl.
    apply String.eqb_neq in Hne. rewrite String.eqb_sym in Hne. rewrite Hne. simpl.
    by destruct (matchRouteHandlerLoop method' reqPath (routes this)).
  - intros reqPath found Hfound.
    destruct (RegistrationFacts.addRoute_drops_rewrites _ _ _ _ _ _ _ _ _ _ Hrun)
      as [-> | ->]; [exact Hfound|].
    by rewrite matchRouteHandlerLoop_app, Hfound.
  - intros -> reqPath Hnone.
    rewrite (addRoute_returned _ _ _ _ _ _ _ _ _ Hrun).
    rewrite matchRouteHandlerLoop_app, Hnone. simpl. rewrite String.eqb_refl. simpl.
    by destruct (PathMatcher.matchRoute reqPath path).
Qed.

(** X21.  A route registered with [get], [post], [put], [patch] or
    [delete] answers that method only: the lookup for every other method is
    as before, a route that answered a request before still answers it, and
    when the call resolved the new route answers the requests of its method
    that match its path and found no route before. *)
Theorem verbs_route_by_method method verb this path opts h s router o s' t :
  (method, verb) ∈ RouterTsVerbs.verbs ->
  verb this path opts h s = (Returned (router, o), s', t) ->
  (forall method' reqPath, method' ≠ method ->
     matchRouteHandler router method' reqPath = matchRouteHandler this method' reqPath)
  ∧ (forall reqPath found,
       matchRouteHandler this method reqPath = Some found ->
       matchRouteHandler router method reqPath = Some found)
  ∧ (o = Returned tt ->
     forall reqPath,
       matchRouteHandler this method reqPath = None ->
       matchRouteHandler router method reqPath
       = (fun params =>
            ({| route_path := path; route_method := method;
                route_handler := wrapped opts h;
                route_middleware := rc_middleware opts |}, params))
         <$> PathMatcher.matchRoute reqPath path).
Proof.
  intros Hverb Hrun. unfold RouterTsVerbs.verbs in Hverb.
  repeat (apply elem_of_cons in Hverb as [[= -> ->]|Hverb];
          [exact (addRoute_lookup _ _ _ _ _ _ _ _ _ _ Hrun)|]).
  by apply elem_of_nil in Hverb.
Qed.

Lemma verbs_route_by_method_witness :
  (forall method' reqPath, method' ≠ "POST" ->
     matchRouteHandler
       (built (RouterTsVerbs.post (newRouter None) "/items" noOpts (okHandler "made"))
          (newRouter None)) method' reqPath
     = matchRouteHandler (newRouter None) method' reqPath)
  ∧ (forall reqPath found,
       matchRouteHandler (newRouter None) "POST" reqPath = Some found ->
       matchRouteHandler
         (built (RouterTsVerbs.post (newRouter None) "/items" noOpts (okHandler "made"))
            (newRouter None)) "POST" reqPath
       = Some found)
  ∧ (Returned tt = Returned tt ->
     forall reqPath,
       matchRouteHandler (newRouter None) "POST" reqPath = None ->
       matchRouteHandler
         (built (RouterTsVerbs.post (newRouter None) "/items" noOpts (okHandler "made"))
            (newRouter None)) "POST" reqPath
       = (fun params =>
            ({| route_path := "/items"; route_method := "POST";
                route_handler := wrapped noOpts (okHandler "made");
                route_middleware := rc_middleware noOpts |}, params))
         <$> PathMatcher.matchRoute reqPath "/items").
Proof.
  apply (verbs_route_by_method "POST" RouterTsVerbs.post (newRouter None) "/items"
           noOpts (okHandler "made") emptyStore
           (built (RouterTsVerbs.post (newRouter None) "/items" noOpts (okHandler "made"))
              (newRouter None))
           (Returned tt) emptyStore []).
  - unfold RouterTsVerbs.verbs. apply list_elem_of_In. right. left. reflexivity.
  - vm_compute. reflexivity.
Defined.

End RegistrationLaws.

(** ** AuthGate: [AuthHandler.handleAuth], and the helpers of
    [auth-utils.ts] *)

Module AuthLaws.

Import RouterUtils RouterTypes AuthHandlerClass RouterTs ValidationSpec DispatchSpec
  Scenarios MoreScenarios DispatchNotions.
Import ValidationFacts DispatchFacts.

(** X22.  What [AuthHandler.handleAuth] comes back with.  When
    authentication is not required: no response, no auth data, nothing
    called.  When it is required: either a response and no auth data, or no
    response and the data of a verify step that returned; without a config
    the response is the 500 one and the verify step is not called.  It
    throws only what an error mapper threw. *)
Theorem handleAuth_result this req authConfig s :
  match handleAuth this req authConfig s with
  | (Returned (response, authData), s', t) =>
      if authRequired authConfig then
        ((exists res, response = Some res ∧ authData = None)
         ∨ (response = None
            ∧ exists data label,
                authData = Some data ∧ t = [Called (VerifyFn label) (Returned None)]))
        ∧ (config this = None -> response = Some misconfiguredRes ∧ t = [] ∧ s' = s)
      else response = None ∧ authData = None ∧ t = [] ∧ s' = s
  | (Threw err, s', t) =>
      exists pre owner, t = pre ++ [Called (AuthOnError owner) (Threw err)]
  end.
Proof.
  unfold handleAuth. destruct (authRequired authConfig) eqn:Ea; simpl; [|done].
  destruct (config this) as [thisConfig|]; simpl.
  - unfold tryCatch, bind, call.
    set (owner := match authConfig with AuthObject cfg => cfg | _ => thisConfig end).
    destruct (ac_verify owner req s) as [[authData|err] s1]; simpl.
    + split; [|discriminate]. right. split; [reflexivity|]. by eexists _, _.
    + set (mapper := match authConfig with
                     | AuthObject cfg => _
                     | _ => _
                     end).
      destruct mapper as [[label h]|]; simpl.
      * destruct (h (asError err) s1) as [[response|e] s2]; simpl.
        -- split; [|discriminate]. left. by eexists.
        -- by eexists [_], _.
      * split; [|discriminate]. left. by eexists.
  - split; [|done]. left. by eexists.
Qed.

(** X23.  [handleAuth] of [auth-utils.ts]: nothing is called when
    authentication is not required; [true] without a global config throws
    the configuration error; a config object is used whatever the global
    config is.  The middleware made by [createAuthMiddleware] lets a request
    through exactly when the verify step returns, and without an error
    mapper it answers a failed verify step with the 401 text response. *)
Theorem authUtils_handleAuth_laws :
  (forall req authConfig globalConfig s,
     authRequired authConfig = false ->
     AuthUtils.handleAuth req authConfig globalConfig s = (Returned (None, None), s, []))
  ∧ (forall req s,
       AuthUtils.handleAuth req (AuthFlag true) None s
       = (Threw (ErrorObject AuthUtils.missingConfigMessage), s, []))
  ∧ (forall req cfg g g' s,
       AuthUtils.handleAuth req (AuthObject cfg) g s
       = AuthUtils.handleAuth req (AuthObject cfg) g' s)
  ∧ (forall cfg req s,
       outcomeOf (AuthUtils.createAuthMiddleware cfg req s) = Returned None
       <-> exists data s1, ac_verify cfg req s = (Returned data, s1))
  ∧ (forall cfg req s err s1,
       ac_verify cfg req s = (Threw err, s1) ->
       ac_onError cfg = None ->
       AuthUtils.createAuthMiddleware cfg req s
       = (Returned (Some AuthUtils.unauthorizedRes), s1,
          [Called (VerifyFn (ac_label cfg)) (Threw err)])).
Proof.
  split; [|split; [|split; [|split]]].
  - intros req authConfig globalConfig s H. unfold AuthUtils.handleAuth. by rewrite H.
  - reflexivity.
  - reflexivity.
  - intros cfg req s.
    unfold AuthUtils.createAuthMiddleware, AuthUtils.handleAuth. simpl.
    unfold bind, tryCatch, call, outcomeOf.
    destruct (ac_verify cfg req s) as [[data|err] s1]; simpl.
    + split; [by eexists _, _|reflexivity].
    + split; [|by intros (data & s2 & H)].
      destruct (ac_onError cfg) as [h|]; simpl; [|discriminate].
      destruct (h err s1) as [[response|e] s2]; simpl; discriminate.
  - intros cfg req s err s1 Hv Hnone.
    unfold AuthUtils.createAuthMiddleware, AuthUtils.handleAuth. simpl.
    unfold bind, tryCatch, call. by rewrite Hv, Hnone.
Qed.

(** X24.  Installed as the first global middleware of a router whose
    plugins have no on-request and no on-response hook, the middleware of
    [createAuthMiddleware] ends the dispatch of a request whose verify step
    throws: the answer is the 401 text response, and neither a later
    middleware nor the route table nor a handler is reached. *)
Theorem auth_middleware_blocks this req s label cfg rest err s1 :
  Forall (fun p => onRequest p = None) (plugins this) ->
  Forall (fun p => onResponse p = None) (plugins this) ->
  globalMws this
  = AuthUtils.asMiddleware label (AuthUtils.createAuthMiddleware cfg) :: rest ->
  ac_verify cfg req s = (Threw err, s1) ->
  ac_onError cfg = None ->
  handle this req s
  = (Returned (Some AuthUtils.unauthorizedRes), s1,
     [Called (MiddlewareFn GlobalTier label) (Returned (Some AuthUtils.unauthorizedRes))]).
Proof.
  intros Hreq Hres Hglobal Hverify Hnone.
  assert (runMiddlewaresIn GlobalTier req (globalMws this) s
          = (Returned (Some AuthUtils.unauthorizedRes), s1,
             [Called (MiddlewareFn GlobalTier label)
                (Returned (Some AuthUtils.unauthorizedRes))])) as Hmw.
  { rewrite Hglobal. simpl. unfold bind, call. simpl.
    unfold AuthUtils.createAuthMiddleware, AuthUtils.handleAuth. simpl.
    unfold bind, tryCatch, call. by rewrite Hverify, Hnone. }
  rewrite handle_unfold. unfold runPluginHook.
  rewrite (tryCatch_bind_step _ _ _ _ _ _ _ (DispatchLaws.no_onRequest req _ s Hreq)).
  rewrite prepend_nil.
  rewrite (tryCatch_bind_step _ _ _ _ _ _ _ Hmw).
  unfold returnAwait, runPluginResponseHook.
  unfold tryCatch, bind. by rewrite (DispatchLaws.no_onResponse req _ _ s1 Hres).
Qed.

Lemma auth_middleware_blocks_witness :
  handle guardedRouter (getRequest "/protected") emptyStore
  = (Returned (Some AuthUtils.unauthorizedRes), emptyStore,
     [Called (MiddlewareFn GlobalTier "auth")
        (Returned (Some AuthUtils.unauthorizedRes))]).
Proof.
  apply (auth_middleware_blocks guardedRouter (getRequest "/protected") emptyStore
           "auth" routeAuth [] (ErrorObject "bad token") emptyStore).
  - vm_compute. constructor.
  - vm_compute. constructor.
  - reflexivity.
  - reflexivity.
  - reflexivity.
Defined.

End AuthLaws.

(** ** Configuration: [configureAuth] and [registerPlugin] *)

Module ConfigurationLaws.

Import RouterUtils RouterTypes AuthHandlerClass RouterTs ValidationSpec DispatchSpec
  Scenarios MoreScenarios DispatchNotions.
Import ValidationFacts DispatchFacts.

Lemma validatorsOnly_elem t e :
  validatorsOnly t -> e ∈ t -> exists facet result, e = Called (ValidatorFn facet) result.
Proof. unfold validatorsOnly. rewrite Forall_forall. intros H Hin. by apply H. Qed.

Lemma validateThenHandle_no_verify validated passed params opts handler s label result :
  Called (VerifyFn label) result
  ∉ traceOf (validateThenHandle validated passed params opts handler s).
Proof.
  unfold validateThenHandle.
  pose proof (RouteLaws.validateRequest_validatorsOnly validated params
                (rc_validation opts) s) as Hv.
  destruct (validateRequest validated params (rc_validation opts) s) as [[[data|e] s1] t1]
    eqn:Ev; unfold traceOf in Hv; simpl in Hv.
  - unfold bind, tryCatch, callUnawaited, attempt, call, bind. rewrite Ev.
    destruct (h_run handler passed data s1) as [[res|e] s2]; simpl.
    + unfold traceOf. simpl. rewrite !app_nil_r. intros Hin.
      apply elem_of_app in Hin as [Hin|Hin].
      * destruct (validatorsOnly_elem _ _ Hv Hin) as (f & r & Heq). discriminate.
      * apply list_elem_of_singleton in Hin. discriminate.
    + destruct (h_async handler); [|destruct e]; unfold traceOf; simpl;
        rewrite ?app_nil_r; intros Hin;
        (apply elem_of_app in Hin as [Hin|Hin];
         [destruct (validatorsOnly_elem _ _ Hv Hin) as (f & r & Heq); discriminate
         |apply list_elem_of_singleton in Hin; discriminate]).
  - destruct (RouteLaws.validateRequest_threw _ _ _ _ _ _ _ Ev) as [errors ->].
    unfold bind, tryCatch. rewrite Ev. unfold traceOf. simpl. rewrite !app_nil_r.
    intros Hin. destruct (validatorsOnly_elem _ _ Hv Hin) as (f & r & Heq). discriminate.
Qed.

Lemma bind_trace_head {A B} (m : M A) (k : A -> M B) s o s1 e t1 :
  m s = (o, s1, e :: t1) -> exists rest, traceOf (bind m k s) = e :: rest.
Proof.
  intros H. unfold bind. rewrite H. destruct o as [a|err].
  - destruct (k a s1) as [[o2 s2] t2]. by eexists.
  - by eexists.
Qed.

Lemma handleAuth_flag_head cfg req s :
  exists o s1 result rest,
    handleAuth {| config := Some cfg |} req (AuthFlag true) s
    = (o, s1, Called (VerifyFn (ac_label cfg)) result :: rest).
Proof.
  rewrite RouteLaws.handleAuth_flag_run.
  destruct (ac_verify cfg req s) as [[authData|err] s1]; [by eexists _, _, _, _|].
  unfold prepend. simpl. by eexists _, _, _, _.
Qed.

(** X25.  [configureAuth] leaves the route table alone and takes effect
    on the routes that are already there: a route stored with [auth: true]
    starts by calling the verify step of the config set last, although it
    was registered before; on a router that was never given a config the
    same route calls no verify step at all. *)
Theorem configureAuth_guards_registered_routes this cfg opts handler req params s :
  rc_auth opts = AuthFlag true ->
  routes (configureAuth this cfg) = routes this
  ∧ (exists result rest,
       traceOf (wrapped opts handler (authHandler (configureAuth this cfg)) req params s)
       = Called (VerifyFn (ac_label cfg)) result :: rest)
  ∧ (forall label result,
       Called (VerifyFn label) result
       ∉ traceOf (wrapped opts handler None req params s)).
Proof.
  intros Ha. split; [reflexivity|]. split.
  - unfold wrapped, configureAuth, runAuth. simpl. rewrite Ha. simpl.
    destruct (handleAuth_flag_head cfg req s) as (o & s1 & result & rest & H).
    exists result. by apply (bind_trace_head _ _ _ _ _ _ _ H).
  - intros label result. unfold wrapped, runAuth. apply validateThenHandle_no_verify.
Qed.

Lemma configureAuth_guards_registered_routes_witness :
  routes (configureAuth openRouter rejectingAuth) = routes openRouter
  ∧ (exists result rest,
       traceOf (wrapped authTrue (okHandler "protected data")
                  (authHandler (configureAuth openRouter rejectingAuth))
                  (getRequest "/protected") ∅ emptyStore)
       = Called (VerifyFn (ac_label rejectingAuth)) result :: rest)
  ∧ (forall label result,
       Called (VerifyFn label) result
       ∉ traceOf (wrapped authTrue (okHandler "protected data") None
                    (getRequest "/protected") ∅ emptyStore)).
Proof.
  apply (configureAuth_guards_registered_routes openRouter rejectingAuth authTrue
           (okHandler "protected data") (getRequest "/protected") ∅ emptyStore).
  reflexivity.
Defined.

End ConfigurationLaws.

(** ** The zod adapter of the example, and the zod-only [validateRequest] *)

Module ZodLaws.

Import RouterUtils ValidationSpec Scenarios MoreScenarios.
Import ValidationFacts.

(** X27.  A zod schema wrapped by [zodValidator] and used as the
    validator of the path parameters: when the schema reports issues, the
    request fails with one params entry whose single message is the
    messages of the issues joined by "; "; a value that is thrown inside the
    schema and is no zod error is recorded with its own message. *)
Theorem zodValidator_joins_messages req params validation schema s thrown h1 :
  supplied validation Fparams = Some (ZodAdapter.zodValidator schema) ->
  schema (DRecord params) (heap s) = (inr thrown, h1) ->
  exists errors,
    outcomeOf (validateRequest req params validation s)
    = Threw (ValidationFailedError errors)
    ∧ {| ve_type := Fparams;
         ve_messages :=
           [match thrown with
            | RouterUtilsZod.ZodError _ issues =>
                String.concat "; " (List.map RouterUtilsZod.zi_message issues)
            | RouterUtilsZod.NotZod err => messageOrString err
            end] |}
      ∈ errors.
Proof.
  intros Hsup Es. destruct thrown as [m issues|err].
  - eapply (params_validator_throw_recorded req params validation s _
             (ErrorObject (String.concat "; " (List.map RouterUtilsZod.zi_message issues)))
             h1).
    + left. exact Hsup.
    + unfold ZodAdapter.safeParse. by rewrite Es.
  - eapply (params_validator_throw_recorded req params validation s _ err h1).
    + left. exact Hsup.
    + unfold ZodAdapter.safeParse. by rewrite Es.
Qed.

Lemma zodValidator_joins_messages_witness :
  exists errors,
    outcomeOf (validateRequest (getRequest "/users/42") {[ "userId" := "42" ]}
                 (Some uuidValidation) emptyStore)
    = Threw (ValidationFailedError errors)
    ∧ {| ve_type := Fparams; ve_messages := ["Invalid uuid; Too short"] |} ∈ errors.
Proof.
  apply (zodValidator_joins_messages (getRequest "/users/42") {[ "userId" := "42" ]}
           (Some uuidValidation) uuidSchema emptyStore
           (RouterUtilsZod.ZodError "Invalid uuid"
              [{| RouterUtilsZod.zi_path := ["userId"];
                  RouterUtilsZod.zi_message := "Invalid uuid" |};
               {| RouterUtilsZod.zi_path := ["userId"];
                  RouterUtilsZod.zi_message := "Too short" |}])
           ∅); vm_compute; reflexivity.
Defined.

(** X28.  The earlier, zod-only [validateRequest].  With a body schema it
    reads the body of the request itself, so that a later [req.json()]
    fails.  A value thrown by the schema of the path parameters that is no
    zod error is dropped: the call returns, with no failure and without the
    parameters.  Thrown by the body schema, such a value is reported as
    invalid JSON. *)
Theorem zod_validateRequest_edges :
  (forall req params validation schema s,
     RouterUtilsZod.v_body validation = Some schema ->
     bodyUsed s = false ->
     outcomeOf (json req (RouterUtilsZod.validateRequest req params (Some validation) s).1.2)
     = Threw (ErrorObject bodyUsedMessage))
  ∧ (forall req params schema s err h1,
       schema (DRecord params) (heap s) = (inr (RouterUtilsZod.NotZod err), h1) ->
       RouterUtilsZod.validateRequest req params
         (Some {| RouterUtilsZod.v_params := Some schema;
                  RouterUtilsZod.v_query := None;
                  RouterUtilsZod.v_headers := None;
                  RouterUtilsZod.v_body := None |}) s
       = (inr {| RouterUtilsZod.pd_params := None;
                 RouterUtilsZod.pd_query :=
                   Some (DRecord (Js.fromEntries (req_searchParams req)));
                 RouterUtilsZod.pd_headers :=
                   Some (DRecord (Js.fromEntries (req_headers req)));
                 RouterUtilsZod.pd_body := None |},
          {| heap := h1; bodyUsed := bodyUsed s |},
          [Called (ValidatorFn Fparams) (Threw err)]))
  ∧ (forall req params schema s value err h1,
       bodyUsed s = false ->
       req_bodyJson req = Some value ->
       schema (DJson value) (heap s) = (inr (RouterUtilsZod.NotZod err), h1) ->
       (RouterUtilsZod.validateRequest req params
          (Some {| RouterUtilsZod.v_params := None;
                   RouterUtilsZod.v_query := None;
                   RouterUtilsZod.v_headers := None;
                   RouterUtilsZod.v_body := Some schema |}) s).1.1
       = inl [RouterUtilsZod.invalidJson]).
Proof.
  split; [|split].
  - intros req params validation schema s Hschema Hused.
    pose proof (ZodVariantFacts.zod_validateRequest_uses_body req params validation schema s
                  Hschema Hused) as H.
    unfold json, outcomeOf. by rewrite H.
  - intros req params schema s err h1 Hs.
    unfold RouterUtilsZod.validateRequest. simpl.
    unfold RouterUtilsZod.parseFacet. simpl. rewrite Hs. reflexivity.
  - intros req params schema s value err h1 Hused Hjson Hs.
    unfold RouterUtilsZod.validateRequest. simpl.
    unfold RouterUtilsZod.parseBody, json. simpl. rewrite Hused, Hjson. simpl.
    rewrite Hs. reflexivity.
Qed.

End ZodLaws.
